(** * Authentication and session lifecycle of the task-management API

    A shallow embedding of [AuthService] (login, register, refresh-token
    rotation, logout, lockout) together with the parts of [UsersService]
    and of the [RefreshToken] entity it relies on.

    - The relational store is a list of rows per table, in heap order.
    - The cache manager is a finite map from keys to values with an expiry.
    - An [async] method is a tree of awaited collaborator calls
      ([Async]); the tree is run to completion by [exec] for one request
      at a time, and stepped await by await for interleaved requests. *)

From Stdlib Require Import ZArith String List Bool Lia.
From stdpp Require Import base option gmap strings pretty.
Import ListNotations.

Local Open Scope string_scope.
Local Open Scope Z_scope.

(** ** Entities *)

Module User.
(** [users] row.  [tokenVersion] is absent ([None]) on entities loaded
    with a [select] list that leaves the column out. *)
Record t : Type := mk {
  id : string;
  email : string;
  name : string;
  password : string;
  role : string;
  tokenVersion : option Z
}.
End User.

Module RefreshToken.
(** [refresh_tokens] row.  [expiresAt] is a timestamp in milliseconds.
    [createdAt] is filled by the database and never read; the [user]
    relation is joined by the query that asks for it. *)
Record t : Type := mk {
  id : string;
  token : string;
  userId : string;
  expiresAt : Z;
  isActive : bool
}.

Definition deactivate (r : t) : t :=
  mk (id r) (token r) (userId r) (expiresAt r) false.
End RefreshToken.

(** ** Data transfer objects *)

Record LoginDto : Type := mkLoginDto {
  login_email : string;
  login_password : string
}.

Record CreateUserDto : Type := mkCreateUserDto {
  dto_email : string;
  dto_name : string;
  dto_password : string;
  dto_role : option string
}.

Record UserSummary : Type := mkUserSummary {
  summary_id : string;
  summary_email : string;
  summary_name : string;
  summary_role : string
}.

Record AuthResponseDto : Type := mkAuthResponseDto {
  accessToken : string;
  refreshToken : string;
  user : UserSummary
}.

Record TokenPair : Type := mkTokenPair {
  pair_accessToken : string;
  pair_refreshToken : string
}.

(** ** Exceptions and results *)

Inductive Exception : Type :=
| UnauthorizedException (message : string)
| BadRequestException (message : string)
| ConflictException (message : string)
| TypeError (message : string)
| QueryFailedError (message : string)
| InternalError (message : string).

Inductive Result (A : Type) : Type :=
| Ok (a : A)
| Throw (e : Exception).
Arguments Ok {A} a.
Arguments Throw {A} e.

Definition succeeded {A} (r : Result A) : bool :=
  match r with Ok _ => true | Throw _ => false end.

(** ** Values kept in the cache, with JavaScript truthiness *)

Inductive JsValue : Type :=
| JsBool (b : bool)
| JsNumber (n : Z)
| JsUser (u : User.t).

Definition truthy (v : option JsValue) : bool :=
  match v with
  | None => false
  | Some (JsBool b) => b
  | Some (JsNumber n) => negb (n =? 0)
  | Some (JsUser _) => true
  end.

(** [v || 0] read at type [number], as the next addition does.  The count
    is an integer and sums on it are exact, as they are in doubles for the
    safe integers ([safe_count] below), the counts written by the service
    among them.  A boolean is coerced as JavaScript coerces it.  An object,
    which the declared type of the key excludes and with which the code
    would go on to concatenate strings, is not a count: it reads as 0
    here. *)
Definition number_or_zero (v : option JsValue) : Z :=
  match v with
  | Some (JsNumber n) => n
  | Some (JsBool true) => 1
  | _ => 0
  end.

Definition MAX_SAFE_INTEGER : Z := 2 ^ 53 - 1.

(** What a key that holds a count reads: nothing, or a number within the
    safe integers. *)
Definition safe_count (v : option JsValue) : bool :=
  match v with
  | None => true
  | Some (JsNumber n) => (- MAX_SAFE_INTEGER <=? n) && (n <=? MAX_SAFE_INTEGER)
  | Some _ => false
  end.

(** ** The cache manager: keys with a time to live (milliseconds) *)

Record CacheEntry : Type := mkCacheEntry {
  entry_value : JsValue;
  entry_expiry : Z
}.

(** An entry set at [t] with a time to live [ttl] expires at [t + ttl]; it
    is still read at that very instant and no longer after it. *)
Definition cache_get (c : gmap string CacheEntry) (now : Z) (key : string)
  : option JsValue :=
  match c !! key with
  | Some e => if now <=? entry_expiry e then Some (entry_value e) else None
  | None => None
  end.

Definition cache_set (c : gmap string CacheEntry) (now : Z) (key : string)
    (v : JsValue) (ttl : Z) : gmap string CacheEntry :=
  <[key := mkCacheEntry v (now + ttl)]> c.

Definition cache_del (c : gmap string CacheEntry) (key : string)
  : gmap string CacheEntry :=
  delete key c.

(** ** The [refresh_tokens] table *)

(** The row with the smallest primary key; identifiers are compared as
    strings, which for uuids in their canonical form is the order of the
    database.  Of two rows with one key, which a table does not hold, the
    earlier one is taken. *)
Fixpoint smallest_key (rows : list RefreshToken.t) : option RefreshToken.t :=
  match rows with
  | [] => None
  | r :: rest =>
      match smallest_key rest with
      | Some m =>
          if String.ltb (RefreshToken.id m) (RefreshToken.id r)
          then Some m else Some r
      | None => Some r
      end
  end.

(** [findOne(RefreshToken, { where: { token, isActive: true },
    relations: ['user'] })]: with a relation joined the query takes one row
    after ordering by the primary key, so of the matching rows the one with
    the smallest [id] is returned, not the one inserted first. *)
Definition findOne (tok : string) (rows : list RefreshToken.t)
  : option RefreshToken.t :=
  smallest_key
    (List.filter (fun r => String.eqb (RefreshToken.token r) tok
                           && RefreshToken.isActive r) rows).

(** [save(entity)]: update of the row with the entity's primary key, or
    insertion when there is none. *)
Definition save (r : RefreshToken.t) (rows : list RefreshToken.t)
  : list RefreshToken.t :=
  if existsb (fun x => String.eqb (RefreshToken.id x) (RefreshToken.id r)) rows
  then map (fun x => if String.eqb (RefreshToken.id x) (RefreshToken.id r)
                     then r else x) rows
  else (rows ++ [r])%list.

(** [update(RefreshToken, criteria, { isActive: false })], where the
    criteria are [{ userId }] or [{ userId, isActive: true }]. *)
Definition update_inactive (uid : string) (onlyActive : bool)
    (rows : list RefreshToken.t) : list RefreshToken.t :=
  map (fun r => if String.eqb (RefreshToken.userId r) uid
                   && (negb onlyActive || RefreshToken.isActive r)
                then RefreshToken.deactivate r else r) rows.

(** The rows a query runner sees (read committed): the table as committed
    at that moment with the writes of its own open transaction applied.  A
    commit applies those writes, in order, to the table as it then is. *)
Definition view (committed : list RefreshToken.t)
    (qr : option (list RefreshToken.t)) : list RefreshToken.t :=
  match qr with
  | Some pending => fold_left (fun rows r => save r rows) pending committed
  | None => committed
  end.

(** The active rows that carry a token value. *)
Definition active_rows (tok : string) (rows : list RefreshToken.t)
  : list RefreshToken.t :=
  List.filter (fun r => String.eqb (RefreshToken.token r) tok
                        && RefreshToken.isActive r) rows.

(** ** The [users] table *)

Definition find_user_by_email (e : string) (us : list User.t) : option User.t :=
  List.find (fun u => String.eqb (User.email u) e) us.

Definition find_user_by_id (i : string) (us : list User.t) : option User.t :=
  List.find (fun u => String.eqb (User.id u) i) us.

(** [select: ['id', 'email', 'name', 'role', 'password', 'createdAt']] *)
Definition select_for_auth (u : User.t) : User.t :=
  User.mk (User.id u) (User.email u) (User.name u) (User.password u)
          (User.role u) None.

(** ** Token claims *)

Inductive JwtPayload : Type :=
| AccessPayload (sub email role : string) (tokenVersion : Z)
| RefreshPayload (sub type : string).

Record JwtSignOptions : Type := mkJwtSignOptions {
  secret : option string;
  expiresIn : string
}.

Record JwtClaims : Type := mkJwtClaims {
  exp : option Z
}.

Record JwtService : Type := mkJwtService {
  signAsync : JwtPayload -> JwtSignOptions -> Z -> string;
  decode : string -> option JwtClaims
}.

(** ** The world shared by all requests *)

Record World : Type := mkWorld {
  users : list User.t;
  refresh_tokens : list RefreshToken.t;
  cache : gmap string CacheEntry
}.

(** What one request observes from its environment: the clock reading
    (taken once per request), the identifiers drawn, and which awaited
    calls are rejected, by their position in the request. *)
Record Env : Type := mkEnv {
  now : Z;
  uuidv4 : string;
  generated_user_id : string;
  faults : nat -> option Exception
}.

Definition no_faults : nat -> option Exception := fun _ => None.

(** ** Awaited collaborator calls *)

Inductive Op : Type -> Type :=
(* queryRunner and queryRunner.manager *)
| QueryRunner_connect : Op unit
| QueryRunner_startTransaction : Op unit
| QueryRunner_commitTransaction : Op unit
| QueryRunner_rollbackTransaction : Op unit
| QueryRunner_release : Op unit
| QueryRunner_findOne (token : string)
    : Op (option (RefreshToken.t * option User.t))
| QueryRunner_save (r : RefreshToken.t) : Op unit
(* dataSource.manager *)
| Manager_update (userId : string) (onlyActive : bool) : Op unit
(* usersRepository *)
| UsersRepository_findOne (email : string) : Op (option User.t)
| UsersRepository_save (email name password role : string) : Op User.t
(* cacheManager *)
| CacheManager_get (key : string) : Op (option JsValue)
| CacheManager_set (key : string) (v : JsValue) (ttl : Z) : Op unit
| CacheManager_del (key : string) : Op unit
(* bcrypt *)
| Bcrypt_compare (data encrypted : string) : Op bool
| Bcrypt_hash (data : string) (rounds : Z) : Op string
(* jwtService *)
| JwtService_signAsync (payload : JwtPayload) (options : JwtSignOptions)
    : Op string.

(** [rollbackTransaction] and [release] are taken to resolve; every other
    awaited call may be rejected. *)
Definition fallible {X} (op : Op X) : bool :=
  match op with
  | QueryRunner_rollbackTransaction | QueryRunner_release => false
  | _ => true
  end.

(** ** Asynchronous methods as trees of awaited calls *)

Inductive Async (A : Type) : Type :=
| Return (a : A)
| Reject (e : Exception)
| Await {X : Type} (op : Op X) (k : Result X -> Async A).
Arguments Return {A} a.
Arguments Reject {A} e.
Arguments Await {A X} op k.

Definition await {X} (op : Op X) : Async X :=
  Await op (fun r => match r with Ok x => Return x | Throw e => Reject e end).

Fixpoint bind {A B} (p : Async A) (f : A -> Async B) : Async B :=
  match p with
  | Return a => f a
  | Reject e => Reject e
  | Await op k => Await op (fun r => bind (k r) f)
  end.

(** [try { body } catch (error) { handler error }] *)
Fixpoint try_catch {A} (body : Async A) (handler : Exception -> Async A)
  : Async A :=
  match body with
  | Return a => Return a
  | Reject e => handler e
  | Await op k => Await op (fun r => try_catch (k r) handler)
  end.

(** [... finally { cleanup }] around a body whose handlers are already
    applied. *)
Fixpoint finally {A} (body : Async A) (cleanup : Async unit) : Async A :=
  match body with
  | Return a => bind cleanup (fun _ => Return a)
  | Reject e => bind cleanup (fun _ => Reject e)
  | Await op k => Await op (fun r => finally (k r) cleanup)
  end.

Declare Scope async_scope.
Delimit Scope async_scope with async.
Notation "x <- p ;; q" := (bind p (fun x => q))
  (at level 100, p at next level, right associativity) : async_scope.
Notation "p ;; q" := (bind p (fun _ => q))
  (at level 100, right associativity) : async_scope.
Local Open Scope async_scope.

(** The collaborators injected into the service, and the declarations it
    reads from other modules: [UserRole.USER] and the value the [users]
    table gives [tokenVersion] on insertion. *)
Record Dependencies : Type := mkDependencies {
  jwtService : JwtService;
  configService : string -> option string;
  bcrypt_compare : string -> string -> bool;
  bcrypt_hash : string -> Z -> string;
  UserRole_USER : string;
  tokenVersion_default : option Z
}.

(** ** Requests as the controller sees them *)

(** [s.replace(pattern, replacement)] with a string pattern: the first
    occurrence, scanning from the left, is replaced; without one the string
    is returned as it is. *)
Fixpoint string_drop (n : nat) (s : string) : string :=
  match n, s with
  | O, _ => s
  | S n', String _ rest => string_drop n' rest
  | S _, EmptyString => EmptyString
  end.

Fixpoint replace_first (pattern replacement s : string) : string :=
  if String.prefix pattern s
  then replacement +:+ string_drop (String.length pattern) s
  else match s with
       | EmptyString => EmptyString
       | String c rest => String c (replace_first pattern replacement rest)
       end.

Record RefreshTokenDto : Type := mkRefreshTokenDto {
  dto_refreshToken : string
}.

(** What the controller reads of a request: the [Authorization] header and
    the subject the guard has put on [req.user]. *)
Record HttpRequest : Type := mkHttpRequest {
  authorization : option string;
  user_sub : string
}.

(** ** Collaborators and data for the worked scenarios *)

(** The claims of a payload, written out. *)
Definition render_payload (p : JwtPayload) : string :=
  match p with
  | AccessPayload sub email role tokenVersion =>
      "access:" +:+ sub +:+ ":" +:+ email +:+ ":" +:+ role +:+ ":"
      +:+ pretty tokenVersion
  | RefreshPayload sub type => type +:+ ":" +:+ sub
  end.

(** A stand-in for the signing library.  Like [jsonwebtoken], it stamps the
    issue time in whole seconds and signs deterministically, so that one
    payload signed twice with the same options within one second gives one
    and the same string. *)
Definition sign_per_second (payload : JwtPayload) (options : JwtSignOptions)
    (at_ms : Z) : string :=
  render_payload payload +:+ ".iat=" +:+ pretty (at_ms / 1000)
  +:+ ".expiresIn=" +:+ expiresIn options
  +:+ ".key=" +:+ default EmptyString (secret options).

(** Every token decodes to an expiry at second 2000. *)
Definition decode_fixed (token : string) : option JwtClaims :=
  Some (mkJwtClaims (Some 2000)).

Definition scenario_deps : Dependencies :=
  mkDependencies
    (mkJwtService sign_per_second decode_fixed)
    (fun _ => None)
    (fun data encrypted => String.eqb encrypted ("bcrypt(" +:+ data +:+ ")"))
    (fun data _ => "bcrypt(" +:+ data +:+ ")")
    "user"
    (Some 0).

Definition alice : User.t :=
  User.mk "u1" "alice@example.com" "Alice" "bcrypt(Str0ngPass!)" "user"
          (Some 0).

Definition alice_login : LoginDto :=
  mkLoginDto "alice@example.com" "Str0ngPass!".

(** A request at a clock reading, drawing the given identifier, with every
    awaited call going through. *)
Definition at_time (t : Z) (uuid : string) : Env :=
  mkEnv t uuid "u2" no_faults.

Definition world_alice : World := mkWorld [alice] [] ∅.

Definition old_row : RefreshToken.t :=
  RefreshToken.mk "r0" "old-token" "u1" 1000000000 true.

Definition world_old_token : World := mkWorld [alice] [old_row] ∅.

Definition world_blacklisted : World :=
  mkWorld [alice] [old_row]
    (cache_set ∅ 0 "blacklist:old-token" (JsBool true) 1000000000).

(** Both requests look the token up, then each runs to its end. *)
Definition racing_schedule : list bool :=
  [true; true; true; false; false; false;
   true; true; true; true; true; true; true;
   false; false; false; false; false; false; false].

(** One request runs to its end, then the other. *)
Definition serial_schedule : list bool :=
  [true; true; true; true; true; true; true; true; true; true;
   false; false; false; false; false].

(** The environment in which the [k]-th awaited call of a request is
    rejected with [e] and every other one goes through. *)
Definition fail_at (k : nat) (e : Exception) : nat -> option Exception :=
  fun n => if Nat.eqb n k then Some e else None.

Definition bob_registration : CreateUserDto :=
  mkCreateUserDto "bob@example.com" "Bob" "S3cret!pass" None.

Definition bob : User.t :=
  User.mk "u2" "bob@example.com" "Bob" "bcrypt(S3cret!pass)" "user" (Some 0).

Definition carol : User.t :=
  User.mk "u3" "carol@example.com" "Carol" "bcrypt(pw)" "admin" (Some 7).

Definition carol_row : RefreshToken.t :=
  RefreshToken.mk "r1" "carol-token" "u3" 1000000000 true.

Definition spent_row : RefreshToken.t :=
  RefreshToken.mk "r2" "spent-token" "u1" 1000000000 false.

Definition world_two_users : World :=
  mkWorld [alice; carol] [old_row; carol_row; spent_row] ∅.


(** Alice with [k] failed attempts counted at time 0. *)
Definition world_attempts (k : Z) : World :=
  mkWorld [alice] []
    (cache_set ∅ 0 "attempts:alice@example.com" (JsNumber k) 900000).

(** Carol cached under [user:u3] at time 0, for five minutes. *)
Definition world_carol_cached : World :=
  mkWorld [] [] (cache_set ∅ 0 "user:u3" (JsUser carol) 300000).

Definition world_registered : World := mkWorld [alice; bob] [] ∅.

Definition world_empty : World := mkWorld [] [] ∅.

Section AuthService.

Variable deps : Dependencies.

Definition MAX_LOGIN_ATTEMPTS : Z := 5.
Definition LOCKOUT_DURATION : Z := 15 * 60 * 1000.
Definition SALT_ROUNDS : Z := 10.

(** *** What an awaited call does to the world and to the caller's
    query runner *)

Definition perform {X} (env : Env) (op : Op X) (w : World)
    (qr : option (list RefreshToken.t))
  : X * World * option (list RefreshToken.t) :=
  match op in Op X return X * World * option (list RefreshToken.t) with
  | QueryRunner_connect => (tt, w, qr)
  | QueryRunner_startTransaction => (tt, w, Some [])
  | QueryRunner_commitTransaction =>
      (tt, mkWorld (users w) (view (refresh_tokens w) qr) (cache w), None)
  | QueryRunner_rollbackTransaction => (tt, w, None)
  | QueryRunner_release => (tt, w, None)
  | QueryRunner_findOne tok =>
      (match findOne tok (view (refresh_tokens w) qr) with
       | Some r => Some (r, find_user_by_id (RefreshToken.userId r) (users w))
       | None => None
       end, w, qr)
  | QueryRunner_save r =>
      match qr with
      | Some pending => (tt, w, Some (pending ++ [r])%list)
      | None =>
          (tt, mkWorld (users w) (save r (refresh_tokens w)) (cache w), None)
      end
  | Manager_update uid onlyActive =>
      (tt, mkWorld (users w)
             (update_inactive uid onlyActive (refresh_tokens w)) (cache w),
       qr)
  | UsersRepository_findOne e =>
      (match find_user_by_email e (users w) with
       | Some u => Some (select_for_auth u)
       | None => None
       end, w, qr)
  | UsersRepository_save e n p r =>
      let u := User.mk (generated_user_id env) e n p r
                       (tokenVersion_default deps) in
      (u, mkWorld (users w ++ [u])%list (refresh_tokens w) (cache w), qr)
  | CacheManager_get key => (cache_get (cache w) (now env) key, w, qr)
  | CacheManager_set key v ttl =>
      (tt, mkWorld (users w) (refresh_tokens w)
             (cache_set (cache w) (now env) key v ttl), qr)
  | CacheManager_del key =>
      (tt, mkWorld (users w) (refresh_tokens w) (cache_del (cache w) key), qr)
  | Bcrypt_compare data encrypted => (bcrypt_compare deps data encrypted, w, qr)
  | Bcrypt_hash data rounds => (bcrypt_hash deps data rounds, w, qr)
  | JwtService_signAsync payload options =>
      (signAsync (jwtService deps) payload options (now env), w, qr)
  end.

(** The state of one request in flight. *)
Record Request (A : Type) : Type := mkRequest {
  continuation : Async A;
  queryRunner : option (list RefreshToken.t);
  awaited : nat
}.
Arguments mkRequest {A} _ _ _.
Arguments continuation {A} _.
Arguments queryRunner {A} _.
Arguments awaited {A} _.

(** One awaited call of a request: rejected when the environment says
    so, performed otherwise; the continuation resumes with the outcome. *)
Definition step {A} (env : Env) (rq : Request A) (w : World)
  : Request A * World :=
  match continuation rq with
  | Await op k =>
      match (if fallible op then faults env (awaited rq) else None) with
      | Some e => (mkRequest (k (Throw e)) (queryRunner rq) (S (awaited rq)), w)
      | None =>
          let '(x, w', qr') := perform env op w (queryRunner rq) in
          (mkRequest (k (Ok x)) qr' (S (awaited rq)), w')
      end
  | _ => (rq, w)
  end.

Definition outcome {A} (rq : Request A) : option (Result A) :=
  match continuation rq with
  | Return a => Some (Ok a)
  | Reject e => Some (Throw e)
  | Await _ _ => None
  end.

(** A request run to completion with no other request in between. *)
Fixpoint exec {A} (env : Env) (p : Async A) (w : World)
    (qr : option (list RefreshToken.t)) (n : nat) : Result A * World :=
  match p with
  | Return a => (Ok a, w)
  | Reject e => (Throw e, w)
  | Await op k =>
      match (if fallible op then faults env n else None) with
      | Some e => exec env (k (Throw e)) w qr (S n)
      | None =>
          let '(x, w', qr') := perform env op w qr in
          exec env (k (Ok x)) w' qr' (S n)
      end
  end.

Definition run {A} (env : Env) (p : Async A) (w : World) : Result A * World :=
  exec env p w None 0%nat.

(** Two requests interleaved at their awaits: [true] lets the first one
    take a step, [false] the second. *)
Fixpoint interleave {A B} (enva envb : Env) (schedule : list bool)
    (a : Request A) (b : Request B) (w : World)
  : Request A * Request B * World :=
  match schedule with
  | [] => (a, b, w)
  | true :: rest =>
      let '(a', w') := step enva a w in interleave enva envb rest a' b w'
  | false :: rest =>
      let '(b', w') := step envb b w in interleave enva envb rest a b' w'
  end.

Definition start {A} (p : Async A) : Request A := mkRequest p None 0%nat.

(** *** UsersService *)

Definition includes (s sub : string) : bool :=
  match String.index 0 sub s with Some _ => true | None => false end.

Definition UsersService_findByEmail (email : string)
  : Async (option User.t) :=
  try_catch (await (UsersRepository_findOne email))
    (fun _ => Reject (BadRequestException "Failed to fetch user by email")).

Definition UsersService_create (createUserDto : CreateUserDto)
  : Async User.t :=
  existingUser <- UsersService_findByEmail (dto_email createUserDto) ;;
  match existingUser with
  | Some _ =>
      Reject (ConflictException
                ("User with email " +:+ dto_email createUserDto
                 +:+ " already exists"))
  | None =>
      try_catch
        (hashedPassword <-
           await (Bcrypt_hash (dto_password createUserDto) SALT_ROUNDS) ;;
         savedUser <-
           await (UsersRepository_save
                    (dto_email createUserDto) (dto_name createUserDto)
                    hashedPassword
                    (match dto_role createUserDto with
                     | Some r => if String.eqb r EmptyString then UserRole_USER deps else r
                     | None => UserRole_USER deps
                     end)) ;;
         Return savedUser)
        (fun error =>
           match error with
           | QueryFailedError message =>
               if includes message "unique constraint"
               then Reject (ConflictException "Email already exists")
               else Reject (BadRequestException "Failed to create user")
           | _ => Reject (BadRequestException "Failed to create user")
           end)
  end.

(** *** AuthService: private helpers *)

(** The two signatures of [Promise.all] are awaited one after the other. *)
Definition generateTokenPair (user : User.t) : Async TokenPair :=
  let jwtPayload :=
    AccessPayload (User.id user) (User.email user) (User.role user)
                  (default 0 (User.tokenVersion user)) in
  accessToken <-
    await (JwtService_signAsync jwtPayload
             (mkJwtSignOptions
                (configService deps "JWT_ACCESS_SECRET")
                (default "15m" (configService deps "JWT_ACCESS_EXPIRATION")))) ;;
  refreshToken <-
    await (JwtService_signAsync (RefreshPayload (User.id user) "refresh")
             (mkJwtSignOptions
                (configService deps "JWT_REFRESH_SECRET")
                (default "7d" (configService deps "JWT_REFRESH_EXPIRATION")))) ;;
  Return (mkTokenPair accessToken refreshToken).

Definition storeRefreshToken (env : Env) (userId token : string)
  : Async unit :=
  let refreshToken :=
    RefreshToken.mk (uuidv4 env) token userId
                    (now env + 7 * 24 * 60 * 60 * 1000) true in
  await (QueryRunner_save refreshToken).

Definition verifyPassword (plainPassword hashedPassword : string)
  : Async bool :=
  await (Bcrypt_compare plainPassword hashedPassword).

Definition simulatePasswordCheck : Async unit :=
  await (Bcrypt_compare "dummy" "$2b$10$dummy.hash.to.prevent.timing.attacks") ;;
  Return tt.

Definition checkUserLockout (email : string) : Async unit :=
  let lockoutKey := "lockout:" +:+ email in
  lockoutData <- await (CacheManager_get lockoutKey) ;;
  if truthy lockoutData
  then Reject (UnauthorizedException
                 "Account temporarily locked due to too many failed attempts")
  else Return tt.

Definition recordFailedAttempt (email : string) : Async unit :=
  let attemptsKey := "attempts:" +:+ email in
  stored <- await (CacheManager_get attemptsKey) ;;
  let attempts := number_or_zero stored in
  let newAttempts := attempts + 1 in
  if MAX_LOGIN_ATTEMPTS <=? newAttempts
  then
    await (CacheManager_set ("lockout:" +:+ email) (JsBool true)
                            LOCKOUT_DURATION) ;;
    await (CacheManager_del attemptsKey)
  else
    await (CacheManager_set attemptsKey (JsNumber newAttempts)
                            LOCKOUT_DURATION).

Definition clearFailedAttempts (email : string) : Async unit :=
  await (CacheManager_del ("attempts:" +:+ email)).

Definition summary (u : User.t) : UserSummary :=
  mkUserSummary (User.id u) (User.email u) (User.name u) (User.role u).

(** *** AuthService: public methods *)

Definition login (env : Env) (loginDto : LoginDto) : Async AuthResponseDto :=
  let email := login_email loginDto in
  let password := login_password loginDto in
  checkUserLockout email ;;
  await QueryRunner_connect ;;
  await QueryRunner_startTransaction ;;
  finally
    (try_catch
       (found <- UsersService_findByEmail email ;;
        match found with
        | None =>
            simulatePasswordCheck ;;
            recordFailedAttempt email ;;
            Reject (UnauthorizedException "Invalid credentials")
        | Some user =>
            isPasswordValid <- verifyPassword password (User.password user) ;;
            if negb isPasswordValid
            then
              recordFailedAttempt email ;;
              Reject (UnauthorizedException "Invalid credentials")
            else
              clearFailedAttempts email ;;
              tokens <- generateTokenPair user ;;
              storeRefreshToken env (User.id user)
                                (pair_refreshToken tokens) ;;
              await QueryRunner_commitTransaction ;;
              Return (mkAuthResponseDto (pair_accessToken tokens)
                                        (pair_refreshToken tokens)
                                        (summary user))
        end)
       (fun error => await QueryRunner_rollbackTransaction ;; Reject error))
    (await QueryRunner_release).

Definition register (env : Env) (registerDto : CreateUserDto)
  : Async AuthResponseDto :=
  await QueryRunner_connect ;;
  await QueryRunner_startTransaction ;;
  finally
    (try_catch
       (existingUser <- UsersService_findByEmail (dto_email registerDto) ;;
        match existingUser with
        | Some _ =>
            Reject (BadRequestException "User with this email already exists")
        | None =>
            user <- UsersService_create registerDto ;;
            tokens <- generateTokenPair user ;;
            storeRefreshToken env (User.id user) (pair_refreshToken tokens) ;;
            await QueryRunner_commitTransaction ;;
            Return (mkAuthResponseDto (pair_accessToken tokens)
                                      (pair_refreshToken tokens)
                                      (summary user))
        end)
       (fun error => await QueryRunner_rollbackTransaction ;; Reject error))
    (await QueryRunner_release).

Definition refreshTokens (env : Env) (refreshToken : string)
  : Async AuthResponseDto :=
  await QueryRunner_connect ;;
  await QueryRunner_startTransaction ;;
  finally
    (try_catch
       (storedToken <- await (QueryRunner_findOne refreshToken) ;;
        match storedToken with
        | None => Reject (UnauthorizedException "Invalid refresh token")
        | Some (row, joined) =>
            if RefreshToken.expiresAt row <? now env
            then Reject (UnauthorizedException "Invalid refresh token")
            else
              isBlacklisted <-
                await (CacheManager_get ("blacklist:" +:+ refreshToken)) ;;
              if truthy isBlacklisted
              then Reject (UnauthorizedException "Token has been revoked")
              else
                await (QueryRunner_save (RefreshToken.deactivate row)) ;;
                match joined with
                | None =>
                    Reject (TypeError
                              "Cannot read properties of null (reading 'id')")
                | Some user =>
                    tokens <- generateTokenPair user ;;
                    storeRefreshToken env (User.id user)
                                      (pair_refreshToken tokens) ;;
                    await QueryRunner_commitTransaction ;;
                    Return (mkAuthResponseDto (pair_accessToken tokens)
                                              (pair_refreshToken tokens)
                                              (summary user))
                end
        end)
       (fun error => await QueryRunner_rollbackTransaction ;; Reject error))
    (await QueryRunner_release).

Definition logout (env : Env) (accessToken userId : string) : Async unit :=
  let decoded := decode (jwtService deps) accessToken in
  match decoded with
  | Some (mkJwtClaims (Some e)) =>
      if negb (e =? 0)
      then
        let ttl := e - now env / 1000 in
        if 0 <? ttl
        then await (CacheManager_set ("blacklist:" +:+ accessToken)
                                     (JsBool true) (ttl * 1000))
        else Return tt
      else Return tt
  | _ => Return tt
  end ;;
  await (Manager_update userId true).

Definition revokeAllRefreshTokens (userId : string) : Async unit :=
  await (Manager_update userId false).

Definition validateUser (userId : string) : Async (option JsValue) :=
  let cacheKey := "user:" +:+ userId in
  cached <- await (CacheManager_get cacheKey) ;;
  (if negb (truthy cached)
   then
     (* user = await this.usersService.findOneSecure(userId); *)
     match cached with
     | Some v =>
         if truthy cached
         then await (CacheManager_set cacheKey v 300000)
         else Return tt
     | None => Return tt
     end
   else Return tt) ;;
  Return cached.

Definition role_of (v : option JsValue) : option string :=
  match v with
  | Some (JsUser u) => Some (User.role u)
  | _ => None
  end.

Definition validateUserRoles (userId : string) (requiredRoles : list string)
  : Async bool :=
  found <- validateUser userId ;;
  if negb (truthy found)
  then Return false
  else
    Return (match role_of found with
            | Some r => existsb (String.eqb r) requiredRoles
            | None => false
            end).

(** *** Sequences of login attempts for one identity *)

Fixpoint run_logins (email : string) (attempts : list (Env * string))
    (w : World) : World :=
  match attempts with
  | [] => w
  | (env, password) :: rest =>
      run_logins email rest
        (snd (run env (login env (mkLoginDto email password)) w))
  end.

(** The credentials are refused: no such user, or the password does not
    match the stored hash. *)
Definition bad_credentials (us : list User.t) (email password : string)
  : bool :=
  match find_user_by_email email us with
  | Some u => negb (bcrypt_compare deps password (User.password u))
  | None => true
  end.

(** Every attempt comes no earlier than the previous one and while the
    count left by the previous one is still cached. *)
Fixpoint within_window (previous : Z) (attempts : list (Env * string))
  : Prop :=
  match attempts with
  | [] => True
  | (env, _) :: rest =>
      previous <= now env /\ now env <= previous + LOCKOUT_DURATION /\
      within_window (now env) rest
  end.

Definition last_attempt (first : Z) (attempts : list (Env * string)) : Z :=
  fold_left (fun _ a => now (fst a)) attempts first.

(** *** The exceptions of the taxonomy *)

Definition invalid_refresh_token : Exception :=
  UnauthorizedException "Invalid refresh token".

Definition invalid_credentials : Exception :=
  UnauthorizedException "Invalid credentials".

Definition account_locked : Exception :=
  UnauthorizedException
    "Account temporarily locked due to too many failed attempts".

(** The refresh token issued to a user at a clock reading. *)
Definition refreshToken_for (user : User.t) (at_ms : Z) : string :=
  signAsync (jwtService deps) (RefreshPayload (User.id user) "refresh")
    (mkJwtSignOptions
       (configService deps "JWT_REFRESH_SECRET")
       (default "7d" (configService deps "JWT_REFRESH_EXPIRATION")))
    at_ms.

(** *** Requests stepped on their own *)

(** [k] steps of one request with no other request in between. *)
Fixpoint solo {A} (env : Env) (k : nat) (rq : Request A) (w : World)
  : Request A * World :=
  match k with
  | O => (rq, w)
  | S k' => let '(rq', w') := step env rq w in solo env k' rq' w'
  end.

(** A [refreshTokens] request [k] awaits into a run of its own that
    started in world [w]. *)
Definition progress (env : Env) (t : string) (w : World) (k : nat)
  : Request AuthResponseDto :=
  fst (solo env k (start (refreshTokens env t)) w).

(** The world in which a [refreshTokens] request that started in [w] has
    run on its own through its commit (its ninth await). *)
Definition rotated (env : Env) (t : string) (w : World) : World :=
  snd (solo env 9 (start (refreshTokens env t)) w).

(** How many steps a schedule gives to a request. *)
Fixpoint steps_of (who : bool) (schedule : list bool) : nat :=
  match schedule with
  | [] => O
  | b :: rest =>
      if Bool.eqb b who then S (steps_of who rest) else steps_of who rest
  end.

(** *** AuthController *)

Definition AuthController_login (env : Env) (loginDto : LoginDto)
  : Async AuthResponseDto :=
  login env loginDto.

Definition AuthController_register (env : Env) (registerDto : CreateUserDto)
  : Async AuthResponseDto :=
  register env registerDto.

Definition AuthController_refresh (env : Env)
    (refreshTokenDto : RefreshTokenDto) : Async AuthResponseDto :=
  refreshTokens env (dto_refreshToken refreshTokenDto).

(** Without the header the token is [undefined], which decodes to [null]:
    nothing is blacklisted and the rows are deactivated all the same. *)
Definition AuthController_logout (env : Env) (req : HttpRequest)
  : Async string :=
  match authorization req with
  | Some header =>
      logout env (replace_first "Bearer " EmptyString header) (user_sub req)
  | None => await (Manager_update (user_sub req) true)
  end ;;
  Return "Logout successful".

Definition AuthController_revokeAllRefreshTokens (req : HttpRequest)
  : Async string :=
  revokeAllRefreshTokens (user_sub req) ;;
  Return "All refresh tokens have been revoked".

(** *** Vocabulary of the further properties *)

(** Every row of [rows] is still there in [rows'], by its primary key. *)
Definition ids_kept (rows rows' : list RefreshToken.t) : Prop :=
  forall r, In r rows ->
            exists r', In r' rows' /\ RefreshToken.id r' = RefreshToken.id r.

(** The access token issued to a user at a clock reading, carrying the
    given token version. *)
Definition accessToken_for (user : User.t) (version : Z) (at_ms : Z)
  : string :=
  signAsync (jwtService deps)
    (AccessPayload (User.id user) (User.email user) (User.role user) version)
    (mkJwtSignOptions
       (configService deps "JWT_ACCESS_SECRET")
       (default "15m" (configService deps "JWT_ACCESS_EXPIRATION")))
    at_ms.

(** The row stored for a refresh token at a clock reading. *)
Definition stored_row (env : Env) (userId token : string) : RefreshToken.t :=
  RefreshToken.mk (uuidv4 env) token userId
                  (now env + 7 * 24 * 60 * 60 * 1000) true.

(** The user that [UsersService.create] inserts for a registration. *)
Definition created_user (env : Env) (dto : CreateUserDto) : User.t :=
  User.mk (generated_user_id env) (dto_email dto) (dto_name dto)
          (bcrypt_hash deps (dto_password dto) SALT_ROUNDS)
          (match dto_role dto with
           | Some r => if String.eqb r EmptyString then UserRole_USER deps else r
           | None => UserRole_USER deps
           end)
          (tokenVersion_default deps).

(** The decoded token has no expiry ahead of the clock reading. *)
Definition no_lifetime_left (decoded : option JwtClaims) (at_ms : Z) : bool :=
  match decoded with
  | Some (mkJwtClaims (Some e)) => (e =? 0) || negb (0 <? e - at_ms / 1000)
  | _ => true
  end.

(** The methods of the service, as calls on a world. *)
Inductive service_call : Type :=
| call_login (dto : LoginDto)
| call_register (dto : CreateUserDto)
| call_refreshTokens (t : string)
| call_logout (accessToken userId : string)
| call_revokeAllRefreshTokens (userId : string).

Definition world_after (env : Env) (call : service_call) (w : World) : World :=
  match call with
  | call_login dto => snd (run env (login env dto) w)
  | call_register dto => snd (run env (register env dto) w)
  | call_refreshTokens t => snd (run env (refreshTokens env t) w)
  | call_logout a u => snd (run env (logout env a u) w)
  | call_revokeAllRefreshTokens u => snd (run env (revokeAllRefreshTokens u) w)
  end.

(** The table after a method is the table before it with some rows saved
    or some rows deactivated. *)
Inductive table_step (rows : list RefreshToken.t)
  : list RefreshToken.t -> Prop :=
| table_same : table_step rows rows
| table_saved r : table_step rows (save r rows)
| table_rotated r r' : table_step rows (save r' (save r rows))
| table_updated uid b : table_step rows (update_inactive uid b rows).

(** The awaited calls of a request run on its own, by name and in
    order. *)
Definition op_name {X} (op : Op X) : string :=
  match op with
  | QueryRunner_connect => "queryRunner.connect"
  | QueryRunner_startTransaction => "queryRunner.startTransaction"
  | QueryRunner_commitTransaction => "queryRunner.commitTransaction"
  | QueryRunner_rollbackTransaction => "queryRunner.rollbackTransaction"
  | QueryRunner_release => "queryRunner.release"
  | QueryRunner_findOne _ => "queryRunner.manager.findOne"
  | QueryRunner_save _ => "queryRunner.manager.save"
  | Manager_update _ _ => "dataSource.manager.update"
  | UsersRepository_findOne _ => "usersRepository.findOne"
  | UsersRepository_save _ _ _ _ => "usersRepository.save"
  | CacheManager_get _ => "cacheManager.get"
  | CacheManager_set _ _ _ => "cacheManager.set"
  | CacheManager_del _ => "cacheManager.del"
  | Bcrypt_compare _ _ => "bcrypt.compare"
  | Bcrypt_hash _ _ => "bcrypt.hash"
  | JwtService_signAsync _ _ => "jwtService.signAsync"
  end.

Fixpoint calls {A} (env : Env) (p : Async A) (w : World)
    (qr : option (list RefreshToken.t)) (n : nat) : list string :=
  match p with
  | Await op k =>
      op_name op ::
      match (if fallible op then faults env n else None) with
      | Some e => calls env (k (Throw e)) w qr (S n)
      | None =>
          let '(x, w', qr') := perform env op w qr in
          calls env (k (Ok x)) w' qr' (S n)
      end
  | _ => []
  end.

(** ** Properties *)

Arguments cache_get : simpl never.
Arguments cache_set : simpl never.
Arguments cache_del : simpl never.
Arguments findOne : simpl never.
Arguments save : simpl never.
Arguments update_inactive : simpl never.
Arguments find_user_by_id : simpl never.
Arguments find_user_by_email : simpl never.
Arguments active_rows : simpl never.

(** Symbolic execution of a run recorded in hypothesis [H]: every awaited
    call either is rejected or goes through, every test goes one way or
    the other; the branches that contradict [H] are closed. *)
Ltac run_cases H :=
  repeat (cbn in H;
          match type of H with
          | context [faults ?env ?n] => destruct (faults env n) eqn:?
          | context [match ?x with _ => _ end] => destruct x eqn:?
          | context [if ?x then _ else _] => destruct x eqn:?
          end);
  cbn in H; try discriminate H.

(** The same on the goal. *)
Ltac run_goal :=
  repeat (cbn;
          match goal with
          | |- context [faults ?env ?n] => destruct (faults env n) eqn:?
          | |- context [match ?x with _ => _ end] => destruct x eqn:?
          | |- context [if ?x then _ else _] => destruct x eqn:?
          end);
  cbn.

(** *** The table *)

Lemma smallest_key_In rows r : smallest_key rows = Some r -> In r rows.
Proof.
  revert r. induction rows as [|x rows IH]; intros r; cbn; [discriminate|].
  destruct (smallest_key rows) as [m|].
  - destruct (String.ltb (RefreshToken.id m) (RefreshToken.id x));
      intros [= <-]; auto.
  - intros [= <-]. auto.
Qed.

Lemma smallest_key_None rows : smallest_key rows = None -> rows = [].
Proof.
  destruct rows as [|x rows]; cbn; [reflexivity|].
  destruct (smallest_key rows) as [m|]; [|discriminate].
  destruct (String.ltb (RefreshToken.id m) (RefreshToken.id x)); discriminate.
Qed.

Lemma findOne_active_rows tok rows :
  findOne tok rows = smallest_key (active_rows tok rows).
Proof. reflexivity. Qed.

Lemma findOne_Some tok rows r :
  findOne tok rows = Some r ->
  In r rows /\ RefreshToken.token r = tok /\ RefreshToken.isActive r = true.
Proof.
  unfold findOne. intros H. apply smallest_key_In, filter_In in H as [Hin Hp].
  apply andb_true_iff in Hp as [Ht Ha]. apply String.eqb_eq in Ht. auto.
Qed.

Lemma findOne_None tok rows :
  (forall r, In r rows -> RefreshToken.token r = tok ->
             RefreshToken.isActive r = false) ->
  findOne tok rows = None.
Proof.
  intros H.
  destruct (findOne tok rows) as [r|] eqn:E; [|reflexivity].
  apply findOne_Some in E as (Hin & Ht & Ha).
  rewrite (H r Hin Ht) in Ha. discriminate.
Qed.

Lemma findOne_None_inv tok rows :
  findOne tok rows = None ->
  forall r, In r rows -> RefreshToken.token r = tok ->
            RefreshToken.isActive r = false.
Proof.
  unfold findOne. intros H r Hin Ht. apply smallest_key_None in H.
  destruct (RefreshToken.isActive r) eqn:Ha; [|reflexivity].
  assert (Hf : In r (List.filter
              (fun r => String.eqb (RefreshToken.token r) tok
                        && RefreshToken.isActive r) rows)).
  { apply filter_In. split; [exact Hin|].
    rewrite Ha, andb_true_r. apply String.eqb_eq. exact Ht. }
  rewrite H in Hf. destruct Hf.
Qed.

Lemma save_In r rows : In r (save r rows).
Proof.
  unfold save.
  destruct (existsb _ rows) eqn:E.
  - apply existsb_exists in E as [x [Hx Hid]].
    apply in_map_iff. exists x. rewrite Hid. auto.
  - apply in_or_app. right. left. reflexivity.
Qed.

Lemma save_In_inv r rows x :
  In x (save r rows) ->
  x = r \/ (In x rows /\ RefreshToken.id x <> RefreshToken.id r).
Proof.
  unfold save.
  destruct (existsb _ rows) eqn:E.
  - intros H. apply in_map_iff in H as [y [Hy Hin]].
    destruct (String.eqb_spec (RefreshToken.id y) (RefreshToken.id r));
      subst; auto.
  - intros H. apply in_app_or in H as [H|[H|[]]]; auto.
    right. split; [exact H|]. intros Hid.
    assert (Hex : existsb (fun y => String.eqb (RefreshToken.id y)
                                      (RefreshToken.id r)) rows = true).
    { apply existsb_exists. exists x. split; [exact H|].
      apply String.eqb_eq. exact Hid. }
    rewrite Hex in E. discriminate.
Qed.

Lemma save_keeps r rows x :
  In x rows -> RefreshToken.id x <> RefreshToken.id r -> In x (save r rows).
Proof.
  unfold save. intros Hin Hne.
  destruct (existsb _ rows).
  - apply in_map_iff. exists x. split; [|exact Hin].
    destruct (String.eqb_spec (RefreshToken.id x) (RefreshToken.id r));
      [contradiction | reflexivity].
  - apply in_or_app. left. exact Hin.
Qed.

Lemma active_rows_nil tok rows :
  active_rows tok rows = [] <->
  (forall r, In r rows -> RefreshToken.token r = tok ->
             RefreshToken.isActive r = false).
Proof.
  unfold active_rows. split.
  - intros H r Hin Ht.
    destruct (RefreshToken.isActive r) eqn:Ha; [|reflexivity].
    assert (Hf : In r (List.filter
                (fun r => String.eqb (RefreshToken.token r) tok
                          && RefreshToken.isActive r) rows)).
    { apply filter_In. split; [exact Hin|].
      rewrite Ha, andb_true_r. apply String.eqb_eq. exact Ht. }
    rewrite H in Hf. destruct Hf.
  - intros H. induction rows as [|r rows IH]; cbn; [reflexivity|].
    destruct (String.eqb_spec (RefreshToken.token r) tok) as [Ht|Ht]; cbn.
    + rewrite (H r (or_introl eq_refl) Ht).
      apply IH. intros x Hx. apply H. right. exact Hx.
    + apply IH. intros x Hx. apply H. right. exact Hx.
Qed.

Lemma at_most_one {A} (l : list A) (a b : A) :
  (length l <= 1)%nat -> In a l -> In b l -> a = b.
Proof.
  destruct l as [|x [|y l]]; cbn; intros Hlen Ha Hb.
  - destruct Ha.
  - destruct Ha as [<-|[]], Hb as [<-|[]]. reflexivity.
  - lia.
Qed.

Lemma active_rows_In tok rows r :
  In r (active_rows tok rows) <->
  In r rows /\ RefreshToken.token r = tok /\ RefreshToken.isActive r = true.
Proof.
  unfold active_rows. rewrite filter_In, andb_true_iff, String.eqb_eq.
  reflexivity.
Qed.

(** Saving the deactivated copy of the only active row of a token leaves
    the token without an active row. *)
Lemma deactivate_consumes tok rows row :
  findOne tok rows = Some row ->
  (length (active_rows tok rows) <= 1)%nat ->
  active_rows tok (save (RefreshToken.deactivate row) rows) = [].
Proof.
  intros Hfind Hone. apply active_rows_nil. intros x Hx Htok.
  apply save_In_inv in Hx as [->|[Hin Hid]]; [reflexivity|].
  destruct (RefreshToken.isActive x) eqn:Ha; [|reflexivity].
  exfalso. apply Hid.
  apply findOne_Some in Hfind as (Hrow & Hrt & Hra).
  assert (x = row) as ->.
  { apply (at_most_one (active_rows tok rows)); [exact Hone| |];
      apply active_rows_In; auto. }
  reflexivity.
Qed.

(** Saving a row of another token changes nothing for this token. *)
Lemma save_other_token tok rows r :
  RefreshToken.token r <> tok ->
  active_rows tok rows = [] ->
  active_rows tok (save r rows) = [].
Proof.
  intros Hne Hnil. apply active_rows_nil. intros x Hx Htok.
  apply save_In_inv in Hx as [->|[Hin _]]; [contradiction|].
  apply (proj1 (active_rows_nil tok rows) Hnil x Hin Htok).
Qed.

Lemma findOne_no_active tok rows :
  active_rows tok rows = [] -> findOne tok rows = None.
Proof. intros H. rewrite findOne_active_rows, H. reflexivity. Qed.

Lemma update_inactive_In uid rows x :
  In x (update_inactive uid true rows) ->
  (exists y, In y rows /\ RefreshToken.token x = RefreshToken.token y /\
             RefreshToken.userId x = RefreshToken.userId y) /\
  (RefreshToken.userId x = uid -> RefreshToken.isActive x = false).
Proof.
  unfold update_inactive. intros H.
  apply in_map_iff in H as [y [Hy Hin]].
  destruct (String.eqb_spec (RefreshToken.userId y) uid) as [Hu|Hu];
    cbn in Hy.
  - destruct (RefreshToken.isActive y) eqn:Ha; subst x; cbn;
      (split; [exists y; auto | auto]).
  - subst x. split; [exists y; auto | intros; contradiction].
Qed.

Lemma cache_get_set_eq (c : gmap string CacheEntry) t0 key v ttl t :
  cache_get (cache_set c t0 key v ttl) t key =
  if t <=? t0 + ttl then Some v else None.
Proof. unfold cache_get, cache_set. rewrite lookup_insert_eq. reflexivity. Qed.

Lemma cache_get_set_ne (c : gmap string CacheEntry) t0 key key' v ttl t :
  key <> key' ->
  cache_get (cache_set c t0 key v ttl) t key' = cache_get c t key'.
Proof.
  unfold cache_get, cache_set. intros H. rewrite lookup_insert_ne by exact H.
  reflexivity.
Qed.

Lemma lockout_attempts_keys email :
  "lockout:" +:+ email <> "attempts:" +:+ email.
Proof. cbn. discriminate. Qed.

Lemma attempts_lockout_keys email :
  "attempts:" +:+ email <> "lockout:" +:+ email.
Proof. cbn. discriminate. Qed.

(** A key that reads falsy keeps reading falsy as time passes. *)
Lemma falsy_later (c : gmap string CacheEntry) key t t' :
  t <= t' ->
  truthy (cache_get c t key) = false ->
  truthy (cache_get c t' key) = false.
Proof.
  unfold cache_get. intros Hle.
  destruct (c !! key) as [e|]; [|reflexivity].
  destruct (Z.leb_spec t (entry_expiry e)), (Z.leb_spec t' (entry_expiry e));
    cbn; auto; lia.
Qed.

(** *** Refresh-token rotation *)

Lemma refreshTokens_inv env t w resp w' :
  run env (refreshTokens env t) w = (Ok resp, w') ->
  exists row u,
    findOne t (refresh_tokens w) = Some row /\
    find_user_by_id (RefreshToken.userId row) (users w) = Some u /\
    (RefreshToken.expiresAt row <? now env) = false /\
    truthy (cache_get (cache w) (now env) ("blacklist:" +:+ t)) = false /\
    summary_id (user resp) = User.id u /\
    refreshToken resp =
      signAsync (jwtService deps) (RefreshPayload (User.id u) "refresh")
        (mkJwtSignOptions
           (configService deps "JWT_REFRESH_SECRET")
           (default "7d" (configService deps "JWT_REFRESH_EXPIRATION")))
        (now env) /\
    w' = mkWorld (users w)
           (save (RefreshToken.mk (uuidv4 env) (refreshToken resp)
                    (User.id u) (now env + 7 * 24 * 60 * 60 * 1000) true)
                 (save (RefreshToken.deactivate row) (refresh_tokens w)))
           (cache w).
Proof.
  unfold run, refreshTokens. intros H. run_cases H.
  injection H as <- <-. subst.
  match goal with
  | E : match findOne _ _ with _ => _ end = Some _ |- _ =>
      destruct (findOne t (refresh_tokens w)) as [row|] eqn:Hf;
        [injection E as E1 E2 | discriminate E]
  end.
  subst. do 2 eexists. cbn.
  split; [reflexivity|]. split; [eassumption|]. repeat split; assumption.
Qed.

(** Without an active row for the token the call fails, whatever the
    environment does; undisturbed, it fails as an invalid token. *)
Lemma refreshTokens_no_active env t w :
  findOne t (refresh_tokens w) = None ->
  succeeded (fst (run env (refreshTokens env t) w)) = false /\
  snd (run env (refreshTokens env t) w) = w /\
  ((forall n, faults env n = None) ->
   fst (run env (refreshTokens env t) w) = Throw invalid_refresh_token).
Proof.
  unfold run, refreshTokens. intros Hf. destruct w as [us rts c]. cbn in *.
  destruct (faults env 0) eqn:F0; cbn;
    [repeat split; try reflexivity; intros Hn; rewrite Hn in F0; discriminate|].
  destruct (faults env 1) eqn:F1; cbn;
    [repeat split; try reflexivity; intros Hn; rewrite Hn in F1; discriminate|].
  destruct (faults env 2) eqn:F2; cbn;
    [repeat split; try reflexivity; intros Hn; rewrite Hn in F2; discriminate|].
  rewrite Hf. cbn. repeat split; reflexivity.
Qed.

(** C1 (amended).  Single-use rotation, one request after the other: when
    the token [t] is carried by at most one active row, [refreshTokens t]
    succeeds, and the replacement refresh token it returns differs from
    [t], then the first call has left no active row for [t], and a later
    [refreshTokens t] cannot succeed in any environment; undisturbed by
    its collaborators it fails with
    [UnauthorizedException "Invalid refresh token"] and changes nothing. *)
Theorem refresh_single_use env1 env2 t w resp w1 :
  (length (active_rows t (refresh_tokens w)) <= 1)%nat ->
  run env1 (refreshTokens env1 t) w = (Ok resp, w1) ->
  refreshToken resp <> t ->
  active_rows t (refresh_tokens w1) = [] /\
  succeeded (fst (run env2 (refreshTokens env2 t) w1)) = false /\
  snd (run env2 (refreshTokens env2 t) w1) = w1 /\
  ((forall n, faults env2 n = None) ->
   run env2 (refreshTokens env2 t) w1 = (Throw invalid_refresh_token, w1)).
Proof.
  intros Hone Hrun Hfresh.
  apply refreshTokens_inv in Hrun
    as (row & u & Hfind & _ & _ & _ & _ & _ & ->).
  assert (Hgone : active_rows t
            (save (RefreshToken.mk (uuidv4 env1) (refreshToken resp)
                     (User.id u) (now env1 + 7 * 24 * 60 * 60 * 1000) true)
               (save (RefreshToken.deactivate row) (refresh_tokens w)))
          = []).
  { apply save_other_token; [exact Hfresh|].
    apply deactivate_consumes; assumption. }
  split; [exact Hgone|].
  apply findOne_no_active in Hgone.
  match goal with
  | |- context [run env2 ?p ?w1] =>
      destruct (refreshTokens_no_active env2 t w1 Hgone) as (H1 & H2 & H3)
  end.
  split; [exact H1|]. split; [exact H2|].
  intros Hn. specialize (H3 Hn).
  destruct (run env2 (refreshTokens env2 t) _) as [r w2].
  cbn in *. subst. reflexivity.
Qed.

(** C3.  Rotation is atomic: whatever awaited call is rejected and
    whichever test fails, a [refreshTokens] call leaves users and cache
    alone and either succeeds with both writes committed together (the
    table is the old one with the found row saved inactive and then the
    replacement row saved; the replacement is in it, and so is the
    deactivated row unless the identifier drawn is its own), or throws
    with the table of refresh tokens exactly as it was. *)
Theorem refreshTokens_atomic env t w :
  users (snd (run env (refreshTokens env t) w)) = users w /\
  cache (snd (run env (refreshTokens env t) w)) = cache w /\
  match fst (run env (refreshTokens env t) w) with
  | Ok resp =>
      exists row,
        let created :=
          RefreshToken.mk (uuidv4 env) (refreshToken resp)
            (summary_id (user resp))
            (now env + 7 * 24 * 60 * 60 * 1000) true in
        findOne t (refresh_tokens w) = Some row /\
        refresh_tokens (snd (run env (refreshTokens env t) w)) =
          save created
               (save (RefreshToken.deactivate row) (refresh_tokens w)) /\
        In created (refresh_tokens (snd (run env (refreshTokens env t) w))) /\
        (uuidv4 env <> RefreshToken.id row ->
         In (RefreshToken.deactivate row)
            (refresh_tokens (snd (run env (refreshTokens env t) w))))
  | Throw _ =>
      refresh_tokens (snd (run env (refreshTokens env t) w)) =
        refresh_tokens w
  end.
Proof.
  destruct (run env (refreshTokens env t) w) as [[resp|e] w'] eqn:Hrun; cbn.
  - apply refreshTokens_inv in Hrun
      as (row & u & Hfind & _ & _ & _ & Hid & _ & ->).
    cbn. repeat split. exists row. rewrite Hid.
    split; [exact Hfind|]. split; [reflexivity|].
    split; [apply save_In|].
    intros Hne. apply save_keeps; [apply save_In|].
    cbn. congruence.
  - unfold run, refreshTokens in Hrun. destruct w as [us rts c].
    run_cases Hrun;
      injection Hrun as <- <-; cbn; repeat split; reflexivity.
Qed.

(** C5 (amended).  A [refreshTokens] call undisturbed by its
    collaborators throws [UnauthorizedException "Invalid refresh token"]
    when no row carries the token, when the rows that carry it are
    inactive, and when the active row found is past [expiresAt]: the
    three cannot be told apart.  When the row found is active and
    unexpired and the key [blacklist:<token>] reads truthy it throws
    [UnauthorizedException "Token has been revoked"]: the same
    exception class with a message of its own.  In all four cases
    nothing is changed. *)
Theorem refreshTokens_failures env t w :
  (forall n, faults env n = None) ->
  ((forall r, In r (refresh_tokens w) -> RefreshToken.token r <> t) ->
   run env (refreshTokens env t) w = (Throw invalid_refresh_token, w)) /\
  ((forall r, In r (refresh_tokens w) -> RefreshToken.token r = t ->
              RefreshToken.isActive r = false) ->
   run env (refreshTokens env t) w = (Throw invalid_refresh_token, w)) /\
  (forall row,
     findOne t (refresh_tokens w) = Some row ->
     RefreshToken.expiresAt row < now env ->
     run env (refreshTokens env t) w = (Throw invalid_refresh_token, w)) /\
  (forall row,
     findOne t (refresh_tokens w) = Some row ->
     now env <= RefreshToken.expiresAt row ->
     truthy (cache_get (cache w) (now env) ("blacklist:" +:+ t)) = true ->
     run env (refreshTokens env t) w =
       (Throw (UnauthorizedException "Token has been revoked"), w)).
Proof.
  intros Hn.
  assert (Hnone : findOne t (refresh_tokens w) = None ->
            run env (refreshTokens env t) w = (Throw invalid_refresh_token, w)).
  { intros Hf. destruct (refreshTokens_no_active env t w Hf) as (_ & H2 & H3).
    specialize (H3 Hn).
    destruct (run env (refreshTokens env t) w) as [r w2].
    cbn in *. subst. reflexivity. }
  split; [|split; [|split]].
  - intros H. apply Hnone, findOne_None. intros r Hin Ht.
    exfalso. exact (H r Hin Ht).
  - intros H. apply Hnone, findOne_None. exact H.
  - intros row Hf Hexp. unfold run, refreshTokens.
    destruct w as [us rts c]. cbn in *. rewrite !Hn. cbn.
    rewrite Hf. cbn.
    destruct (Z.ltb_spec (RefreshToken.expiresAt row) (now env)); [|lia].
    reflexivity.
  - intros row Hf Hexp Hbl. unfold run, refreshTokens.
    destruct w as [us rts c]. cbn in *. rewrite !Hn. cbn.
    rewrite Hf. cbn.
    destruct (Z.ltb_spec (RefreshToken.expiresAt row) (now env)); [lia|].
    cbn. rewrite !Hn. cbn. rewrite Hbl. cbn. reflexivity.
Qed.

(** *** Cached user lookup *)

(** C9.  [validateUser] only reads the cache: in every environment the
    world after the call is the world before it (the branch that would
    set the cache entry is never taken), and so for
    [validateUserRoles].  When the key [user:<userId>] is absent from the
    cache, or expired, the call returns [undefined], and
    [validateUserRoles] returns [false] for every list of roles. *)
Theorem validateUser_never_populates env userId w :
  snd (run env (validateUser userId) w) = w /\
  (forall roles, snd (run env (validateUserRoles userId roles) w) = w) /\
  (faults env 0%nat = None ->
   cache_get (cache w) (now env) ("user:" +:+ userId) = None ->
   fst (run env (validateUser userId) w) = Ok None /\
   forall roles,
     fst (run env (validateUserRoles userId roles) w) = Ok false).
Proof.
  unfold run, validateUserRoles, validateUser. destruct w as [us rts c].
  assert (Hdead : forall b : bool, negb b = true -> b = true -> False)
    by (intros []; discriminate).
  split; [|split].
  - run_goal; try reflexivity; exfalso; cbn in *; eauto.
  - intros roles. run_goal; try reflexivity; exfalso; cbn in *; eauto.
  - intros Hf Hg. cbn in *. rewrite Hf. cbn. rewrite Hg. cbn.
    split; reflexivity.
Qed.

(** *** Login *)

Lemma login_inv env dto w resp w' :
  run env (login env dto) w = (Ok resp, w') ->
  exists u,
    find_user_by_email (login_email dto) (users w) = Some u /\
    bcrypt_compare deps (login_password dto) (User.password u) = true /\
    truthy (cache_get (cache w) (now env)
              ("lockout:" +:+ login_email dto)) = false /\
    summary_id (user resp) = User.id u /\
    refreshToken resp =
      signAsync (jwtService deps) (RefreshPayload (User.id u) "refresh")
        (mkJwtSignOptions
           (configService deps "JWT_REFRESH_SECRET")
           (default "7d" (configService deps "JWT_REFRESH_EXPIRATION")))
        (now env) /\
    w' = mkWorld (users w)
           (save (RefreshToken.mk (uuidv4 env) (refreshToken resp)
                    (User.id u) (now env + 7 * 24 * 60 * 60 * 1000) true)
                 (refresh_tokens w))
           (cache_del (cache w) ("attempts:" +:+ login_email dto)).
Proof.
  unfold run, login. destruct dto as [email password]. intros H.
  run_cases H.
  injection H as <- <-. subst.
  match goal with
  | E : match find_user_by_email _ _ with _ => _ end = Some _ |- _ =>
      destruct (find_user_by_email email (users w)) as [u|] eqn:Hf;
        [injection E as E1 | discriminate E]
  end.
  subst. eexists. cbn in *.
  split; [eassumption|].
  match goal with
  | E : negb _ = false |- _ => apply negb_false_iff in E
  end.
  repeat split; assumption.
Qed.

(** C8.  A successful login removes one cache key, the attempt counter
    [attempts:<email>]; the lockout flag [lockout:<email>] and every
    other cache entry are as before. *)
Theorem login_clears_only_counter env dto w resp w' :
  run env (login env dto) w = (Ok resp, w') ->
  cache w' = delete ("attempts:" +:+ login_email dto) (cache w) /\
  cache w' !! ("attempts:" +:+ login_email dto) = None /\
  cache w' !! ("lockout:" +:+ login_email dto) =
    cache w !! ("lockout:" +:+ login_email dto) /\
  (forall key, key <> "attempts:" +:+ login_email dto ->
               cache w' !! key = cache w !! key).
Proof.
  intros H. apply login_inv in H as (u & _ & _ & _ & _ & _ & ->).
  cbn. unfold cache_del. split; [reflexivity|].
  split; [apply lookup_delete_eq|].
  split.
  - apply lookup_delete_ne. intros E. symmetry in E.
    exact (lockout_attempts_keys _ E).
  - intros key Hk. apply lookup_delete_ne. congruence.
Qed.

(** *** Registration *)

Lemma register_inv env dto w resp w' :
  run env (register env dto) w = (Ok resp, w') ->
  refreshToken resp =
    signAsync (jwtService deps)
      (RefreshPayload (summary_id (user resp)) "refresh")
      (mkJwtSignOptions
         (configService deps "JWT_REFRESH_SECRET")
         (default "7d" (configService deps "JWT_REFRESH_EXPIRATION")))
      (now env) /\
  refresh_tokens w' =
    save (RefreshToken.mk (uuidv4 env) (refreshToken resp)
            (summary_id (user resp))
            (now env + 7 * 24 * 60 * 60 * 1000) true)
         (refresh_tokens w).
Proof.
  unfold run, register, UsersService_create.
  destruct dto as [email name password role]. intros H.
  run_cases H; injection H as <- <-; cbn; split; reflexivity.
Qed.

(** *** Stored refresh-token records *)

(** C10.  The refresh-token record created by a successful [login],
    [register] or [refreshTokens] carries the returned refresh token, is
    active, and expires exactly 7 days (604800000 ms) after the clock
    reading of the call; every other row of the table afterwards is a row
    that was there before or the deactivated copy of one.  The constant
    does not depend on the configuration, while the lifetime given to the
    signer for that same token is the configured
    [JWT_REFRESH_EXPIRATION] (default ["7d"]). *)
Theorem stored_refresh_token_expiry env w resp w' :
  (exists dto, run env (login env dto) w = (Ok resp, w')) \/
  (exists dto, run env (register env dto) w = (Ok resp, w')) \/
  (exists t, run env (refreshTokens env t) w = (Ok resp, w')) ->
  let created :=
    RefreshToken.mk (uuidv4 env) (refreshToken resp)
                    (summary_id (user resp)) (now env + 604800000) true in
  In created (refresh_tokens w') /\
  RefreshToken.isActive created = true /\
  RefreshToken.expiresAt created = now env + 7 * 24 * 60 * 60 * 1000 /\
  (forall r, In r (refresh_tokens w') ->
     r = created \/ In r (refresh_tokens w) \/
     exists row, In row (refresh_tokens w) /\ r = RefreshToken.deactivate row) /\
  refreshToken resp =
    signAsync (jwtService deps)
      (RefreshPayload (summary_id (user resp)) "refresh")
      (mkJwtSignOptions
         (configService deps "JWT_REFRESH_SECRET")
         (default "7d" (configService deps "JWT_REFRESH_EXPIRATION")))
      (now env).
Proof.
  intros [[dto H]|[[dto H]|[t H]]]; cbn.
  - apply login_inv in H as (u & _ & _ & _ & Hid & Hsig & ->). cbn.
    rewrite Hid. split; [apply save_In|]. repeat split; [|exact Hsig].
    intros r Hr. apply save_In_inv in Hr as [->|[Hr _]]; auto.
  - apply register_inv in H as (Hsig & ->).
    split; [apply save_In|]. repeat split; [|exact Hsig].
    intros r Hr. apply save_In_inv in Hr as [->|[Hr _]]; auto.
  - apply refreshTokens_inv in H
      as (row & u & Hf & _ & _ & _ & Hid & Hsig & ->). cbn.
    rewrite Hid. split; [apply save_In|]. repeat split; [|exact Hsig].
    intros r Hr. apply save_In_inv in Hr as [->|[Hr _]]; auto.
    apply save_In_inv in Hr as [->|[Hr _]]; auto.
    right. right. exists row. split; [|reflexivity].
    apply findOne_Some in Hf as [Hin _]. exact Hin.
Qed.

(** *** Failed logins *)

(** C6.  A login with an email the directory does not have and a login with
    an email it has and a password that does not match end alike.
    Undisturbed and not locked out, both throw the same exception,
    [UnauthorizedException "Invalid credentials"], and each leaves the
    world exactly as recording a failed attempt for the presented email
    does.  For one and the same email and the same cache the two are
    indistinguishable in every environment: equal results and equal caches
    afterwards.  Neither touches the table of refresh tokens. *)
Theorem login_anti_enumeration env email1 email2 password w1 w2 u :
  find_user_by_email email1 (users w1) = None ->
  find_user_by_email email2 (users w2) = Some u ->
  bcrypt_compare deps password (User.password u) = false ->
  let absent := run env (login env (mkLoginDto email1 password)) w1 in
  let mismatch := run env (login env (mkLoginDto email2 password)) w2 in
  ((forall n, faults env n = None) ->
   truthy (cache_get (cache w1) (now env) ("lockout:" +:+ email1)) = false ->
   truthy (cache_get (cache w2) (now env) ("lockout:" +:+ email2)) = false ->
   fst absent = Throw invalid_credentials /\
   fst mismatch = Throw invalid_credentials /\
   snd absent = snd (run env (recordFailedAttempt email1) w1) /\
   snd mismatch = snd (run env (recordFailedAttempt email2) w2)) /\
  (email1 = email2 -> cache w1 = cache w2 ->
   fst absent = fst mismatch /\
   cache (snd absent) = cache (snd mismatch)) /\
  refresh_tokens (snd absent) = refresh_tokens w1 /\
  refresh_tokens (snd mismatch) = refresh_tokens w2.
Proof.
  intros H1 H2 H3. unfold run, login, recordFailedAttempt.
  destruct w1 as [us1 rts1 c1], w2 as [us2 rts2 c2]. cbn in H1, H2. cbn.
  split; [|split; [|split]].
  - intros Hn Hl1 Hl2. rewrite !Hn. cbn. rewrite Hl1, Hl2. cbn.
    rewrite !Hn. cbn. rewrite H1, H2. cbn. rewrite !Hn. cbn.
    rewrite H3. cbn. rewrite !Hn. cbn.
    destruct (MAX_LOGIN_ATTEMPTS <=? _), (MAX_LOGIN_ATTEMPTS <=? _);
      cbn; rewrite !Hn; cbn; repeat split; reflexivity.
  - intros <- <-.
    split;
      repeat (cbn; rewrite ?H1, ?H2; cbn; rewrite ?H3;
              match goal with
              | |- context [faults ?env ?n] => destruct (faults env n) eqn:?
              | |- context [match ?x with _ => _ end] => destruct x eqn:?
              | |- context [if ?x then _ else _] => destruct x eqn:?
              end); cbn; reflexivity.
  - repeat (cbn; rewrite ?H1;
            match goal with
            | |- context [faults ?env ?n] => destruct (faults env n) eqn:?
            | |- context [match ?x with _ => _ end] => destruct x eqn:?
            | |- context [if ?x then _ else _] => destruct x eqn:?
            end); cbn; reflexivity.
  - repeat (cbn; rewrite ?H2; cbn; rewrite ?H3;
            match goal with
            | |- context [faults ?env ?n] => destruct (faults env n) eqn:?
            | |- context [match ?x with _ => _ end] => destruct x eqn:?
            | |- context [if ?x then _ else _] => destruct x eqn:?
            end); cbn; reflexivity.
Qed.

(** *** Logout *)

Lemma seconds_floor t : 0 <= t - 1000 * (t / 1000).
Proof. pose proof (Z.mul_div_le t 1000). lia. Qed.

(** C7.  After a [logout] that returns, for an access token whose decoded
    [exp] lies beyond the clock reading (in whole seconds): the cache
    holds [blacklist:<accessToken>] with value [true] and a time to live
    of the remaining lifetime, so the key reads [true] at every instant
    before the token's expiry; every row of that user is inactive; and a
    [refreshTokens] with a token carried only by rows of that user cannot
    succeed, failing with "Invalid refresh token" when undisturbed. *)
Theorem logout_postcondition env accessToken userId e w w' :
  decode (jwtService deps) accessToken = Some (mkJwtClaims (Some e)) ->
  0 <= now env ->
  now env / 1000 < e ->
  run env (logout env accessToken userId) w = (Ok tt, w') ->
  cache w' !! ("blacklist:" +:+ accessToken) =
    Some (mkCacheEntry (JsBool true)
                       (now env + (e - now env / 1000) * 1000)) /\
  (forall t, t < e * 1000 ->
     cache_get (cache w') t ("blacklist:" +:+ accessToken)
     = Some (JsBool true)) /\
  (forall r, In r (refresh_tokens w') -> RefreshToken.userId r = userId ->
             RefreshToken.isActive r = false) /\
  (forall env2 t,
     (forall r, In r (refresh_tokens w) -> RefreshToken.token r = t ->
                RefreshToken.userId r = userId) ->
     succeeded (fst (run env2 (refreshTokens env2 t) w')) = false /\
     ((forall n, faults env2 n = None) ->
      run env2 (refreshTokens env2 t) w' = (Throw invalid_refresh_token, w'))).
Proof.
  intros Hdec Hnow Hexp Hrun. unfold run, logout in Hrun.
  rewrite Hdec in Hrun.
  assert (He : (e =? 0) = false).
  { apply Z.eqb_neq. pose proof (Z.div_pos (now env) 1000). lia. }
  assert (Httl : (0 <? e - now env / 1000) = true) by (apply Z.ltb_lt; lia).
  rewrite He in Hrun. cbn in Hrun. rewrite Httl in Hrun.
  destruct w as [us rts c]. run_cases Hrun. injection Hrun as <-.
  cbn [cache refresh_tokens users].
  split; [|split; [|split]].
  - unfold cache_set. apply lookup_insert_eq.
  - intros t Ht. rewrite cache_get_set_eq.
    pose proof (seconds_floor (now env)).
    destruct (Z.leb_spec t (now env + (e - now env / 1000) * 1000));
      [reflexivity | lia].
  - intros r Hr Hu. apply update_inactive_In in Hr as [_ Hr]. auto.
  - intros env2 t Hown.
    assert (Hnone : findOne t (update_inactive userId true rts) = None).
    { apply findOne_None. intros x Hx Ht.
      apply update_inactive_In in Hx as [(y & Hy & Hty & Huy) Hx].
      apply Hx. rewrite Huy. apply Hown; [exact Hy | congruence]. }
    match goal with
    | |- context [run env2 _ ?w1] =>
        destruct (refreshTokens_no_active env2 t w1 Hnone) as (G1 & G2 & G3)
    end.
    split; [exact G1|]. intros Hn. specialize (G3 Hn).
    destruct (run env2 (refreshTokens env2 t) _) as [r w2].
    cbn in *. subst. reflexivity.
Qed.

(** *** Lockout *)

(** With the flag reading truthy the request is over after its first
    await, the read of the flag. *)
Lemma login_locked env email password w :
  faults env 0%nat = None ->
  truthy (cache_get (cache w) (now env) ("lockout:" +:+ email)) = true ->
  run env (login env (mkLoginDto email password)) w
  = (Throw account_locked, w) /\
  solo env 1 (start (login env (mkLoginDto email password))) w
  = (mkRequest (Reject account_locked) None 1%nat, w).
Proof.
  intros Hf Hl. unfold run, start, login. cbn. rewrite Hf. cbn. rewrite Hl.
  destruct w. split; reflexivity.
Qed.

Lemma login_refused env email password w :
  (forall n, faults env n = None) ->
  truthy (cache_get (cache w) (now env) ("lockout:" +:+ email)) = false ->
  bad_credentials (users w) email password = true ->
  run env (login env (mkLoginDto email password)) w =
  (Throw invalid_credentials,
   mkWorld (users w) (refresh_tokens w)
     (let n := number_or_zero
                 (cache_get (cache w) (now env) ("attempts:" +:+ email)) + 1 in
      if MAX_LOGIN_ATTEMPTS <=? n
      then cache_del (cache_set (cache w) (now env) ("lockout:" +:+ email)
                                (JsBool true) LOCKOUT_DURATION)
                     ("attempts:" +:+ email)
      else cache_set (cache w) (now env) ("attempts:" +:+ email)
                     (JsNumber n) LOCKOUT_DURATION)).
Proof.
  intros Hn Hl Hbad. unfold run, login, bad_credentials in *.
  destruct w as [us rts c]. cbn in *.
  rewrite !Hn. cbn. rewrite Hl. cbn. rewrite !Hn. cbn.
  destruct (find_user_by_email email us) as [u|]; cbn; rewrite !Hn; cbn.
  - rewrite Hbad. cbn. rewrite !Hn. cbn.
    destruct (MAX_LOGIN_ATTEMPTS <=? _); cbn; rewrite !Hn; cbn; reflexivity.
  - destruct (MAX_LOGIN_ATTEMPTS <=? _); cbn; rewrite !Hn; cbn; reflexivity.
Qed.

(** From a count of [k] left by an attempt at time [t], refused attempts
    that each come within the window of the previous one and bring the
    count to the threshold end with the flag set by the last of them and
    the counter deleted. *)
Lemma refused_logins_lock email us rest :
  forall k t w,
    users w = us ->
    1 <= k ->
    cache w !! ("attempts:" +:+ email)
      = Some (mkCacheEntry (JsNumber k) (t + LOCKOUT_DURATION)) ->
    truthy (cache_get (cache w) t ("lockout:" +:+ email)) = false ->
    within_window t rest ->
    Forall (fun a => (forall n, faults (fst a) n = None) /\
                     bad_credentials us email (snd a) = true) rest ->
    k + Z.of_nat (length rest) = MAX_LOGIN_ATTEMPTS ->
    rest <> [] ->
    cache (run_logins email rest w) !! ("lockout:" +:+ email)
      = Some (mkCacheEntry (JsBool true)
                (last_attempt t rest + LOCKOUT_DURATION)) /\
    cache (run_logins email rest w) !! ("attempts:" +:+ email) = None.
Proof.
  induction rest as [|[env p] rest IH];
    intros k t w Hus Hk Hcount Hfree Hw Hall Hlen Hne; [contradiction|].
  cbn [within_window] in Hw. destruct Hw as (Hle & Hwin & Hw).
  apply Forall_cons_iff in Hall as [[Hn Hbad] Hall]. cbn [fst snd] in *.
  assert (Hfree' : truthy (cache_get (cache w) (now env)
                             ("lockout:" +:+ email)) = false)
    by (eapply falsy_later; eassumption).
  assert (Hread : cache_get (cache w) (now env) ("attempts:" +:+ email)
                  = Some (JsNumber k)).
  { unfold cache_get. rewrite Hcount. cbn.
    destruct (Z.leb_spec (now env) (t + LOCKOUT_DURATION)); [reflexivity|lia]. }
  rewrite <- Hus in Hbad.
  cbn [run_logins last_attempt fold_left].
  rewrite (login_refused env email p w Hn Hfree' Hbad). cbn [snd].
  rewrite Hread. cbn [number_or_zero].
  change (fold_left (fun _ a => now (fst a)) rest (now env))
    with (last_attempt (now env) rest).
  destruct rest as [|a rest'].
  - cbn [length] in Hlen. cbn [run_logins last_attempt fold_left cache].
    destruct (Z.leb_spec MAX_LOGIN_ATTEMPTS (k + 1)); [|lia].
    unfold cache_del, cache_set. split.
    + rewrite lookup_delete_ne by apply attempts_lockout_keys.
      apply lookup_insert_eq.
    + apply lookup_delete_eq.
  - cbn [length] in Hlen.
    destruct (Z.leb_spec MAX_LOGIN_ATTEMPTS (k + 1)); [lia|].
    apply (IH (k + 1) (now env)); cbn [users cache]; auto; try lia.
    + unfold cache_set. apply lookup_insert_eq.
    + rewrite cache_get_set_ne by apply attempts_lockout_keys.
      exact Hfree'.
    + cbn [length]. lia.
Qed.

(** C4 (amended).  Lockout.  From a state with no count and no flag for
    an identity, [MAX_LOGIN_ATTEMPTS] (5) refused logins, each coming
    within [LOCKOUT_DURATION] (15 minutes) of the previous one, end with
    the flag [lockout:<email>] set for [LOCKOUT_DURATION] from the last
    attempt and the counter [attempts:<email>] deleted.  While the flag
    reads, which it does up to and including the instant
    [LOCKOUT_DURATION] after the last attempt, every login for the
    identity, whatever the password and whatever the user directory says,
    throws the account-locked exception and changes nothing, and it is
    over after its first await, the read of the flag, before any look at
    the credentials; after that instant the flag no longer reads. *)
Theorem lockout_after_max_attempts email first rest w :
  Z.of_nat (length (first :: rest)) = MAX_LOGIN_ATTEMPTS ->
  Forall (fun a => (forall n, faults (fst a) n = None) /\
                   bad_credentials (users w) email (snd a) = true)
         (first :: rest) ->
  within_window (now (fst first)) rest ->
  cache_get (cache w) (now (fst first)) ("attempts:" +:+ email) = None ->
  truthy (cache_get (cache w) (now (fst first)) ("lockout:" +:+ email))
    = false ->
  let locked := run_logins email (first :: rest) w in
  let locked_at := last_attempt (now (fst first)) rest in
  cache locked !! ("lockout:" +:+ email)
    = Some (mkCacheEntry (JsBool true) (locked_at + LOCKOUT_DURATION)) /\
  cache locked !! ("attempts:" +:+ email) = None /\
  (forall env password,
     faults env 0%nat = None ->
     now env <= locked_at + LOCKOUT_DURATION ->
     run env (login env (mkLoginDto email password)) locked
     = (Throw account_locked, locked) /\
     solo env 1 (start (login env (mkLoginDto email password))) locked
     = (mkRequest (Reject account_locked) None 1%nat, locked)) /\
  (forall t, locked_at + LOCKOUT_DURATION < t ->
     cache_get (cache locked) t ("lockout:" +:+ email) = None).
Proof.
  intros Hlen Hall Hw Hcount Hfree locked locked_at.
  destruct first as [env p].
  apply Forall_cons_iff in Hall as [[Hn Hbad] Hall]. cbn [fst snd] in *.
  assert (Hlock :
    cache locked !! ("lockout:" +:+ email)
      = Some (mkCacheEntry (JsBool true) (locked_at + LOCKOUT_DURATION)) /\
    cache locked !! ("attempts:" +:+ email) = None).
  { subst locked locked_at. cbn [run_logins].
    rewrite (login_refused env email p w Hn Hfree Hbad). cbn [snd].
    rewrite Hcount. cbn [number_or_zero].
    destruct (Z.leb_spec MAX_LOGIN_ATTEMPTS (0 + 1));
      [unfold MAX_LOGIN_ATTEMPTS in *; lia|].
    apply (refused_logins_lock email (users w) rest (0 + 1) (now env));
      cbn [users cache]; auto; try lia.
    - unfold cache_set. apply lookup_insert_eq.
    - rewrite cache_get_set_ne by apply attempts_lockout_keys. exact Hfree.
    - cbn [length] in Hlen. lia.
    - intros ->. cbn in Hlen. unfold MAX_LOGIN_ATTEMPTS in Hlen. lia. }
  destruct Hlock as [Hflag Hgone].
  split; [exact Hflag|]. split; [exact Hgone|]. split.
  - intros env' password Hf Hlive. apply login_locked; [exact Hf|].
    unfold cache_get. rewrite Hflag. cbn.
    destruct (Z.leb_spec (now env') (locked_at + LOCKOUT_DURATION));
      [reflexivity | lia].
  - intros t Ht. unfold cache_get. rewrite Hflag. cbn.
    destruct (Z.leb_spec t (locked_at + LOCKOUT_DURATION));
      [lia | reflexivity].
Qed.

(** *** Requests stepped one await at a time *)

Lemma solo_S {A} env k (rq : Request A) w :
  solo env (S k) rq w =
  step env (fst (solo env k rq w)) (snd (solo env k rq w)).
Proof.
  revert rq w. induction k as [|k IH]; intros rq w.
  - cbn. destruct (step env rq w). reflexivity.
  - change (solo env (S (S k)) rq w)
      with (let '(rq', w') := step env rq w in solo env (S k) rq' w').
    destruct (step env rq w) as [rq' w'] eqn:E.
    rewrite IH. cbn [solo]. rewrite E. reflexivity.
Qed.

Lemma step_done {A} env (rq : Request A) w r :
  outcome rq = Some r -> step env rq w = (rq, w).
Proof.
  unfold outcome, step. destruct (continuation rq); intros H;
    [reflexivity | reflexivity | discriminate H].
Qed.

Lemma solo_done {A} env k (rq : Request A) w r m :
  outcome (fst (solo env k rq w)) = Some r ->
  solo env (k + m) rq w = solo env k rq w.
Proof.
  intros Hdone. induction m as [|m IH].
  - rewrite Nat.add_0_r. reflexivity.
  - rewrite Nat.add_succ_r, solo_S, IH, (step_done _ _ _ _ Hdone).
    destruct (solo env k rq w). reflexivity.
Qed.

(** A request run to completion by [exec] ends as the same request
    stepped on its own often enough. *)
Lemma exec_solo {A} env (p : Async A) :
  forall w qr n,
  exists k,
    outcome (fst (solo env k (mkRequest p qr n) w))
      = Some (fst (exec env p w qr n)) /\
    snd (solo env k (mkRequest p qr n) w) = snd (exec env p w qr n).
Proof.
  induction p as [a|e|X op k IH]; intros w qr n.
  - exists 0%nat. split; reflexivity.
  - exists 0%nat. split; reflexivity.
  - cbn [exec].
    destruct (if fallible op then faults env n else None) as [e|] eqn:F.
    + destruct (IH (Throw e) w qr (S n)) as (m & H1 & H2).
      assert (Hs : step env (mkRequest (Await op k) qr n) w
                   = (mkRequest (k (Throw e)) qr (S n), w))
        by (unfold step; cbn; rewrite F; reflexivity).
      exists (S m). cbn [solo]. rewrite Hs. split; assumption.
    + destruct (perform env op w qr) as [[x w1] qr1] eqn:P.
      destruct (IH (Ok x) w1 qr1 (S n)) as (m & H1 & H2).
      assert (Hs : step env (mkRequest (Await op k) qr n) w
                   = (mkRequest (k (Ok x)) qr1 (S n), w1))
        by (unfold step; cbn; rewrite F, P; reflexivity).
      exists (S m). cbn [solo]. rewrite Hs. split; assumption.
Qed.

Lemma interleave_app {A B} enva envb s1 s2 (a : Request A) (b : Request B) w :
  interleave enva envb (s1 ++ s2)%list a b w =
  let '(a1, b1, w1) := interleave enva envb s1 a b w in
  interleave enva envb s2 a1 b1 w1.
Proof.
  revert a b w. induction s1 as [|[] s1 IH]; intros a b w; cbn.
  - reflexivity.
  - destruct (step enva a w). apply IH.
  - destruct (step envb b w). apply IH.
Qed.

Lemma interleave_swap {A B} enva envb s (a : Request A) (b : Request B) w :
  interleave envb enva (map negb s) b a w =
  let '(a1, b1, w1) := interleave enva envb s a b w in (b1, a1, w1).
Proof.
  revert a b w. induction s as [|[] s IH]; intros a b w; cbn.
  - reflexivity.
  - destruct (step enva a w). apply IH.
  - destruct (step envb b w). apply IH.
Qed.

Lemma steps_of_negb who s : steps_of who (map negb s) = steps_of (negb who) s.
Proof.
  induction s as [|b s IH]; cbn; [reflexivity|].
  rewrite IH. destruct b, who; reflexivity.
Qed.

(** *** One rotation request, await by await *)

Section Rotation.

Variables (t : string) (w0 : World) (row : RefreshToken.t) (u : User.t).
Variable env : Env.
Hypothesis Hn : forall n, faults env n = None.

Ltac prelude := repeat (cbn; rewrite ?Hn).

(** Before its lookup the request neither reads nor writes the world. *)
Lemma prelude_any_world w k :
  (k <= 2)%nat ->
  solo env k (start (refreshTokens env t)) w = (progress env t w0 k, w).
Proof.
  intros Hk. unfold progress, start, refreshTokens.
  do 3 (destruct k as [|k]; [prelude; reflexivity|]). lia.
Qed.

(** A lookup that finds no active row ends the request with the world
    as it was. *)
Lemma lookup_fails w k :
  findOne t (refresh_tokens w) = None ->
  snd (solo env k (start (refreshTokens env t)) w) = w /\
  forall r, outcome (fst (solo env k (start (refreshTokens env t)) w))
            = Some r ->
            r = Throw invalid_refresh_token.
Proof.
  intros Hnone.
  assert (H5 : solo env 5 (start (refreshTokens env t)) w
               = (mkRequest (Reject invalid_refresh_token) None 5%nat, w)).
  { unfold start, refreshTokens. destruct w.
    repeat (cbn in *; rewrite ?Hn, ?Hnone). reflexivity. }
  destruct (Nat.le_gt_cases 5 k) as [Hk|Hk].
  - replace k with (5 + (k - 5))%nat by lia.
    rewrite (solo_done env 5 _ w (Throw invalid_refresh_token))
      by (rewrite H5; reflexivity).
    rewrite H5. cbn. split; [reflexivity|]. intros r [= <-]. reflexivity.
  - unfold start, refreshTokens. destruct w.
    do 5 (destruct k as [|k];
          [repeat (cbn in *; rewrite ?Hn, ?Hnone);
           split; [reflexivity | discriminate]|]).
    lia.
Qed.

Hypothesis Hfind : findOne t (refresh_tokens w0) = Some row.
Hypothesis Huser :
  find_user_by_id (RefreshToken.userId row) (users w0) = Some u.
Hypothesis Hexp : (RefreshToken.expiresAt row <? now env) = false.
Hypothesis Hbl :
  truthy (cache_get (cache w0) (now env) ("blacklist:" +:+ t)) = false.

Ltac go := repeat (cbn; rewrite ?Hn, ?Hfind, ?Huser, ?Hexp, ?Hbl).

(** Up to its commit the request leaves the world as it is. *)
Lemma solo_quiet k :
  (k <= 8)%nat ->
  snd (solo env k (start (refreshTokens env t)) w0) = w0.
Proof.
  intros Hk. unfold start, refreshTokens.
  do 9 (destruct k as [|k]; [go; destruct w0; reflexivity|]). lia.
Qed.

Lemma quiet_step k :
  (k < 8)%nat ->
  step env (progress env t w0 k) w0 = (progress env t w0 (S k), w0).
Proof.
  intros Hk. unfold progress.
  rewrite <- (solo_quiet k) at 2 by lia.
  rewrite <- solo_S.
  rewrite <- (solo_quiet (S k)) at 3 by lia.
  destruct (solo env (S k) _ w0). reflexivity.
Qed.

(** The request is over after ten awaits, and it has succeeded. *)
Lemma progress_outcome k r :
  outcome (progress env t w0 k) = Some r -> succeeded r = true.
Proof.
  unfold progress.
  destruct (Nat.le_gt_cases 10 k) as [Hk|Hk].
  - replace k with (10 + (k - 10))%nat by lia.
    assert (H10 : exists resp,
               outcome (fst (solo env 10 (start (refreshTokens env t)) w0))
               = Some (Ok resp)).
    { unfold start, refreshTokens. go. eexists. reflexivity. }
    destruct H10 as [resp H10].
    rewrite (solo_done env 10 _ w0 _ _ H10), H10.
    intros [= <-]. reflexivity.
  - unfold start, refreshTokens.
    do 10 (destruct k as [|k]; [go; discriminate|]). lia.
Qed.

(** Once past its lookup the request goes on to the next await in any
    world that has the cache of [w0], and leaves that cache alone. *)
Lemma after_lookup_step k w :
  (3 <= k)%nat ->
  cache w = cache w0 ->
  fst (step env (progress env t w0 k) w) = progress env t w0 (S k) /\
  cache (snd (step env (progress env t w0 k) w)) = cache w0.
Proof.
  intros Hk Hc.
  destruct (Nat.le_gt_cases 10 k) as [Hk'|Hk'].
  - assert (Hdone : exists r, outcome (progress env t w0 k) = Some r).
    { unfold progress. replace k with (10 + (k - 10))%nat by lia.
      assert (H10 : exists resp,
                 outcome (fst (solo env 10 (start (refreshTokens env t)) w0))
                 = Some (Ok resp)).
      { unfold start, refreshTokens. go. eexists. reflexivity. }
      destruct H10 as [resp H10].
      rewrite (solo_done env 10 _ w0 _ _ H10). eauto. }
    destruct Hdone as [r Hdone].
    rewrite (step_done env _ w r Hdone). cbn [fst snd].
    split; [|exact Hc].
    unfold progress at 2. rewrite solo_S.
    fold (progress env t w0 k).
    rewrite (step_done env _ _ r Hdone). reflexivity.
  - unfold progress, start, refreshTokens. destruct w as [us rts c].
    cbn in Hc. subst c.
    do 3 (destruct k as [|k]; [lia|]).
    do 7 (destruct k as [|k]; [go; split; reflexivity|]). lia.
Qed.

(** What a step past the lookup does to the world: nothing, except the
    commit (the ninth await), which saves the found row deactivated and
    then the replacement row into the table as it is at that moment. *)
Lemma after_lookup_world k w :
  (3 <= k)%nat ->
  cache w = cache w0 ->
  snd (step env (progress env t w0 k) w) =
    if Nat.eqb k 8
    then mkWorld (users w)
           (save (stored_row env (User.id u) (refreshToken_for u (now env)))
                 (save (RefreshToken.deactivate row) (refresh_tokens w)))
           (cache w)
    else w.
Proof.
  intros Hk Hc.
  destruct (Nat.le_gt_cases 10 k) as [Hk'|Hk'].
  - assert (Hdone : exists r, outcome (progress env t w0 k) = Some r).
    { unfold progress. replace k with (10 + (k - 10))%nat by lia.
      assert (H10 : exists resp,
                 outcome (fst (solo env 10 (start (refreshTokens env t)) w0))
                 = Some (Ok resp)).
      { unfold start, refreshTokens. go. eexists. reflexivity. }
      destruct H10 as [resp H10].
      rewrite (solo_done env 10 _ w0 _ _ H10). eauto. }
    destruct Hdone as [r Hdone].
    rewrite (step_done env _ w r Hdone). cbn [snd].
    destruct (Nat.eqb_spec k 8); [lia | reflexivity].
  - unfold progress, start, refreshTokens, stored_row, refreshToken_for.
    destruct w as [us rts c]. cbn in Hc. subst c.
    do 3 (destruct k as [|k]; [lia|]).
    do 7 (destruct k as [|k]; [go; reflexivity|]). lia.
Qed.

(** A request that is over has taken its ten awaits. *)
Lemma progress_finished k r :
  outcome (progress env t w0 k) = Some r -> (10 <= k)%nat.
Proof.
  intros H. destruct (Nat.le_gt_cases 10 k) as [Hk|Hk]; [exact Hk|].
  exfalso. revert H. unfold progress, start, refreshTokens.
  do 10 (destruct k as [|k]; [go; discriminate|]). lia.
Qed.

(** After its commit the request leaves every world as it is. *)
Lemma after_commit_step k w :
  (9 <= k)%nat ->
  step env (progress env t w0 k) w = (progress env t w0 (S k), w).
Proof.
  intros Hk.
  destruct (Nat.le_gt_cases 10 k) as [Hk'|Hk'].
  - assert (Hdone : exists r, outcome (progress env t w0 k) = Some r).
    { unfold progress. replace k with (10 + (k - 10))%nat by lia.
      assert (H10 : exists resp,
                 outcome (fst (solo env 10 (start (refreshTokens env t)) w0))
                 = Some (Ok resp)).
      { unfold start, refreshTokens. go. eexists. reflexivity. }
      destruct H10 as [resp H10].
      rewrite (solo_done env 10 _ w0 _ _ H10). eauto. }
    destruct Hdone as [r Hdone].
    rewrite (step_done env _ w r Hdone).
    unfold progress at 2. rewrite solo_S.
    fold (progress env t w0 k).
    rewrite (step_done env _ _ r Hdone). reflexivity.
  - assert (k = 9%nat) as -> by lia.
    unfold progress, start, refreshTokens. go. reflexivity.
Qed.

Lemma rotated_stays k :
  (9 <= k)%nat ->
  snd (solo env k (start (refreshTokens env t)) w0) = rotated env t w0.
Proof.
  intros Hk. replace k with (9 + (k - 9))%nat by lia.
  induction (k - 9)%nat as [|m IH].
  - rewrite Nat.add_0_r. reflexivity.
  - rewrite Nat.add_succ_r, solo_S, IH.
    fold (progress env t w0 (9 + m)).
    rewrite after_commit_step by lia. reflexivity.
Qed.

(** The world after the commit: the found row deactivated, the
    replacement stored. *)
Lemma rotated_table :
  refresh_tokens (rotated env t w0) =
  save (RefreshToken.mk (uuidv4 env)
          (signAsync (jwtService deps) (RefreshPayload (User.id u) "refresh")
             (mkJwtSignOptions
                (configService deps "JWT_REFRESH_SECRET")
                (default "7d" (configService deps "JWT_REFRESH_EXPIRATION")))
             (now env))
          (User.id u) (now env + 7 * 24 * 60 * 60 * 1000) true)
       (save (RefreshToken.deactivate row) (refresh_tokens w0)).
Proof. unfold rotated, start, refreshTokens. go. reflexivity. Qed.

End Rotation.

(** *** Two rotation requests for the same token, interleaved *)

Section TwoRequests.

Variables (t : string) (w0 : World) (row : RefreshToken.t) (u : User.t).
Variables enva envb : Env.
Hypothesis Hna : forall n, faults enva n = None.
Hypothesis Hnb : forall n, faults envb n = None.
Hypothesis Hfind : findOne t (refresh_tokens w0) = Some row.
Hypothesis Huser :
  find_user_by_id (RefreshToken.userId row) (users w0) = Some u.
Hypothesis Hexpa : (RefreshToken.expiresAt row <? now enva) = false.
Hypothesis Hexpb : (RefreshToken.expiresAt row <? now envb) = false.
Hypothesis Hbla :
  truthy (cache_get (cache w0) (now enva) ("blacklist:" +:+ t)) = false.
Hypothesis Hblb :
  truthy (cache_get (cache w0) (now envb) ("blacklist:" +:+ t)) = false.

(** While neither request has committed, each one advances as on its
    own and the world is as at the start. *)
Lemma no_commit_yet s :
  forall i j,
    (i + steps_of true s <= 8)%nat ->
    (j + steps_of false s <= 8)%nat ->
    interleave enva envb s (progress enva t w0 i) (progress envb t w0 j) w0
    = (progress enva t w0 (i + steps_of true s),
       progress envb t w0 (j + steps_of false s), w0).
Proof.
  induction s as [|[] s IH]; intros i j Hi Hj; cbn in *.
  - rewrite !Nat.add_0_r. reflexivity.
  - rewrite (quiet_step t w0 row u enva) by (assumption || lia).
    rewrite IH by lia. rewrite Nat.add_succ_r. reflexivity.
  - rewrite (quiet_step t w0 row u envb) by (assumption || lia).
    rewrite IH by lia. rewrite Nat.add_succ_r. reflexivity.
Qed.

(** Once both requests are past their lookup, both go on as on their
    own whatever the other commits. *)
Lemma both_past_lookup s :
  forall i j w,
    (3 <= i)%nat -> (3 <= j)%nat -> cache w = cache w0 ->
    exists w',
      interleave enva envb s (progress enva t w0 i) (progress envb t w0 j) w
      = (progress enva t w0 (i + steps_of true s),
         progress envb t w0 (j + steps_of false s), w').
Proof.
  induction s as [|[] s IH]; intros i j w Hi Hj Hc; cbn.
  - rewrite !Nat.add_0_r. eauto.
  - destruct (after_lookup_step t w0 row u enva Hna Hfind Huser Hexpa Hbla
                i w Hi Hc) as [H1 H2].
    destruct (step enva (progress enva t w0 i) w) as [a' w1].
    cbn in H1, H2. subst a'.
    destruct (IH (S i) j w1) as [w' Hw']; [lia | lia | assumption |].
    rewrite Hw'. rewrite Nat.add_succ_r. eauto.
  - destruct (after_lookup_step t w0 row u envb Hnb Hfind Huser Hexpb Hblb
                j w Hj Hc) as [H1 H2].
    destruct (step envb (progress envb t w0 j) w) as [b' w1].
    cbn in H1, H2. subst b'.
    destruct (IH i (S j) w1) as [w' Hw']; [lia | lia | assumption |].
    rewrite Hw'. rewrite Nat.add_succ_r. eauto.
Qed.

(** While the second request has not reached its lookup, the first one
    runs as on its own. *)
Lemma second_before_lookup s :
  forall i j,
    (j + steps_of false s <= 2)%nat ->
    interleave enva envb s
      (progress enva t w0 i) (progress envb t w0 j)
      (snd (solo enva i (start (refreshTokens enva t)) w0))
    = (progress enva t w0 (i + steps_of true s),
       progress envb t w0 (j + steps_of false s),
       snd (solo enva (i + steps_of true s)
                 (start (refreshTokens enva t)) w0)).
Proof.
  induction s as [|[] s IH]; intros i j Hj;
    cbn [interleave steps_of Bool.eqb] in *.
  - rewrite !Nat.add_0_r. reflexivity.
  - unfold progress at 1. rewrite <- solo_S.
    destruct (solo enva (S i) (start (refreshTokens enva t)) w0)
      as [a' w1] eqn:E.
    replace a' with (progress enva t w0 (S i))
      by (unfold progress; rewrite E; reflexivity).
    replace w1 with (snd (solo enva (S i) (start (refreshTokens enva t)) w0))
      by (rewrite E; reflexivity).
    rewrite IH by lia. rewrite Nat.add_succ_r. reflexivity.
  - pose proof (prelude_any_world t w0 envb Hnb
                  (snd (solo enva i (start (refreshTokens enva t)) w0))
                  (S j) ltac:(lia)) as Hs.
    rewrite solo_S in Hs.
    rewrite (prelude_any_world t w0 envb Hnb _ j) in Hs by lia.
    cbn [fst snd] in Hs. rewrite Hs.
    rewrite IH by lia. rewrite Nat.add_succ_r. reflexivity.
Qed.

(** Once both requests are past their lookup, each commit puts its
    replacement row into the table and leaves the other one's there,
    when the identifiers drawn differ from each other and from that of
    the row found. *)
Lemma both_past_lookup_rows s :
  uuidv4 enva <> uuidv4 envb ->
  uuidv4 enva <> RefreshToken.id row ->
  uuidv4 envb <> RefreshToken.id row ->
  forall i j w a b w',
    (3 <= i)%nat -> (3 <= j)%nat -> cache w = cache w0 ->
    ((9 <= i)%nat ->
     In (stored_row enva (User.id u) (refreshToken_for u (now enva)))
        (refresh_tokens w)) ->
    ((9 <= j)%nat ->
     In (stored_row envb (User.id u) (refreshToken_for u (now envb)))
        (refresh_tokens w)) ->
    ((9 <= i)%nat \/ (9 <= j)%nat ->
     In (RefreshToken.deactivate row) (refresh_tokens w)) ->
    interleave enva envb s (progress enva t w0 i) (progress envb t w0 j) w
    = (a, b, w') ->
    ((9 <= i + steps_of true s)%nat ->
     In (stored_row enva (User.id u) (refreshToken_for u (now enva)))
        (refresh_tokens w')) /\
    ((9 <= j + steps_of false s)%nat ->
     In (stored_row envb (User.id u) (refreshToken_for u (now envb)))
        (refresh_tokens w')) /\
    ((9 <= i + steps_of true s)%nat \/ (9 <= j + steps_of false s)%nat ->
     In (RefreshToken.deactivate row) (refresh_tokens w')).
Proof.
  intros Hab Har Hbr.
  assert (Hrow : RefreshToken.id (RefreshToken.deactivate row)
                 = RefreshToken.id row) by (destruct row; reflexivity).
  induction s as [|[] s IH]; intros i j w a b w' Hi Hj Hc Pa Pb Pr Hrun;
    cbn [interleave steps_of Bool.eqb] in *.
  - injection Hrun as <- <- <-. rewrite !Nat.add_0_r. auto.
  - destruct (after_lookup_step t w0 row u enva Hna Hfind Huser Hexpa Hbla
                i w Hi Hc) as [H1 H2].
    pose proof (after_lookup_world t w0 row u enva Hna Hfind Huser Hexpa Hbla
                  i w Hi Hc) as H3.
    destruct (step enva (progress enva t w0 i) w) as [a' w1].
    cbn [fst snd] in H1, H2, H3. subst a'.
    rewrite !Nat.add_succ_r.
    apply (IH (S i) j w1 a b w'); try assumption; try lia.
    + intros H9. destruct (Nat.eqb_spec i 8) as [E|E]; subst w1.
      * cbn [refresh_tokens]. apply save_In.
      * apply Pa. lia.
    + intros H9. destruct (Nat.eqb_spec i 8) as [E|E]; subst w1.
      * cbn [refresh_tokens].
        apply save_keeps; [apply save_keeps; [apply Pb; exact H9|]|].
        -- rewrite Hrow. cbn. exact Hbr.
        -- cbn. congruence.
      * apply Pb. exact H9.
    + intros H9. destruct (Nat.eqb_spec i 8) as [E|E]; subst w1.
      * cbn [refresh_tokens]. apply save_keeps; [apply save_In|].
        rewrite Hrow. cbn. congruence.
      * apply Pr. lia.
  - destruct (after_lookup_step t w0 row u envb Hnb Hfind Huser Hexpb Hblb
                j w Hj Hc) as [H1 H2].
    pose proof (after_lookup_world t w0 row u envb Hnb Hfind Huser Hexpb Hblb
                  j w Hj Hc) as H3.
    destruct (step envb (progress envb t w0 j) w) as [b' w1].
    cbn [fst snd] in H1, H2, H3. subst b'.
    rewrite !Nat.add_succ_r.
    apply (IH i (S j) w1 a b w'); try assumption; try lia.
    + intros H9. destruct (Nat.eqb_spec j 8) as [E|E]; subst w1.
      * cbn [refresh_tokens].
        apply save_keeps; [apply save_keeps; [apply Pa; exact H9|]|].
        -- rewrite Hrow. cbn. exact Har.
        -- cbn. congruence.
      * apply Pa. exact H9.
    + intros H9. destruct (Nat.eqb_spec j 8) as [E|E]; subst w1.
      * cbn [refresh_tokens]. apply save_In.
      * apply Pb. lia.
    + intros H9. destruct (Nat.eqb_spec j 8) as [E|E]; subst w1.
      * cbn [refresh_tokens]. apply save_keeps; [apply save_In|].
        rewrite Hrow. cbn. congruence.
      * apply Pr. lia.
Qed.

(** Both requests past their lookup with neither committed, and both
    run to their end: both replacement rows and the deactivated row are
    in the table. *)
Lemma race_rows s1 s2 a b w' ra rb :
  interleave enva envb (s1 ++ s2)%list
    (start (refreshTokens enva t)) (start (refreshTokens envb t)) w0
  = (a, b, w') ->
  outcome a = Some ra ->
  outcome b = Some rb ->
  (3 <= steps_of true s1 <= 8)%nat /\ (3 <= steps_of false s1 <= 8)%nat ->
  uuidv4 enva <> uuidv4 envb ->
  uuidv4 enva <> RefreshToken.id row ->
  uuidv4 envb <> RefreshToken.id row ->
  In (stored_row enva (User.id u) (refreshToken_for u (now enva)))
     (refresh_tokens w') /\
  In (stored_row envb (User.id u) (refreshToken_for u (now envb)))
     (refresh_tokens w') /\
  In (RefreshToken.deactivate row) (refresh_tokens w').
Proof.
  intros Hrun Ha Hb [[Ha3 Ha8] [Hb3 Hb8]] Hab Har Hbr.
  rewrite interleave_app in Hrun.
  change (start (refreshTokens enva t)) with (progress enva t w0 0) in Hrun.
  change (start (refreshTokens envb t)) with (progress envb t w0 0) in Hrun.
  rewrite no_commit_yet in Hrun by (cbn; lia). cbn [Nat.add] in Hrun.
  destruct (both_past_lookup s2 (steps_of true s1) (steps_of false s1) w0
              Ha3 Hb3 eq_refl) as [w1 Hw1].
  pose proof Hrun as Hrun'. rewrite Hw1 in Hrun'.
  injection Hrun' as Ea Eb _.
  rewrite <- Ea in Ha. rewrite <- Eb in Hb.
  apply (progress_finished t w0 row u enva Hna Hfind Huser Hexpa Hbla) in Ha.
  apply (progress_finished t w0 row u envb Hnb Hfind Huser Hexpb Hblb) in Hb.
  destruct (both_past_lookup_rows s2 Hab Har Hbr
              (steps_of true s1) (steps_of false s1) w0 a b w'
              Ha3 Hb3 eq_refl
              ltac:(intros; lia) ltac:(intros; lia) ltac:(intros; lia) Hrun)
    as (Pa & Pb & Pr).
  split; [apply Pa; lia|]. split; [apply Pb; lia|]. apply Pr. left. lia.
Qed.

Hypothesis Hone : (length (active_rows t (refresh_tokens w0)) <= 1)%nat.
Hypothesis Hfresh :
  signAsync (jwtService deps) (RefreshPayload (User.id u) "refresh")
    (mkJwtSignOptions
       (configService deps "JWT_REFRESH_SECRET")
       (default "7d" (configService deps "JWT_REFRESH_EXPIRATION")))
    (now enva) <> t.

(** The commit of the first request leaves the token without an active
    row. *)
Lemma rotated_no_active :
  findOne t (refresh_tokens (rotated enva t w0)) = None.
Proof.
  rewrite (rotated_table t w0 row u enva) by assumption.
  apply findOne_no_active, save_other_token; [exact Hfresh|].
  apply deactivate_consumes; assumption.
Qed.

(** After the commit of the first request, a second request that has
    not yet looked the token up runs as on its own in the world the
    first one left. *)
Lemma first_committed s :
  forall i j,
    (9 <= i)%nat ->
    interleave enva envb s
      (progress enva t w0 i)
      (fst (solo envb j (start (refreshTokens envb t)) (rotated enva t w0)))
      (rotated enva t w0)
    = (progress enva t w0 (i + steps_of true s),
       fst (solo envb (j + steps_of false s)
                 (start (refreshTokens envb t)) (rotated enva t w0)),
       rotated enva t w0).
Proof.
  induction s as [|[] s IH]; intros i j Hi;
    cbn [interleave steps_of Bool.eqb] in *.
  - rewrite !Nat.add_0_r. reflexivity.
  - rewrite (after_commit_step t w0 row u enva) by assumption.
    rewrite IH by lia. rewrite Nat.add_succ_r. reflexivity.
  - pose proof (solo_S envb j (start (refreshTokens envb t))
                  (rotated enva t w0)) as Hs.
    rewrite (proj1 (lookup_fails t envb Hnb (rotated enva t w0) j
                      rotated_no_active)) in Hs.
    rewrite <- Hs.
    destruct (solo envb (S j) (start (refreshTokens envb t))
                (rotated enva t w0)) as [b' w1] eqn:E.
    replace w1 with (rotated enva t w0).
    2:{ pose proof (proj1 (lookup_fails t envb Hnb (rotated enva t w0)
                             (S j) rotated_no_active)) as Hw.
        rewrite E in Hw. symmetry. exact Hw. }
    replace b' with (fst (solo envb (S j) (start (refreshTokens envb t))
                            (rotated enva t w0)))
      by (rewrite E; reflexivity).
    rewrite IH by lia. rewrite Nat.add_succ_r. reflexivity.
Qed.

(** The outcomes of the two requests, by where the schedule puts the
    lookups and the commits: [s1] is the part of the schedule played
    when the situation is looked at, [s2] the rest. *)
Lemma race_outcomes s1 s2 a b w' ra rb :
  interleave enva envb (s1 ++ s2)%list
    (start (refreshTokens enva t)) (start (refreshTokens envb t)) w0
  = (a, b, w') ->
  outcome a = Some ra ->
  outcome b = Some rb ->
  ((3 <= steps_of true s1 <= 8)%nat /\ (3 <= steps_of false s1 <= 8)%nat ->
   succeeded ra = true /\ succeeded rb = true) /\
  ((9 <= steps_of true s1)%nat /\ (steps_of false s1 <= 2)%nat ->
   succeeded ra = true /\ rb = Throw invalid_refresh_token).
Proof.
  intros Hrun Ha Hb. rewrite interleave_app in Hrun.
  change (start (refreshTokens enva t)) with (progress enva t w0 0) in Hrun.
  change (start (refreshTokens envb t)) with (progress envb t w0 0) in Hrun.
  split.
  - intros [[Ha3 Ha8] [Hb3 Hb8]].
    rewrite no_commit_yet in Hrun by (cbn; lia). cbn [Nat.add] in Hrun.
    destruct (both_past_lookup s2 (steps_of true s1) (steps_of false s1) w0
                Ha3 Hb3 eq_refl) as [w1 Hw1].
    rewrite Hw1 in Hrun. injection Hrun as <- <- <-.
    split.
    + eapply (progress_outcome t w0 row u enva); eassumption.
    + eapply (progress_outcome t w0 row u envb); eassumption.
  - intros [Ha9 Hb2].
    change w0 with (snd (solo enva 0 (start (refreshTokens enva t)) w0))
      in Hrun at 3.
    rewrite second_before_lookup in Hrun by (cbn; lia).
    cbn [Nat.add] in Hrun.
    rewrite (rotated_stays t w0 row u enva) in Hrun by assumption.
    replace (progress envb t w0 (steps_of false s1))
      with (fst (solo envb (steps_of false s1)
                   (start (refreshTokens envb t)) (rotated enva t w0)))
      in Hrun
      by (rewrite (prelude_any_world t w0 envb Hnb) by lia; reflexivity).
    rewrite first_committed in Hrun by assumption.
    injection Hrun as <- <- <-.
    split.
    + eapply (progress_outcome t w0 row u enva); eassumption.
    + eapply (lookup_fails t envb Hnb); [apply rotated_no_active|].
      exact Hb.
Qed.

(** When the first request has committed before the second looks the
    token up, the world at the end is the one the first request left. *)
Lemma serial_world s1 s2 a b w' :
  interleave enva envb (s1 ++ s2)%list
    (start (refreshTokens enva t)) (start (refreshTokens envb t)) w0
  = (a, b, w') ->
  (9 <= steps_of true s1)%nat /\ (steps_of false s1 <= 2)%nat ->
  refresh_tokens w' =
    save (stored_row enva (User.id u) (refreshToken_for u (now enva)))
         (save (RefreshToken.deactivate row) (refresh_tokens w0)).
Proof.
  intros Hrun [Ha9 Hb2]. rewrite interleave_app in Hrun.
  change (start (refreshTokens enva t)) with (progress enva t w0 0) in Hrun.
  change (start (refreshTokens envb t)) with (progress envb t w0 0) in Hrun.
  change w0 with (snd (solo enva 0 (start (refreshTokens enva t)) w0))
    in Hrun at 3.
  rewrite second_before_lookup in Hrun by (cbn; lia).
  cbn [Nat.add] in Hrun.
  rewrite (rotated_stays t w0 row u enva) in Hrun by assumption.
  replace (progress envb t w0 (steps_of false s1))
    with (fst (solo envb (steps_of false s1)
                 (start (refreshTokens envb t)) (rotated enva t w0)))
    in Hrun
    by (rewrite (prelude_any_world t w0 envb Hnb) by lia; reflexivity).
  rewrite first_committed in Hrun by assumption.
  injection Hrun as _ _ <-.
  apply (rotated_table t w0 row u enva); assumption.
Qed.

End TwoRequests.

(** A schedule that lets both requests look the token up can be cut at
    a point where both have looked it up and neither has committed, or at
    a point where one has committed and the other has not looked it up. *)
Lemma schedule_cut s :
  forall i j,
    (i <= 2 \/ j <= 2)%nat ->
    (3 <= i + steps_of true s)%nat ->
    (3 <= j + steps_of false s)%nat ->
    exists s1 s2,
      s = (s1 ++ s2)%list /\
      let i1 := (i + steps_of true s1)%nat in
      let j1 := (j + steps_of false s1)%nat in
      ((3 <= i1 <= 8)%nat /\ (3 <= j1 <= 8)%nat) \/
      ((9 <= i1)%nat /\ (j1 <= 2)%nat) \/
      ((9 <= j1)%nat /\ (i1 <= 2)%nat).
Proof.
  induction s as [|b s IH]; intros i j Hlow Hi Hj;
    cbn [steps_of Bool.eqb] in *; [lia|].
  destruct (Nat.le_gt_cases 9 i) as [Hi9|Hi9].
  { exists [], (b :: s). cbn. split; [reflexivity|]. lia. }
  destruct (Nat.le_gt_cases 9 j) as [Hj9|Hj9].
  { exists [], (b :: s). cbn. split; [reflexivity|]. lia. }
  destruct b; cbn [Bool.eqb] in *.
  - destruct (Nat.le_gt_cases (S i) 2) as [H2|H2];
      [|destruct (Nat.le_gt_cases j 2) as [H2'|H2']].
    + destruct (IH (S i) j) as (s1 & s2 & -> & H); [lia | lia | lia |].
      exists (true :: s1), s2. split; [reflexivity|].
      cbn [steps_of Bool.eqb]. cbv zeta in *. lia.
    + destruct (IH (S i) j) as (s1 & s2 & -> & H); [lia | lia | lia |].
      exists (true :: s1), s2. split; [reflexivity|].
      cbn [steps_of Bool.eqb]. cbv zeta in *. lia.
    + exists [true], s. split; [reflexivity|]. cbn. lia.
  - destruct (Nat.le_gt_cases (S j) 2) as [H2|H2];
      [|destruct (Nat.le_gt_cases i 2) as [H2'|H2']].
    + destruct (IH i (S j)) as (s1 & s2 & -> & H); [lia | lia | lia |].
      exists (false :: s1), s2. split; [reflexivity|].
      cbn [steps_of Bool.eqb]. cbv zeta in *. lia.
    + destruct (IH i (S j)) as (s1 & s2 & -> & H); [lia | lia | lia |].
      exists (false :: s1), s2. split; [reflexivity|].
      cbn [steps_of Bool.eqb]. cbv zeta in *. lia.
    + exists [false], s. split; [reflexivity|]. cbn. lia.
Qed.

Lemma prelude_running t w0 env k :
  (forall n, faults env n = None) ->
  (k <= 2)%nat ->
  outcome (progress env t w0 k) = None.
Proof.
  intros Hn Hk. unfold progress, start, refreshTokens.
  do 3 (destruct k as [|k];
        [repeat (cbn; rewrite ?Hn); reflexivity|]).
  lia.
Qed.

(** A request that has finished has been given at least three steps. *)
Lemma finished_second_looked_up t w0 enva envb s a b w' rb :
  (forall n, faults envb n = None) ->
  interleave enva envb s
    (start (refreshTokens enva t)) (start (refreshTokens envb t)) w0
  = (a, b, w') ->
  outcome b = Some rb ->
  (3 <= steps_of false s)%nat.
Proof.
  intros Hnb Hrun Hb.
  destruct (Nat.le_gt_cases 3 (steps_of false s)) as [H|H]; [exact H|].
  exfalso.
  pose proof (second_before_lookup t w0 enva envb Hnb s 0 0 ltac:(cbn; lia))
    as Hs.
  cbn [solo snd Nat.add] in Hs.
  change (progress enva t w0 0) with (start (refreshTokens enva t)) in Hs.
  change (progress envb t w0 0) with (start (refreshTokens envb t)) in Hs.
  rewrite Hs in Hrun. injection Hrun as _ <- _.
  rewrite prelude_running in Hb by (assumption || lia). discriminate Hb.
Qed.

(** C2 (amended).  Two [refreshTokens] requests for the same token,
    interleaved at their awaits, undisturbed by their collaborators; the
    token has a single active, unexpired row that is not blacklisted, and
    the replacement tokens differ from it.  Each request looks the token
    up at its third await and commits at its ninth.  For every schedule
    in which both requests finish:
    - cut at a point where both requests have looked the token up and
      neither has committed, both succeed; and when the identifiers drawn
      for the two replacement rows differ from each other and from that
      of the row found, the table at the end holds the active
      replacement row of each request and the found row deactivated;
    - cut at a point where one request has committed and the other has
      not yet looked the token up, the first succeeds and the other
      fails with [UnauthorizedException "Invalid refresh token"], and the
      table at the end is the one the first request committed: the found
      row deactivated and the one replacement row saved;
    - such a cut exists, so at least one request succeeds and a request
      that fails does so with "Invalid refresh token". *)
Theorem concurrent_rotation enva envb t w0 row u schedule a b w' ra rb :
  (forall n, faults enva n = None) ->
  (forall n, faults envb n = None) ->
  findOne t (refresh_tokens w0) = Some row ->
  (length (active_rows t (refresh_tokens w0)) <= 1)%nat ->
  find_user_by_id (RefreshToken.userId row) (users w0) = Some u ->
  now enva <= RefreshToken.expiresAt row ->
  now envb <= RefreshToken.expiresAt row ->
  truthy (cache_get (cache w0) (now enva) ("blacklist:" +:+ t)) = false ->
  truthy (cache_get (cache w0) (now envb) ("blacklist:" +:+ t)) = false ->
  refreshToken_for u (now enva) <> t ->
  refreshToken_for u (now envb) <> t ->
  interleave enva envb schedule
    (start (refreshTokens enva t)) (start (refreshTokens envb t)) w0
  = (a, b, w') ->
  outcome a = Some ra ->
  outcome b = Some rb ->
  (forall s1 s2, schedule = (s1 ++ s2)%list ->
     (3 <= steps_of true s1 <= 8)%nat /\ (3 <= steps_of false s1 <= 8)%nat ->
     succeeded ra = true /\ succeeded rb = true /\
     (uuidv4 enva <> uuidv4 envb ->
      uuidv4 enva <> RefreshToken.id row ->
      uuidv4 envb <> RefreshToken.id row ->
      In (stored_row enva (User.id u) (refreshToken_for u (now enva)))
         (refresh_tokens w') /\
      In (stored_row envb (User.id u) (refreshToken_for u (now envb)))
         (refresh_tokens w') /\
      In (RefreshToken.deactivate row) (refresh_tokens w'))) /\
  (forall s1 s2, schedule = (s1 ++ s2)%list ->
     (9 <= steps_of true s1)%nat /\ (steps_of false s1 <= 2)%nat ->
     succeeded ra = true /\ rb = Throw invalid_refresh_token /\
     refresh_tokens w' =
       save (stored_row enva (User.id u) (refreshToken_for u (now enva)))
            (save (RefreshToken.deactivate row) (refresh_tokens w0))) /\
  (forall s1 s2, schedule = (s1 ++ s2)%list ->
     (9 <= steps_of false s1)%nat /\ (steps_of true s1 <= 2)%nat ->
     succeeded rb = true /\ ra = Throw invalid_refresh_token /\
     refresh_tokens w' =
       save (stored_row envb (User.id u) (refreshToken_for u (now envb)))
            (save (RefreshToken.deactivate row) (refresh_tokens w0))) /\
  (succeeded ra = true \/ succeeded rb = true) /\
  (succeeded ra = false -> ra = Throw invalid_refresh_token) /\
  (succeeded rb = false -> rb = Throw invalid_refresh_token).
Proof.
  intros Hna Hnb Hfind Hone Huser Hexpa Hexpb Hbla Hblb Hfa Hfb Hrun Ha Hb.
  assert (Hea : (RefreshToken.expiresAt row <? now enva) = false)
    by (apply Z.ltb_ge; exact Hexpa).
  assert (Heb : (RefreshToken.expiresAt row <? now envb) = false)
    by (apply Z.ltb_ge; exact Hexpb).
  assert (Hswap :
    interleave envb enva (map negb schedule)
      (start (refreshTokens envb t)) (start (refreshTokens enva t)) w0
    = (b, a, w'))
    by (rewrite interleave_swap, Hrun; reflexivity).
  assert (C1 : forall s1 s2, schedule = (s1 ++ s2)%list ->
     (3 <= steps_of true s1 <= 8)%nat /\ (3 <= steps_of false s1 <= 8)%nat ->
     succeeded ra = true /\ succeeded rb = true /\
     (uuidv4 enva <> uuidv4 envb ->
      uuidv4 enva <> RefreshToken.id row ->
      uuidv4 envb <> RefreshToken.id row ->
      In (stored_row enva (User.id u) (refreshToken_for u (now enva)))
         (refresh_tokens w') /\
      In (stored_row envb (User.id u) (refreshToken_for u (now envb)))
         (refresh_tokens w') /\
      In (RefreshToken.deactivate row) (refresh_tokens w'))).
  { intros s1 s2 -> H.
    destruct (proj1 (race_outcomes t w0 row u enva envb Hna Hnb Hfind Huser
                       Hea Heb Hbla Hblb Hone Hfa s1 s2 a b w' ra rb
                       Hrun Ha Hb) H) as [Ra Rb].
    split; [exact Ra|]. split; [exact Rb|].
    intros Hab Har Hbr.
    exact (race_rows t w0 row u enva envb Hna Hnb Hfind Huser
             Hea Heb Hbla Hblb s1 s2 a b w' ra rb Hrun Ha Hb H
             Hab Har Hbr). }
  assert (C2 : forall s1 s2, schedule = (s1 ++ s2)%list ->
     (9 <= steps_of true s1)%nat /\ (steps_of false s1 <= 2)%nat ->
     succeeded ra = true /\ rb = Throw invalid_refresh_token /\
     refresh_tokens w' =
       save (stored_row enva (User.id u) (refreshToken_for u (now enva)))
            (save (RefreshToken.deactivate row) (refresh_tokens w0))).
  { intros s1 s2 -> H.
    destruct (proj2 (race_outcomes t w0 row u enva envb Hna Hnb Hfind Huser
                       Hea Heb Hbla Hblb Hone Hfa s1 s2 a b w' ra rb
                       Hrun Ha Hb) H) as [Ra Rb].
    split; [exact Ra|]. split; [exact Rb|].
    exact (serial_world t w0 row u enva envb Hna Hnb Hfind Huser
             Hea Hbla Hone Hfa s1 s2 a b w' Hrun H). }
  assert (C3 : forall s1 s2, schedule = (s1 ++ s2)%list ->
     (9 <= steps_of false s1)%nat /\ (steps_of true s1 <= 2)%nat ->
     succeeded rb = true /\ ra = Throw invalid_refresh_token /\
     refresh_tokens w' =
       save (stored_row envb (User.id u) (refreshToken_for u (now envb)))
            (save (RefreshToken.deactivate row) (refresh_tokens w0))).
  { intros s1 s2 -> [H9 H2]. rewrite map_app in Hswap.
    assert (Hs : (9 <= steps_of true (map negb s1))%nat /\
                 (steps_of false (map negb s1) <= 2)%nat)
      by (rewrite !steps_of_negb; cbn [negb]; split; assumption).
    destruct (proj2 (race_outcomes t w0 row u envb enva Hnb Hna Hfind Huser
                       Heb Hea Hblb Hbla Hone Hfb _ _ b a w' rb ra
                       Hswap Hb Ha) Hs) as [Rb Ra].
    split; [exact Rb|]. split; [exact Ra|].
    exact (serial_world t w0 row u envb enva Hnb Hna Hfind Huser
             Heb Hblb Hone Hfb _ _ b a w' Hswap Hs). }
  split; [exact C1|]. split; [exact C2|]. split; [exact C3|].
  assert (Hb3 : (3 <= steps_of false schedule)%nat)
    by (eapply finished_second_looked_up; eassumption).
  assert (Ha3 : (3 <= steps_of true schedule)%nat).
  { pose proof (finished_second_looked_up t w0 envb enva _ b a w' ra
                  Hna Hswap Ha) as H.
    rewrite steps_of_negb in H. exact H. }
  destruct (schedule_cut schedule 0 0) as (s1 & s2 & Hcut & Hcase);
    [lia | exact Ha3 | exact Hb3 |].
  cbn [Nat.add] in Hcase.
  destruct Hcase as [H|[H|H]].
  - destruct (C1 s1 s2 Hcut H) as (Ra & Rb & _).
    rewrite Ra, Rb. repeat split; auto; discriminate.
  - destruct (C2 s1 s2 Hcut H) as (Ra & -> & _).
    rewrite Ra. repeat split; auto; discriminate.
  - destruct (C3 s1 s2 Hcut H) as (Rb & -> & _).
    rewrite Rb. repeat split; auto; discriminate.
Qed.

(** ** Further properties of the service *)

(** *** Bulk deactivation *)

Lemma deactivate_inactive r :
  RefreshToken.isActive r = false -> RefreshToken.deactivate r = r.
Proof. destruct r as [i t u e a]. cbn. intros ->. reflexivity. Qed.

Lemma update_inactive_any_scope uid rows :
  update_inactive uid true rows = update_inactive uid false rows.
Proof.
  unfold update_inactive. apply map_ext. intros r.
  destruct (String.eqb (RefreshToken.userId r) uid); cbn; [|reflexivity].
  destruct (RefreshToken.isActive r) eqn:Ha; [reflexivity|].
  rewrite deactivate_inactive by exact Ha. reflexivity.
Qed.

Lemma update_inactive_length uid b rows :
  length (update_inactive uid b rows) = length rows.
Proof. unfold update_inactive. apply length_map. Qed.

Lemma update_inactive_other uid b rows r :
  In r rows -> RefreshToken.userId r <> uid ->
  In r (update_inactive uid b rows).
Proof.
  unfold update_inactive. intros Hin Hne. apply in_map_iff. exists r.
  split; [|exact Hin].
  destruct (String.eqb_spec (RefreshToken.userId r) uid);
    [contradiction | reflexivity].
Qed.

Lemma update_inactive_ids uid b rows : ids_kept rows (update_inactive uid b rows).
Proof.
  unfold ids_kept, update_inactive. intros r Hin.
  eexists. split; [apply in_map; exact Hin|].
  destruct (_ && _); reflexivity.
Qed.

(** Deactivating the rows of one user changes nothing for the lookup of a
    token that none of that user's rows carries. *)
Lemma findOne_update_inactive uid b t rows :
  (forall r, In r rows -> RefreshToken.token r = t ->
             RefreshToken.userId r <> uid) ->
  findOne t (update_inactive uid b rows) = findOne t rows.
Proof.
  unfold findOne, update_inactive. intros H. f_equal.
  induction rows as [|r rows IH]; [reflexivity|].
  cbn [map List.filter].
  rewrite IH by (intros x Hx; apply H; right; exact Hx).
  destruct (String.eqb_spec (RefreshToken.userId r) uid) as [Hu|Hu];
    cbn [andb]; [|reflexivity].
  assert (Ht : String.eqb (RefreshToken.token r) t = false).
  { apply String.eqb_neq. intros Ht.
    exact (H r (or_introl eq_refl) Ht Hu). }
  destruct (negb b || RefreshToken.isActive r); cbn; rewrite Ht; reflexivity.
Qed.

(** X1.  [revokeAllRefreshTokens] either throws and changes nothing or
    returns having touched only the table of refresh tokens: as many rows
    as before, every row of the user inactive, the rows of other users as
    they were, and the table exactly as the update of [logout] leaves it.
    A [refreshTokens] with a token carried only by rows of that user then
    cannot succeed. *)
Theorem revokeAllRefreshTokens_postcondition env userId w :
  let result := run env (revokeAllRefreshTokens userId) w in
  users (snd result) = users w /\
  cache (snd result) = cache w /\
  length (refresh_tokens (snd result)) = length (refresh_tokens w) /\
  match fst result with
  | Throw _ => snd result = w
  | Ok _ =>
      refresh_tokens (snd result)
        = update_inactive userId true (refresh_tokens w) /\
      (forall r, In r (refresh_tokens (snd result)) ->
                 RefreshToken.userId r = userId ->
                 RefreshToken.isActive r = false) /\
      (forall r, In r (refresh_tokens w) -> RefreshToken.userId r <> userId ->
                 In r (refresh_tokens (snd result))) /\
      (forall env2 t,
         (forall r, In r (refresh_tokens w) -> RefreshToken.token r = t ->
                    RefreshToken.userId r = userId) ->
         succeeded (fst (run env2 (refreshTokens env2 t) (snd result))) = false)
  end.
Proof.
  unfold run, revokeAllRefreshTokens. destruct w as [us rts c]. cbn.
  destruct (faults env 0) as [e|]; cbn; [repeat split; reflexivity|].
  rewrite update_inactive_length.
  split; [reflexivity|]. split; [reflexivity|]. split; [reflexivity|].
  split; [symmetry; apply update_inactive_any_scope|].
  rewrite <- update_inactive_any_scope.
  split; [|split].
  - intros r Hr Hu. apply update_inactive_In in Hr as [_ Hr]. auto.
  - intros r Hr Hne. apply update_inactive_other; assumption.
  - intros env2 t Hown.
    apply (refreshTokens_no_active env2 t
             (mkWorld us (update_inactive userId true rts) c)).
    apply findOne_None. intros x Hx Ht.
    apply update_inactive_In in Hx as [(y & Hy & Hty & Huy) Hx].
    apply Hx. rewrite Huy. apply Hown; [exact Hy | congruence].
Qed.

(** *** Logout, the other paths *)

(** X2.  A [logout] with an access token that has no lifetime left (it does
    not decode, carries no [exp], or its [exp] is not beyond the clock
    reading in whole seconds) writes nothing to the cache: no blacklist
    entry is made.  Its only awaited call is the update, which deactivates
    the rows of the user; when that call is rejected, the exception is
    passed on and nothing has changed. *)
Theorem logout_without_lifetime env accessToken userId w :
  no_lifetime_left (decode (jwtService deps) accessToken) (now env) = true ->
  run env (logout env accessToken userId) w =
    match faults env 0%nat with
    | Some e => (Throw e, w)
    | None =>
        (Ok tt, mkWorld (users w)
                  (update_inactive userId true (refresh_tokens w)) (cache w))
    end.
Proof.
  unfold no_lifetime_left, run, logout. intros H.
  destruct (decode (jwtService deps) accessToken) as [[[e|]]|]; cbn.
  - destruct (e =? 0); cbn in *.
    + destruct (faults env 0); reflexivity.
    + apply negb_true_iff in H. rewrite H. cbn.
      destruct (faults env 0); reflexivity.
  - destruct (faults env 0); reflexivity.
  - destruct (faults env 0); reflexivity.
Qed.

(** X3.  [logout] is two independent writes, not a transaction.  For an
    access token with lifetime left: when the cache write is rejected,
    the exception is passed on with nothing changed, the rows of the user
    still active; when the cache write goes through and the update is
    rejected, the exception is passed on, the access token stays
    blacklisted and the table of refresh tokens is as it was, the rows of
    the user still active. *)
Theorem logout_not_atomic env accessToken userId e w :
  decode (jwtService deps) accessToken = Some (mkJwtClaims (Some e)) ->
  e <> 0 ->
  now env / 1000 < e ->
  (forall ex, faults env 0%nat = Some ex ->
     run env (logout env accessToken userId) w = (Throw ex, w)) /\
  (forall ex, faults env 0%nat = None -> faults env 1%nat = Some ex ->
     let result := run env (logout env accessToken userId) w in
     fst result = Throw ex /\
     users (snd result) = users w /\
     refresh_tokens (snd result) = refresh_tokens w /\
     cache (snd result) =
       cache_set (cache w) (now env) ("blacklist:" +:+ accessToken)
                 (JsBool true) ((e - now env / 1000) * 1000)).
Proof.
  intros Hdec He Hexp. unfold run, logout. rewrite Hdec.
  apply Z.eqb_neq in He. rewrite He. cbn.
  assert (Httl : (0 <? e - now env / 1000) = true) by (apply Z.ltb_lt; lia).
  rewrite Httl. cbn. split.
  - intros ex ->. reflexivity.
  - intros ex -> . cbn. intros ->. cbn. repeat split; reflexivity.
Qed.

(** *** What each method can touch *)

Lemma save_ids r rows : ids_kept rows (save r rows).
Proof.
  unfold ids_kept. intros x Hx.
  destruct (String.eqb_spec (RefreshToken.id x) (RefreshToken.id r)) as [E|E].
  - exists r. split; [apply save_In | symmetry; exact E].
  - exists x. split; [apply save_keeps; assumption | reflexivity].
Qed.

Lemma save_length r rows : (length rows <= length (save r rows))%nat.
Proof.
  unfold save. destruct (existsb _ rows).
  - rewrite length_map. lia.
  - rewrite length_app. cbn. lia.
Qed.

Lemma ids_kept_refl rows : ids_kept rows rows.
Proof. intros r Hr. exists r. auto. Qed.

Lemma ids_kept_trans a b c : ids_kept a b -> ids_kept b c -> ids_kept a c.
Proof.
  intros Hab Hbc r Hr. destruct (Hab r Hr) as (r' & Hr' & E).
  destruct (Hbc r' Hr') as (r'' & Hr'' & E'). exists r''.
  split; [exact Hr'' | congruence].
Qed.

Lemma table_step_keeps rows rows' :
  table_step rows rows' ->
  ids_kept rows rows' /\ (length rows <= length rows')%nat.
Proof.
  intros [| r | r r' | uid b].
  - split; [apply ids_kept_refl | lia].
  - split; [apply save_ids | apply save_length].
  - split; [eapply ids_kept_trans; apply save_ids|].
    pose proof (save_length r rows).
    pose proof (save_length r' (save r rows)). lia.
  - split; [apply update_inactive_ids|].
    rewrite update_inactive_length. lia.
Qed.

Lemma login_world env dto w :
  let result := run env (login env dto) w in
  users (snd result) = users w /\
  (forall key, key <> "attempts:" +:+ login_email dto ->
               key <> "lockout:" +:+ login_email dto ->
               cache (snd result) !! key = cache w !! key) /\
  match fst result with
  | Throw _ => refresh_tokens (snd result) = refresh_tokens w
  | Ok resp =>
      refresh_tokens (snd result) =
        save (stored_row env (summary_id (user resp)) (refreshToken resp))
             (refresh_tokens w)
  end.
Proof.
  destruct dto as [email password], w as [us rts c].
  cbn [login_email login_password].
  destruct (run env (login env (mkLoginDto email password))
              (mkWorld us rts c)) as [r w'] eqn:Hrun.
  unfold run, login, stored_row in *. cbn [fst snd].
  run_cases Hrun; injection Hrun as <- <-; cbn;
    (split; [reflexivity|]); (split; [|reflexivity]);
    intros key Ha Hl; unfold cache_set, cache_del;
    rewrite ?lookup_delete_ne, ?lookup_insert_ne by congruence;
    reflexivity.
Qed.

Lemma register_world env dto w :
  let result := run env (register env dto) w in
  cache (snd result) = cache w /\
  (users (snd result) = users w \/
   users (snd result) = (users w ++ [created_user env dto])%list) /\
  match fst result with
  | Throw _ => refresh_tokens (snd result) = refresh_tokens w
  | Ok resp =>
      users (snd result) = (users w ++ [created_user env dto])%list /\
      refresh_tokens (snd result) =
        save (stored_row env (summary_id (user resp)) (refreshToken resp))
             (refresh_tokens w)
  end.
Proof.
  destruct dto as [email name password role], w as [us rts c].
  destruct (run env (register env (mkCreateUserDto email name password role))
              (mkWorld us rts c)) as [r w'] eqn:Hrun.
  unfold run, register, UsersService_create, stored_row, created_user in *.
  cbn [fst snd].
  run_cases Hrun; injection Hrun as <- <-; cbn;
    repeat match goal with
           | H : String.eqb _ _ = _ |- _ => rewrite H; clear H
           end;
    auto.
Qed.

Lemma refreshTokens_world env t w :
  let result := run env (refreshTokens env t) w in
  users (snd result) = users w /\
  cache (snd result) = cache w /\
  match fst result with
  | Throw _ => refresh_tokens (snd result) = refresh_tokens w
  | Ok resp =>
      exists row,
        refresh_tokens (snd result) =
          save (stored_row env (summary_id (user resp)) (refreshToken resp))
               (save (RefreshToken.deactivate row) (refresh_tokens w))
  end.
Proof.
  destruct w as [us rts c].
  destruct (run env (refreshTokens env t) (mkWorld us rts c))
    as [r w'] eqn:Hrun.
  unfold run, refreshTokens, stored_row in *. cbn [fst snd].
  run_cases Hrun; injection Hrun as <- <-; cbn; repeat split; eauto.
Qed.

Lemma logout_world env accessToken userId w :
  let result := run env (logout env accessToken userId) w in
  users (snd result) = users w /\
  (forall key, key <> "blacklist:" +:+ accessToken ->
               cache (snd result) !! key = cache w !! key) /\
  match fst result with
  | Throw _ => refresh_tokens (snd result) = refresh_tokens w
  | Ok _ =>
      refresh_tokens (snd result) =
        update_inactive userId true (refresh_tokens w)
  end.
Proof.
  destruct w as [us rts c].
  destruct (run env (logout env accessToken userId) (mkWorld us rts c))
    as [r w'] eqn:Hrun.
  unfold run, logout in *. cbn [fst snd].
  run_cases Hrun; injection Hrun as <- <-; cbn;
    (split; [reflexivity|]); (split; [|reflexivity]);
    intros key Hk; unfold cache_set;
    rewrite ?lookup_insert_ne by congruence; reflexivity.
Qed.

Lemma revokeAllRefreshTokens_world env userId w :
  let result := run env (revokeAllRefreshTokens userId) w in
  users (snd result) = users w /\
  cache (snd result) = cache w /\
  match fst result with
  | Throw _ => refresh_tokens (snd result) = refresh_tokens w
  | Ok _ =>
      refresh_tokens (snd result) =
        update_inactive userId false (refresh_tokens w)
  end.
Proof.
  destruct w as [us rts c]. unfold run, revokeAllRefreshTokens. cbn.
  destruct (faults env 0); cbn; auto.
Qed.

Lemma blacklist_key_inj t t' : t <> t' -> "blacklist:" +:+ t <> "blacklist:" +:+ t'.
Proof.
  intros Hne H. apply Hne.
  apply (inj (String.append "blacklist:")). exact H.
Qed.

Lemma blacklist_attempts_keys t email :
  "blacklist:" +:+ t <> "attempts:" +:+ email.
Proof. cbn. discriminate. Qed.

Lemma blacklist_lockout_keys t email :
  "blacklist:" +:+ t <> "lockout:" +:+ email.
Proof. cbn. discriminate. Qed.

Lemma cache_get_lookup (c c' : gmap string CacheEntry) t key :
  c' !! key = c !! key -> cache_get c' t key = cache_get c t key.
Proof. unfold cache_get. intros ->. reflexivity. Qed.

Lemma world_after_table env call w :
  table_step (refresh_tokens w) (refresh_tokens (world_after env call w)).
Proof.
  destruct call as [dto|dto|t|a u|u]; cbn [world_after].
  - pose proof (login_world env dto w) as (_ & _ & H). cbv zeta in H.
    destruct (fst (run env (login env dto) w)); rewrite H; constructor.
  - pose proof (register_world env dto w) as (_ & _ & H). cbv zeta in H.
    destruct (fst (run env (register env dto) w));
      [destruct H as [_ H]|]; rewrite H; constructor.
  - pose proof (refreshTokens_world env t w) as (_ & _ & H). cbv zeta in H.
    destruct (fst (run env (refreshTokens env t) w));
      [destruct H as [row H]|]; rewrite H; constructor.
  - pose proof (logout_world env a u w) as (_ & _ & H). cbv zeta in H.
    destruct (fst (run env (logout env a u) w)); rewrite H; constructor.
  - pose proof (revokeAllRefreshTokens_world env u w) as (_ & _ & H).
    cbv zeta in H.
    destruct (fst (run env (revokeAllRefreshTokens u) w)); rewrite H;
      constructor.
Qed.

(** X4.  No method of the service deletes a row of the table of refresh
    tokens, in any environment and whatever its outcome: every row is
    still there afterwards, by its primary key, and the table has not
    become shorter.  Spent, revoked and expired rows are kept. *)
Theorem refresh_token_rows_never_deleted env call w :
  ids_kept (refresh_tokens w) (refresh_tokens (world_after env call w)) /\
  (length (refresh_tokens w)
   <= length (refresh_tokens (world_after env call w)))%nat.
Proof. apply table_step_keeps, world_after_table. Qed.

(** X5.  The key [blacklist:<t>] that [refreshTokens t] reads is written by
    one call only, a [logout] given [t] itself as its access token: after
    any other call of the service, in any environment and whatever its
    outcome, the key is in the cache as it was before. *)
Theorem blacklist_written_only_by_logout env call w t :
  (forall userId, call <> call_logout t userId) ->
  cache (world_after env call w) !! ("blacklist:" +:+ t)
  = cache w !! ("blacklist:" +:+ t).
Proof.
  intros Hcall. destruct call as [dto|dto|t'|a u|u]; cbn [world_after].
  - apply (login_world env dto w);
      [apply blacklist_attempts_keys | apply blacklist_lockout_keys].
  - destruct (register_world env dto w) as (-> & _). reflexivity.
  - destruct (refreshTokens_world env t' w) as (_ & -> & _). reflexivity.
  - apply (logout_world env a u w). apply blacklist_key_inj.
    intros ->. exact (Hcall u eq_refl).
  - destruct (revokeAllRefreshTokens_world env u w) as (_ & -> & _).
    reflexivity.
Qed.

(** *** Login, the other paths *)

Lemma login_valid_run env dto w u :
  (forall n, faults env n = None) ->
  truthy (cache_get (cache w) (now env) ("lockout:" +:+ login_email dto))
    = false ->
  find_user_by_email (login_email dto) (users w) = Some u ->
  bcrypt_compare deps (login_password dto) (User.password u) = true ->
  run env (login env dto) w =
    (Ok (mkAuthResponseDto (accessToken_for u 0 (now env))
                           (refreshToken_for u (now env))
                           (summary u)),
     mkWorld (users w)
       (save (stored_row env (User.id u) (refreshToken_for u (now env)))
             (refresh_tokens w))
       (cache_del (cache w) ("attempts:" +:+ login_email dto))).
Proof.
  intros Hn Hl Hu Hp. unfold run, login, accessToken_for, refreshToken_for,
    stored_row.
  destruct dto as [email password], w as [us rts c]. cbn in *.
  rewrite !Hn. cbn. rewrite Hl. cbn. rewrite !Hn. cbn. rewrite Hu. cbn.
  rewrite !Hn. cbn. rewrite Hp. cbn. rewrite !Hn. cbn. reflexivity.
Qed.

(** X6.  A login undisturbed by its collaborators, with no lockout flag
    reading, for an email the directory has and a password that matches
    the stored hash, returns the pair signed at the clock reading of the
    call and the summary of the user, stores one refresh-token row, which
    is then in the table, and deletes the attempt counter.  The access
    token carries token version 0 whatever the directory holds for the
    user: the lookup by email selects no [tokenVersion] column, and the
    payload falls back to 0. *)
Theorem login_success env dto w u :
  (forall n, faults env n = None) ->
  truthy (cache_get (cache w) (now env) ("lockout:" +:+ login_email dto))
    = false ->
  find_user_by_email (login_email dto) (users w) = Some u ->
  bcrypt_compare deps (login_password dto) (User.password u) = true ->
  let issued := stored_row env (User.id u) (refreshToken_for u (now env)) in
  run env (login env dto) w =
    (Ok (mkAuthResponseDto (accessToken_for u 0 (now env))
                           (refreshToken_for u (now env))
                           (summary u)),
     mkWorld (users w) (save issued (refresh_tokens w))
       (cache_del (cache w) ("attempts:" +:+ login_email dto))) /\
  In issued (refresh_tokens (snd (run env (login env dto) w))) /\
  cache_get (cache (snd (run env (login env dto) w))) (now env)
            ("attempts:" +:+ login_email dto) = None.
Proof.
  intros Hn Hl Hu Hp issued.
  rewrite (login_valid_run env dto w u Hn Hl Hu Hp). cbn [snd refresh_tokens cache].
  split; [reflexivity|]. split; [apply save_In|].
  unfold cache_get, cache_del. rewrite lookup_delete_eq. reflexivity.
Qed.

(** X7.  The cache is no part of the transaction of a login.  When the
    credentials are valid and the deletion of the attempt counter has
    gone through, a login that then throws does so because a signature,
    the save or the commit was rejected; it rolls back the table of
    refresh tokens, yet the counter stays deleted. *)
Theorem login_failure_keeps_counter_cleared env dto w u ex :
  (forall n, (n <= 5)%nat -> faults env n = None) ->
  truthy (cache_get (cache w) (now env) ("lockout:" +:+ login_email dto))
    = false ->
  find_user_by_email (login_email dto) (users w) = Some u ->
  bcrypt_compare deps (login_password dto) (User.password u) = true ->
  fst (run env (login env dto) w) = Throw ex ->
  snd (run env (login env dto) w) =
    mkWorld (users w) (refresh_tokens w)
            (cache_del (cache w) ("attempts:" +:+ login_email dto)) /\
  exists n, (6 <= n <= 9)%nat /\ faults env n = Some ex.
Proof.
  intros Hn Hl Hu Hp. unfold run, login.
  destruct dto as [email password], w as [us rts c]. cbn in *.
  rewrite !Hn by lia. cbn. rewrite Hl. cbn. rewrite !Hn by lia. cbn.
  rewrite Hu. cbn. rewrite !Hn by lia. cbn. rewrite Hp. cbn.
  rewrite !Hn by lia. cbn.
  destruct (faults env 6) eqn:F6; cbn;
    [intros [= <-]; split; [reflexivity | exists 6%nat; split; [lia|auto]]|].
  destruct (faults env 7) eqn:F7; cbn;
    [intros [= <-]; split; [reflexivity | exists 7%nat; split; [lia|auto]]|].
  destruct (faults env 8) eqn:F8; cbn;
    [intros [= <-]; split; [reflexivity | exists 8%nat; split; [lia|auto]]|].
  destruct (faults env 9) eqn:F9; cbn;
    [intros [= <-]; split; [reflexivity | exists 9%nat; split; [lia|auto]]|].
  discriminate.
Qed.

(** *** Rotation, the path that succeeds *)

Lemma refreshTokens_valid_run env t w row u :
  (forall n, faults env n = None) ->
  findOne t (refresh_tokens w) = Some row ->
  now env <= RefreshToken.expiresAt row ->
  truthy (cache_get (cache w) (now env) ("blacklist:" +:+ t)) = false ->
  find_user_by_id (RefreshToken.userId row) (users w) = Some u ->
  run env (refreshTokens env t) w =
    (Ok (mkAuthResponseDto
           (accessToken_for u (default 0 (User.tokenVersion u)) (now env))
           (refreshToken_for u (now env))
           (summary u)),
     mkWorld (users w)
       (save (stored_row env (User.id u) (refreshToken_for u (now env)))
             (save (RefreshToken.deactivate row) (refresh_tokens w)))
       (cache w)).
Proof.
  intros Hn Hf Hexp Hbl Hu. unfold run, refreshTokens, accessToken_for,
    refreshToken_for, stored_row.
  destruct w as [us rts c]. cbn in *.
  rewrite !Hn. cbn. rewrite Hf. cbn. rewrite Hu. cbn.
  destruct (Z.ltb_spec (RefreshToken.expiresAt row) (now env)); [lia|].
  cbn. rewrite !Hn. cbn. rewrite Hbl. cbn. rewrite !Hn. cbn. reflexivity.
Qed.

(** X8.  Undisturbed by its collaborators, [refreshTokens t] succeeds
    exactly when the row looked up, of the active rows carrying [t] the
    one with the smallest primary key, has not expired (a row whose
    [expiresAt] equals the clock reading is still accepted),
    the key [blacklist:<t>] does not read truthy, and the user of the row
    is in the directory.  It then returns the pair signed for that user
    at the clock reading, the access token carrying the token version the
    directory holds for the user, and commits the deactivated row and the
    replacement row together. *)
Theorem refreshTokens_success env t w :
  (forall n, faults env n = None) ->
  (succeeded (fst (run env (refreshTokens env t) w)) = true <->
   exists row u,
     findOne t (refresh_tokens w) = Some row /\
     now env <= RefreshToken.expiresAt row /\
     truthy (cache_get (cache w) (now env) ("blacklist:" +:+ t)) = false /\
     find_user_by_id (RefreshToken.userId row) (users w) = Some u) /\
  (forall row u,
     findOne t (refresh_tokens w) = Some row ->
     now env <= RefreshToken.expiresAt row ->
     truthy (cache_get (cache w) (now env) ("blacklist:" +:+ t)) = false ->
     find_user_by_id (RefreshToken.userId row) (users w) = Some u ->
     run env (refreshTokens env t) w =
       (Ok (mkAuthResponseDto
              (accessToken_for u (default 0 (User.tokenVersion u)) (now env))
              (refreshToken_for u (now env))
              (summary u)),
        mkWorld (users w)
          (save (stored_row env (User.id u) (refreshToken_for u (now env)))
                (save (RefreshToken.deactivate row) (refresh_tokens w)))
          (cache w))).
Proof.
  intros Hn. split.
  - split.
    + destruct (run env (refreshTokens env t) w) as [[resp|e] w'] eqn:Hrun;
        cbn; [intros _ | discriminate].
      apply refreshTokens_inv in Hrun
        as (row & u & Hf & Hu & Hexp & Hbl & _).
      exists row, u. apply Z.ltb_ge in Hexp. auto.
    + intros (row & u & Hf & Hexp & Hbl & Hu).
      rewrite (refreshTokens_valid_run env t w row u Hn Hf Hexp Hbl Hu).
      reflexivity.
  - intros row u. apply refreshTokens_valid_run. exact Hn.
Qed.

(** *** UsersService *)

Lemma find_user_by_email_Some e us u :
  find_user_by_email e us = Some u -> In u us /\ User.email u = e.
Proof.
  unfold find_user_by_email. intros H. apply find_some in H as [Hin He].
  apply String.eqb_eq in He. auto.
Qed.

Lemma find_user_by_email_None e us :
  find_user_by_email e us = None ->
  forall u, In u us -> User.email u <> e.
Proof.
  unfold find_user_by_email. intros H u Hin He.
  pose proof (find_none _ _ H u Hin) as Hf. cbn in Hf.
  apply String.eqb_neq in Hf. contradiction.
Qed.

Lemma find_user_by_email_app e us u :
  find_user_by_email e us = None -> User.email u = e ->
  find_user_by_email e (us ++ [u]) = Some u.
Proof.
  unfold find_user_by_email. intros Hnone He.
  induction us as [|x us IH]; cbn in *.
  - rewrite He, String.eqb_refl. reflexivity.
  - destruct (String.eqb (User.email x) e); [discriminate|]. auto.
Qed.

(** X9.  [UsersService.findByEmail] only reads.  It returns the first user
    of the directory with the email asked for, reduced to the selected
    columns: the password hash is kept, the token version is not loaded;
    it returns nothing when no user has that email.  Whatever exception
    the repository raises, the caller sees one and the same
    [BadRequestException "Failed to fetch user by email"]. *)
Theorem UsersService_findByEmail_outcomes env email w :
  let result := run env (UsersService_findByEmail email) w in
  snd result = w /\
  match fst result with
  | Ok (Some u) =>
      exists stored,
        find_user_by_email email (users w) = Some stored /\
        In stored (users w) /\
        u = select_for_auth stored /\
        User.email u = email /\
        User.password u = User.password stored /\
        User.tokenVersion u = None
  | Ok None => forall stored, In stored (users w) -> User.email stored <> email
  | Throw e =>
      e = BadRequestException "Failed to fetch user by email" /\
      faults env 0%nat <> None
  end.
Proof.
  unfold run, UsersService_findByEmail. cbn.
  destruct (faults env 0) as [e|] eqn:F; cbn.
  - split; [reflexivity|]. split; [reflexivity | discriminate].
  - split; [reflexivity|].
    destruct (find_user_by_email email (users w)) as [stored|] eqn:Hf.
    + exists stored. destruct (find_user_by_email_Some _ _ _ Hf) as [Hin He].
      cbn. auto 10.
    + apply find_user_by_email_None. exact Hf.
Qed.

(** X10.  The outcomes of [UsersService.create], in every environment.  It
    returns only when no user had the email, and then the user returned
    is the one appended to the directory: the password stored is the hash
    of the given one with 10 salt rounds, never the password itself
    passed through, and the role is the given one or, without one, the
    default role.  Otherwise it throws one of four exceptions, with
    nothing changed: the masked lookup failure, the conflict naming the
    email, the conflict for a unique-constraint violation reported by the
    database, or the catch-all [BadRequestException]. *)
Theorem UsersService_create_outcomes env dto w :
  let result := run env (UsersService_create dto) w in
  match fst result with
  | Ok u =>
      find_user_by_email (dto_email dto) (users w) = None /\
      u = created_user env dto /\
      User.password u = bcrypt_hash deps (dto_password dto) 10 /\
      snd result = mkWorld (users w ++ [u])%list (refresh_tokens w) (cache w)
  | Throw e =>
      snd result = w /\
      (e = BadRequestException "Failed to fetch user by email" \/
       (e = ConflictException
              ("User with email " +:+ dto_email dto +:+ " already exists") /\
        find_user_by_email (dto_email dto) (users w) <> None) \/
       (e = ConflictException "Email already exists" /\
        exists n message,
          (1 <= n <= 2)%nat /\
          faults env n = Some (QueryFailedError message) /\
          includes message "unique constraint" = true) \/
       e = BadRequestException "Failed to create user")
  end.
Proof.
  destruct dto as [email name password role], w as [us rts c].
  destruct (run env (UsersService_create
                       (mkCreateUserDto email name password role))
              (mkWorld us rts c)) as [r w'] eqn:Hrun.
  unfold run, UsersService_create, created_user in *. cbn [fst snd].
  cbn [dto_email dto_name dto_password dto_role users refresh_tokens cache].
  run_cases Hrun; injection Hrun as <- <-; cbn;
    repeat match goal with
           | H : String.eqb _ _ = _ |- _ => rewrite H; clear H
           end;
    try (split; [reflexivity|]); auto 8.
  all: try (match goal with
            | H : match find_user_by_email ?e ?us with _ => _ end = _ |- _ =>
                destruct (find_user_by_email e us) eqn:Hfind;
                  try discriminate H
            end).
  all: try (repeat split; reflexivity).
  all: try (right; left; split; [reflexivity | congruence]).
  all: try (right; right; left; split; [reflexivity|]; do 2 eexists;
            split; [|split; [eassumption | assumption]]; lia).
Qed.

(** *** Registration, path by path *)

Lemma register_valid_run env dto w :
  (forall n, faults env n = None) ->
  find_user_by_email (dto_email dto) (users w) = None ->
  let u := created_user env dto in
  run env (register env dto) w =
    (Ok (mkAuthResponseDto
           (accessToken_for u (default 0 (User.tokenVersion u)) (now env))
           (refreshToken_for u (now env))
           (summary u)),
     mkWorld (users w ++ [u])%list
       (save (stored_row env (User.id u) (refreshToken_for u (now env)))
             (refresh_tokens w))
       (cache w)).
Proof.
  intros Hn Hnone. unfold run, register, UsersService_create, accessToken_for,
    refreshToken_for, stored_row, created_user.
  destruct dto as [email name password role], w as [us rts c]. cbn in *.
  rewrite !Hn. cbn. rewrite Hnone. cbn. rewrite !Hn. cbn. rewrite Hnone. cbn.
  rewrite !Hn. cbn. reflexivity.
Qed.

Lemma register_known_email env dto w u :
  find_user_by_email (dto_email dto) (users w) = Some u ->
  succeeded (fst (run env (register env dto) w)) = false /\
  snd (run env (register env dto) w) = w /\
  ((forall n, faults env n = None) ->
   fst (run env (register env dto) w) =
     Throw (BadRequestException "User with this email already exists")).
Proof.
  intros Hu. unfold run, register.
  destruct dto as [email name password role], w as [us rts c]. cbn in *.
  destruct (faults env 0) eqn:F0; cbn;
    [repeat split; try reflexivity; intros Hn; rewrite Hn in F0; discriminate|].
  destruct (faults env 1) eqn:F1; cbn;
    [repeat split; try reflexivity; intros Hn; rewrite Hn in F1; discriminate|].
  destruct (faults env 2) eqn:F2; cbn;
    [repeat split; try reflexivity; intros Hn; rewrite Hn in F2; discriminate|].
  rewrite Hu. cbn. repeat split; reflexivity.
Qed.

(** X11.  A registration undisturbed by its collaborators, for an email
    the directory does not have, appends the created user (password
    hashed, default role without a given one), returns the pair signed
    for that user at the clock reading with the user's summary, and
    stores one refresh-token row for the new user, which is then in the
    table. *)
Theorem register_success env dto w :
  (forall n, faults env n = None) ->
  find_user_by_email (dto_email dto) (users w) = None ->
  let u := created_user env dto in
  let issued := stored_row env (User.id u) (refreshToken_for u (now env)) in
  run env (register env dto) w =
    (Ok (mkAuthResponseDto
           (accessToken_for u (default 0 (User.tokenVersion u)) (now env))
           (refreshToken_for u (now env))
           (summary u)),
     mkWorld (users w ++ [u])%list (save issued (refresh_tokens w))
             (cache w)) /\
  find_user_by_email (dto_email dto)
    (users (snd (run env (register env dto) w))) = Some u /\
  In issued (refresh_tokens (snd (run env (register env dto) w))).
Proof.
  intros Hn Hnone u issued.
  rewrite (register_valid_run env dto w Hn Hnone).
  cbn [snd users refresh_tokens].
  split; [reflexivity|]. split; [|apply save_In].
  apply find_user_by_email_app; [exact Hnone|]. reflexivity.
Qed.

(** X12.  A registration for an email the directory already has never
    succeeds and changes nothing, in every environment; undisturbed, it
    throws [BadRequestException "User with this email already exists"],
    the exception of [register] itself and not the conflict of
    [UsersService.create], which is not reached. *)
Theorem register_existing_email env dto w u :
  find_user_by_email (dto_email dto) (users w) = Some u ->
  succeeded (fst (run env (register env dto) w)) = false /\
  snd (run env (register env dto) w) = w /\
  ((forall n, faults env n = None) ->
   run env (register env dto) w =
     (Throw (BadRequestException "User with this email already exists"), w)).
Proof.
  intros Hu. destruct (register_known_email env dto w u Hu) as (H1 & H2 & H3).
  split; [exact H1|]. split; [exact H2|].
  intros Hn. specialize (H3 Hn).
  destruct (run env (register env dto) w) as [r w']. cbn in *. subst.
  reflexivity.
Qed.

(** X13.  The user row is no part of the transaction of a registration:
    [UsersService.create] writes through the repository, not through the
    query runner.  When the user has been saved and the registration
    then throws (a signature, the save of the token or the commit is
    rejected), the rollback undoes nothing of it: the user stays in the
    directory, without a refresh-token row, and a registration tried
    again with the same data cannot succeed; undisturbed, it is refused
    because the email already exists. *)
Theorem register_not_atomic env dto w ex :
  (forall n, (n <= 5)%nat -> faults env n = None) ->
  find_user_by_email (dto_email dto) (users w) = None ->
  fst (run env (register env dto) w) = Throw ex ->
  let w' := snd (run env (register env dto) w) in
  w' = mkWorld (users w ++ [created_user env dto])%list (refresh_tokens w)
               (cache w) /\
  (exists n, (6 <= n <= 9)%nat /\ faults env n = Some ex) /\
  forall env2,
    succeeded (fst (run env2 (register env2 dto) w')) = false /\
    snd (run env2 (register env2 dto) w') = w' /\
    ((forall n, faults env2 n = None) ->
     fst (run env2 (register env2 dto) w') =
       Throw (BadRequestException "User with this email already exists")).
Proof.
  intros Hn Hnone Hthrow w'.
  assert (Hw : w' = mkWorld (users w ++ [created_user env dto])%list
                            (refresh_tokens w) (cache w) /\
               exists n, (6 <= n <= 9)%nat /\ faults env n = Some ex).
  { subst w'. revert Hthrow.
    unfold run, register, UsersService_create, created_user.
    destruct dto as [email name password role], w as [us rts c]. cbn in *.
    rewrite !Hn by lia. cbn. rewrite Hnone. cbn. rewrite !Hn by lia. cbn.
    rewrite Hnone. cbn. rewrite !Hn by lia. cbn.
    destruct (faults env 6) eqn:F6; cbn;
      [intros [= <-]; split; [reflexivity | exists 6%nat; split; [lia|auto]]|].
    destruct (faults env 7) eqn:F7; cbn;
      [intros [= <-]; split; [reflexivity | exists 7%nat; split; [lia|auto]]|].
    destruct (faults env 8) eqn:F8; cbn;
      [intros [= <-]; split; [reflexivity | exists 8%nat; split; [lia|auto]]|].
    destruct (faults env 9) eqn:F9; cbn;
      [intros [= <-]; split; [reflexivity | exists 9%nat; split; [lia|auto]]|].
    discriminate. }
  destruct Hw as [Hw Hfault]. split; [exact Hw|]. split; [exact Hfault|].
  intros env2. apply (register_known_email env2 dto w' (created_user env dto)).
  rewrite Hw. cbn [users]. apply find_user_by_email_app; [exact Hnone|].
  reflexivity.
Qed.

(** *** Role check and failed attempts *)

(** X14.  [validateUserRoles], when its cache read goes through, answers
    [true] exactly when the key [user:<userId>] reads, at the clock
    reading of the call, a user whose role is among the required ones:
    the directory of users is never consulted, and with no roles
    required the answer is [false]. *)
Theorem validateUserRoles_characterization env userId roles w :
  faults env 0%nat = None ->
  (exists b, fst (run env (validateUserRoles userId roles) w) = Ok b) /\
  (fst (run env (validateUserRoles userId roles) w) = Ok true <->
   exists u, cache_get (cache w) (now env) ("user:" +:+ userId)
             = Some (JsUser u) /\
             In (User.role u) roles) /\
  (roles = [] ->
   fst (run env (validateUserRoles userId roles) w) = Ok false).
Proof.
  intros Hf. unfold run, validateUserRoles, validateUser. cbn.
  rewrite Hf. cbn.
  destruct (cache_get (cache w) (now env) ("user:" +:+ userId))
    as [[b|n|u]|] eqn:Hg; cbn.
  - destruct b; cbn; (split; [eauto|]); split;
      try (intros ->; reflexivity);
      (split; [discriminate | intros (u & Hu & _); discriminate]).
  - destruct n; cbn; (split; [eauto|]); split;
      try (intros ->; reflexivity);
      (split; [discriminate | intros (u & Hu & _); discriminate]).
  - split; [eauto|]. split.
    + split.
      * intros [= H]. exists u. split; [reflexivity|].
        apply existsb_exists in H as (r & Hr & E).
        apply String.eqb_eq in E. subst. exact Hr.
      * intros (u' & [= <-] & Hin). f_equal.
        apply existsb_exists. exists (User.role u).
        split; [exact Hin | apply String.eqb_refl].
    + intros ->. reflexivity.
  - split; [eauto|]. split;
      [split; [discriminate | intros (u & Hu & _); discriminate]|].
    intros _. reflexivity.
Qed.

(** X15.  When the key [attempts:<email>] reads nothing or a count
    within the safe integers, as every count written by the service is, a
    recorded failed attempt that returns leaves either the lockout flag
    set for [LOCKOUT_DURATION] from the clock reading with the counter
    deleted, or a counter below [MAX_LOGIN_ATTEMPTS] with its time to
    live restarted at the clock reading and the flag as it was: the
    counter is never stored at or above the threshold.  The directory,
    the table of refresh tokens and every other cache key are as
    before. *)
Theorem recordFailedAttempt_counter_below_threshold env email w :
  safe_count (cache_get (cache w) (now env) ("attempts:" +:+ email)) = true ->
  fst (run env (recordFailedAttempt email) w) = Ok tt ->
  let w' := snd (run env (recordFailedAttempt email) w) in
  users w' = users w /\
  refresh_tokens w' = refresh_tokens w /\
  (forall key, key <> "attempts:" +:+ email -> key <> "lockout:" +:+ email ->
               cache w' !! key = cache w !! key) /\
  ((cache w' !! ("attempts:" +:+ email) = None /\
    cache w' !! ("lockout:" +:+ email)
      = Some (mkCacheEntry (JsBool true) (now env + LOCKOUT_DURATION)))
   \/
   (exists k,
      k < MAX_LOGIN_ATTEMPTS /\
      k = number_or_zero
            (cache_get (cache w) (now env) ("attempts:" +:+ email)) + 1 /\
      cache w' !! ("attempts:" +:+ email)
        = Some (mkCacheEntry (JsNumber k) (now env + LOCKOUT_DURATION)) /\
      cache w' !! ("lockout:" +:+ email)
        = cache w !! ("lockout:" +:+ email))).
Proof.
  intros _. unfold run, recordFailedAttempt. destruct w as [us rts c]. cbn.
  destruct (faults env 0) eqn:F0; cbn; [discriminate|].
  destruct (Z.leb_spec MAX_LOGIN_ATTEMPTS
              (number_or_zero
                 (cache_get c (now env) ("attempts:" +:+ email)) + 1))
    as [Hle|Hlt]; cbn.
  - destruct (faults env 1) eqn:F1; cbn; [discriminate|].
    destruct (faults env 2) eqn:F2; cbn; [discriminate|].
    intros _. unfold cache_del, cache_set.
    split; [reflexivity|]. split; [reflexivity|]. split.
    + intros key Ha Hl.
      rewrite lookup_delete_ne, lookup_insert_ne by congruence. reflexivity.
    + left. split; [apply lookup_delete_eq|].
      rewrite lookup_delete_ne by apply attempts_lockout_keys.
      apply lookup_insert_eq.
  - destruct (faults env 1) eqn:F1; cbn; [discriminate|].
    intros _. unfold cache_set.
    split; [reflexivity|]. split; [reflexivity|]. split.
    + intros key Ha Hl. rewrite lookup_insert_ne by congruence. reflexivity.
    + right. eexists. split; [exact Hlt|]. split; [reflexivity|].
      split; [apply lookup_insert_eq|].
      apply lookup_insert_ne. apply attempts_lockout_keys.
Qed.

(** *** One user's logout and another user's rotation *)

Lemma refreshTokens_reads env t w1 w2 :
  findOne t (refresh_tokens w1) = findOne t (refresh_tokens w2) ->
  users w1 = users w2 ->
  cache_get (cache w1) (now env) ("blacklist:" +:+ t)
  = cache_get (cache w2) (now env) ("blacklist:" +:+ t) ->
  fst (run env (refreshTokens env t) w1)
  = fst (run env (refreshTokens env t) w2).
Proof.
  unfold run, refreshTokens.
  destruct w1 as [us1 r1 c1], w2 as [us2 r2 c2]. cbn.
  intros Hf -> Hc.
  repeat (cbn; rewrite ?Hf, ?Hc;
          match goal with
          | |- context [faults ?env ?n] => destruct (faults env n) eqn:?
          | |- context [match ?x with _ => _ end] => destruct x eqn:?
          | |- context [if ?x then _ else _] => destruct x eqn:?
          end); cbn; reflexivity.
Qed.

(** X16.  A [logout] of one user, in any environment and whatever its
    outcome, does not change what [refreshTokens t] answers afterwards
    for a token [t] that no row of that user carries and that is not the
    access token handed to the logout. *)
Theorem logout_leaves_other_users env accessToken userId w env2 t :
  (forall r, In r (refresh_tokens w) -> RefreshToken.token r = t ->
             RefreshToken.userId r <> userId) ->
  t <> accessToken ->
  fst (run env2 (refreshTokens env2 t)
         (snd (run env (logout env accessToken userId) w)))
  = fst (run env2 (refreshTokens env2 t) w).
Proof.
  intros Hown Hne.
  destruct (logout_world env accessToken userId w) as (Hu & Hc & Ht).
  cbv zeta in *.
  apply refreshTokens_reads.
  - destruct (fst (run env (logout env accessToken userId) w)); rewrite Ht;
      [apply findOne_update_inactive; exact Hown | reflexivity].
  - exact Hu.
  - apply cache_get_lookup, Hc, blacklist_key_inj. exact Hne.
Qed.

(** *** AuthController *)

Lemma exec_then_return {A B} env (p : Async A) (b : B) :
  forall w qr n,
    exec env (p ;; Return b) w qr n =
    (match fst (exec env p w qr n) with
     | Ok _ => Ok b
     | Throw e => Throw e
     end,
     snd (exec env p w qr n)).
Proof.
  induction p as [a|e|X op k IH]; intros w qr n; cbn; try reflexivity.
  destruct (if fallible op then faults env n else None); [apply IH|].
  destruct (perform env op w qr) as [[x w'] qr']. apply IH.
Qed.

Lemma replace_first_prefix pattern s :
  replace_first pattern EmptyString (pattern +:+ s) = s.
Proof.
  assert (Hp : forall p, String.prefix p (p +:+ s) = true).
  { induction p as [|c p IH]; [destruct s; reflexivity|].
    change (String c p +:+ s) with (String c (p +:+ s)).
    cbn [String.prefix].
    destruct (Ascii.ascii_dec c c); [exact IH | contradiction]. }
  assert (Hd : forall p, string_drop (String.length p) (p +:+ s) = s).
  { induction p as [|c p IH]; [reflexivity|].
    change (String c p +:+ s) with (String c (p +:+ s)).
    cbn [String.length string_drop]. exact IH. }
  destruct pattern as [|c p].
  - destruct s; reflexivity.
  - change (String c p +:+ s) with (String c (p +:+ s)).
    cbn [replace_first].
    change (String c (p +:+ s)) with (String c p +:+ s).
    rewrite Hp, Hd. reflexivity.
Qed.

(** X17.  The logout endpoint strips the scheme from the header: for a
    header [Bearer <token>] it does to the world exactly what the
    service's [logout] does with [<token>] and the subject of the
    request, answers ["Logout successful"] when that call returns and
    passes its exception on otherwise.  The endpoint that revokes all
    refresh tokens relates to [revokeAllRefreshTokens] in the same
    way. *)
Theorem AuthController_logout_bearer env token sub w :
  run env (AuthController_logout env
             (mkHttpRequest (Some ("Bearer " +:+ token)) sub)) w =
    (match fst (run env (logout env token sub) w) with
     | Ok _ => Ok "Logout successful"
     | Throw e => Throw e
     end,
     snd (run env (logout env token sub) w)) /\
  forall header,
    run env (AuthController_revokeAllRefreshTokens
               (mkHttpRequest header sub)) w =
      (match fst (run env (revokeAllRefreshTokens sub) w) with
       | Ok _ => Ok "All refresh tokens have been revoked"
       | Throw e => Throw e
       end,
       snd (run env (revokeAllRefreshTokens sub) w)).
Proof.
  unfold AuthController_logout, AuthController_revokeAllRefreshTokens, run.
  cbn [authorization user_sub].
  rewrite (replace_first_prefix "Bearer " token).
  split; [|intros header]; apply exec_then_return.
Qed.

(** *** Round trips *)

Lemma findOne_save_new t r rows :
  findOne t rows = None ->
  RefreshToken.token r = t -> RefreshToken.isActive r = true ->
  findOne t (save r rows) = Some r.
Proof.
  intros Hnone Ht Ha.
  destruct (findOne t (save r rows)) as [x|] eqn:E.
  - apply findOne_Some in E as (Hin & Hx & Hax).
    apply save_In_inv in Hin as [->|[Hin _]]; [reflexivity|].
    rewrite (findOne_None_inv _ _ Hnone x Hin Hx) in Hax. discriminate.
  - rewrite (findOne_None_inv _ _ E r (save_In r rows) Ht) in Ha.
    discriminate.
Qed.

Lemma refreshTokens_expired_run env t w row :
  (forall n, faults env n = None) ->
  findOne t (refresh_tokens w) = Some row ->
  RefreshToken.expiresAt row < now env ->
  run env (refreshTokens env t) w = (Throw invalid_refresh_token, w).
Proof.
  intros Hn Hf Hexp. unfold run, refreshTokens.
  destruct w as [us rts c]. cbn in *. rewrite !Hn. cbn. rewrite Hf. cbn.
  destruct (Z.ltb_spec (RefreshToken.expiresAt row) (now env)); [|lia].
  reflexivity.
Qed.

(** X18.  Login, then rotation.  The refresh token returned by a
    successful login is accepted by a later [refreshTokens], which
    answers for the same user, up to and including the instant 7 days
    (604800000 ms) after the clock reading of the login, and is refused
    as an invalid refresh token, with nothing changed, from the next
    millisecond on.  The access token of the rotation carries the token
    version the directory holds, where the one of the login carried 0. *)
Theorem login_then_refreshTokens env1 env2 dto w u :
  (forall n, faults env1 n = None) ->
  (forall n, faults env2 n = None) ->
  truthy (cache_get (cache w) (now env1) ("lockout:" +:+ login_email dto))
    = false ->
  find_user_by_email (login_email dto) (users w) = Some u ->
  bcrypt_compare deps (login_password dto) (User.password u) = true ->
  find_user_by_id (User.id u) (users w) = Some u ->
  findOne (refreshToken_for u (now env1)) (refresh_tokens w) = None ->
  truthy (cache_get (cache w) (now env2)
            ("blacklist:" +:+ refreshToken_for u (now env1))) = false ->
  let session := run env1 (login env1 dto) w in
  (exists resp,
     fst session = Ok resp /\
     refreshToken resp = refreshToken_for u (now env1) /\
     accessToken resp = accessToken_for u 0 (now env1)) /\
  (now env2 <= now env1 + 604800000 ->
   fst (run env2 (refreshTokens env2 (refreshToken_for u (now env1)))
          (snd session)) =
     Ok (mkAuthResponseDto
           (accessToken_for u (default 0 (User.tokenVersion u)) (now env2))
           (refreshToken_for u (now env2))
           (summary u))) /\
  (now env1 + 604800000 < now env2 ->
   run env2 (refreshTokens env2 (refreshToken_for u (now env1)))
       (snd session) =
     (Throw invalid_refresh_token, snd session)).
Proof.
  intros Hn1 Hn2 Hl Hu Hp Hid Hfresh Hbl session. subst session.
  rewrite (login_valid_run env1 dto w u Hn1 Hl Hu Hp). cbn [fst snd].
  set (t := refreshToken_for u (now env1)) in *.
  assert (Hfound :
    findOne t (save (stored_row env1 (User.id u) t) (refresh_tokens w))
    = Some (stored_row env1 (User.id u) t))
    by (apply findOne_save_new; [exact Hfresh | reflexivity | reflexivity]).
  split; [eexists; cbn; repeat split; reflexivity|]. split.
  - intros Hlive.
    erewrite refreshTokens_valid_run; [reflexivity | exact Hn2 | | | |].
    + cbn [refresh_tokens]. exact Hfound.
    + cbn. lia.
    + cbn [cache]. unfold cache_get, cache_del in *.
      rewrite lookup_delete_ne; [exact Hbl|].
      intros E. symmetry in E. exact (blacklist_attempts_keys _ _ E).
    + cbn. exact Hid.
  - intros Hlate.
    apply (refreshTokens_expired_run env2 t _ (stored_row env1 (User.id u) t));
      [exact Hn2 | exact Hfound | cbn; lia].
Qed.

(** X19.  Registration, then login.  When the password check accepts a
    password against its own hash, the user just registered can log in
    with the registered email and password (no lockout flag reading): the
    login answers with the summary of the created user.  A login with a
    password the check does not accept against the stored hash is
    refused with ["Invalid credentials"]. *)
Theorem register_then_login env1 env2 dto w :
  (forall n, faults env1 n = None) ->
  (forall n, faults env2 n = None) ->
  find_user_by_email (dto_email dto) (users w) = None ->
  bcrypt_compare deps (dto_password dto)
    (bcrypt_hash deps (dto_password dto) SALT_ROUNDS) = true ->
  truthy (cache_get (cache w) (now env2) ("lockout:" +:+ dto_email dto))
    = false ->
  let u := created_user env1 dto in
  let w1 := snd (run env1 (register env1 dto) w) in
  fst (run env2 (login env2 (mkLoginDto (dto_email dto) (dto_password dto)))
         w1) =
    Ok (mkAuthResponseDto (accessToken_for u 0 (now env2))
                          (refreshToken_for u (now env2))
                          (summary u)) /\
  forall password,
    bcrypt_compare deps password
      (bcrypt_hash deps (dto_password dto) SALT_ROUNDS) = false ->
    fst (run env2 (login env2 (mkLoginDto (dto_email dto) password)) w1)
    = Throw invalid_credentials.
Proof.
  intros Hn1 Hn2 Hnone Hcheck Hl u w1. subst w1.
  rewrite (register_valid_run env1 dto w Hn1 Hnone). cbn [snd].
  fold u.
  assert (Hu : find_user_by_email (dto_email dto) (users w ++ [u]) = Some u)
    by (apply find_user_by_email_app; [exact Hnone | reflexivity]).
  split.
  - erewrite login_valid_run; [reflexivity | exact Hn2 | | |].
    + cbn. exact Hl.
    + cbn. exact Hu.
    + cbn. exact Hcheck.
  - intros password Hbad.
    rewrite login_refused; [reflexivity | exact Hn2 | cbn; exact Hl |].
    unfold bad_credentials. cbn [users]. rewrite Hu. cbn.
    rewrite Hbad. reflexivity.
Qed.

(** *** The awaited calls of a refused login *)

(** X20.  A login for an email the directory does not have awaits the
    same calls in the same order as a login for that email and cache
    where the directory has the user and the password does not match, in
    every environment: [simulatePasswordCheck] stands in for the
    comparison of the password.  Undisturbed and not locked out, the
    fifth awaited call of both is a [bcrypt.compare], coming right after
    the lookup of the user. *)
Theorem refused_logins_await_alike env email password w1 w2 u :
  find_user_by_email email (users w1) = None ->
  find_user_by_email email (users w2) = Some u ->
  bcrypt_compare deps password (User.password u) = false ->
  cache w1 = cache w2 ->
  let absent := calls env (login env (mkLoginDto email password)) w1 None 0 in
  let mismatch :=
    calls env (login env (mkLoginDto email password)) w2 None 0 in
  absent = mismatch /\
  ((forall n, faults env n = None) ->
   truthy (cache_get (cache w1) (now env) ("lockout:" +:+ email)) = false ->
   nth_error absent 3 = Some "usersRepository.findOne" /\
   nth_error absent 4 = Some "bcrypt.compare" /\
   nth_error mismatch 4 = Some "bcrypt.compare").
Proof.
  intros H1 H2 H3 Hc. unfold login, recordFailedAttempt.
  destruct w1 as [us1 rts1 c1], w2 as [us2 rts2 c2]. cbn in H1, H2, Hc.
  subst c2. cbn. split.
  - repeat (cbn; rewrite ?H1, ?H2; cbn; rewrite ?H3;
            match goal with
            | |- context [faults ?env ?n] => destruct (faults env n) eqn:?
            | |- context [match ?x with _ => _ end] => destruct x eqn:?
            | |- context [if ?x then _ else _] => destruct x eqn:?
            end); cbn; reflexivity.
  - intros Hn Hl. rewrite ?Hn. cbn. rewrite Hl. cbn. rewrite ?Hn. cbn.
    rewrite ?H1, ?H2. cbn. rewrite ?Hn. cbn. repeat split; reflexivity.
Qed.

(** *** Two refused logins at once *)


(** *** Rotation after rotation, revocation after logout *)

Lemma findOne_save_inactive t r rows :
  findOne t rows = None -> RefreshToken.isActive r = false ->
  findOne t (save r rows) = None.
Proof.
  intros Hnone Ha. apply findOne_None. intros x Hin Hx.
  apply save_In_inv in Hin as [->|[Hin _]]; [exact Ha|].
  exact (findOne_None_inv _ _ Hnone x Hin Hx).
Qed.

Lemma deactivate_isActive r :
  RefreshToken.isActive (RefreshToken.deactivate r) = false.
Proof. destruct r. reflexivity. Qed.

Lemma update_inactive_idempotent uid b b' rows :
  update_inactive uid b' (update_inactive uid b rows)
  = update_inactive uid b rows.
Proof.
  unfold update_inactive. rewrite map_map. apply map_ext. intros r.
  destruct (String.eqb (RefreshToken.userId r) uid) eqn:Hu; cbn.
  - destruct (negb b || RefreshToken.isActive r) eqn:Hc.
    + destruct r as [i t u e a]. cbn in *. rewrite Hu. cbn.
      destruct (negb b'); reflexivity.
    + rewrite Hu. cbn.
      apply orb_false_iff in Hc as [_ Ha]. rewrite Ha.
      destruct (negb b'); cbn; [|reflexivity].
      apply deactivate_inactive. exact Ha.
  - rewrite Hu. reflexivity.
Qed.

Lemma find_user_by_id_Some i us u :
  find_user_by_id i us = Some u -> User.id u = i.
Proof.
  unfold find_user_by_id. intros H. apply find_some in H as [_ H].
  apply String.eqb_eq. exact H.
Qed.

Lemma refreshTokens_inv_response env t w resp w' :
  run env (refreshTokens env t) w = (Ok resp, w') ->
  exists row u,
    findOne t (refresh_tokens w) = Some row /\
    find_user_by_id (RefreshToken.userId row) (users w) = Some u /\
    resp = mkAuthResponseDto
             (accessToken_for u (default 0 (User.tokenVersion u)) (now env))
             (refreshToken_for u (now env))
             (summary u) /\
    w' = mkWorld (users w)
           (save (stored_row env (User.id u) (refreshToken_for u (now env)))
                 (save (RefreshToken.deactivate row) (refresh_tokens w)))
           (cache w).
Proof.
  unfold run, refreshTokens, accessToken_for, refreshToken_for, stored_row.
  intros H. run_cases H.
  injection H as <- <-. subst.
  match goal with
  | E : match findOne _ _ with _ => _ end = Some _ |- _ =>
      destruct (findOne t (refresh_tokens w)) as [row|] eqn:Hf;
        [injection E as E1 E2 | discriminate E]
  end.
  subst. do 2 eexists. cbn.
  split; [reflexivity|]. split; [eassumption|]. split; reflexivity.
Qed.

(** X22.  Rotation after rotation.  The refresh token returned by a
    successful [refreshTokens], when no active row carried it before, is
    accepted by a later undisturbed [refreshTokens], which answers for
    the same user, up to and including the instant 7 days after the clock
    reading of the first rotation, provided it is not blacklisted at
    that time. *)
Theorem refreshTokens_then_refreshTokens env1 env2 t w resp :
  fst (run env1 (refreshTokens env1 t) w) = Ok resp ->
  (forall n, faults env2 n = None) ->
  findOne (refreshToken resp) (refresh_tokens w) = None ->
  truthy (cache_get (cache w) (now env2)
            ("blacklist:" +:+ refreshToken resp)) = false ->
  now env2 <= now env1 + 604800000 ->
  exists resp',
    fst (run env2 (refreshTokens env2 (refreshToken resp))
           (snd (run env1 (refreshTokens env1 t) w))) = Ok resp' /\
    user resp' = user resp.
Proof.
  intros Hok Hn2 Hfresh Hbl Hlive.
  destruct (run env1 (refreshTokens env1 t) w) as [r w1] eqn:Hrun.
  cbn [fst snd] in *. subst r.
  apply refreshTokens_inv_response in Hrun as (row & u & Hf & Hu & -> & ->).
  cbn [refreshToken user] in *.
  pose proof (find_user_by_id_Some _ _ _ Hu) as Hid.
  eexists. split.
  - erewrite refreshTokens_valid_run; [reflexivity | exact Hn2 | | | |].
    + cbn [refresh_tokens]. apply findOne_save_new; [|reflexivity|reflexivity].
      apply findOne_save_inactive; [exact Hfresh|].
      apply deactivate_isActive.
    + cbn. lia.
    + cbn [cache]. exact Hbl.
    + cbn. rewrite Hid. exact Hu.
  - reflexivity.
Qed.

(** X23.  Revocation after logout.  Once a [logout] of a user has
    returned, a [revokeAllRefreshTokens] for that user changes nothing
    any more, in any environment: the rows it would deactivate are
    inactive already. *)
Theorem revocation_after_logout env env2 accessToken userId w :
  fst (run env (logout env accessToken userId) w) = Ok tt ->
  snd (run env2 (revokeAllRefreshTokens userId)
         (snd (run env (logout env accessToken userId) w)))
  = snd (run env (logout env accessToken userId) w).
Proof.
  intros Hok.
  destruct (logout_world env accessToken userId w) as (_ & _ & Ht).
  cbv zeta in Ht. rewrite Hok in Ht.
  destruct (snd (run env (logout env accessToken userId) w))
    as [us rts c] eqn:Hw.
  cbn [refresh_tokens] in Ht. subst rts.
  unfold run, revokeAllRefreshTokens. cbn.
  destruct (faults env2 0); cbn; [reflexivity|].
  rewrite update_inactive_idempotent. reflexivity.
Qed.

End AuthService.

(** ** Worked scenarios *)

(** Replay within one second.  Alice logs in at 1000 ms; the refresh token is
    carried by one active, unexpired row.  A [refreshTokens] at 1500 ms
    succeeds and, within the same second, is issued the very same token;
    a second [refreshTokens] with that token at 1900 ms succeeds as well. *)
Lemma replayed_token_accepted :
  let t := "refresh:u1.iat=1.expiresIn=7d.key=" in
  let w1 := snd (run scenario_deps (at_time 1000 "id1")
                   (login scenario_deps (at_time 1000 "id1") alice_login)
                   world_alice) in
  let first := run scenario_deps (at_time 1500 "id2")
                 (refreshTokens scenario_deps (at_time 1500 "id2") t) w1 in
  let second := run scenario_deps (at_time 1900 "id3")
                  (refreshTokens scenario_deps (at_time 1900 "id3") t)
                  (snd first) in
  active_rows t (refresh_tokens w1)
    = [RefreshToken.mk "id1" t "u1" 604801000 true] /\
  succeeded (fst first) = true /\
  succeeded (fst second) = true /\
  fst second <> Throw (invalid_refresh_token).
Proof. vm_compute. repeat split; discriminate. Qed.

(** Two logins within one second leave two active rows with one token.
    The row looked up by a rotation is the one with the smaller key,
    though stored second: at 604801500 ms it has not expired, where the
    row stored first has; the rotation succeeds and deactivates it. *)
Lemma smallest_key_is_looked_up :
  let t := "refresh:u1.iat=1.expiresIn=7d.key=" in
  let id1 := "f0000000-0000-4000-8000-000000000001" in
  let id2 := "00000000-0000-4000-8000-000000000002" in
  let w1 := snd (run scenario_deps (at_time 1000 id1)
                   (login scenario_deps (at_time 1000 id1) alice_login)
                   world_alice) in
  let w2 := snd (run scenario_deps (at_time 1999 id2)
                   (login scenario_deps (at_time 1999 id2) alice_login)
                   w1) in
  let result := run scenario_deps (at_time 604801500 "id3")
                  (refreshTokens scenario_deps (at_time 604801500 "id3") t)
                  w2 in
  active_rows t (refresh_tokens w2)
    = [RefreshToken.mk id1 t "u1" 604801000 true;
       RefreshToken.mk id2 t "u1" 604801999 true] /\
  findOne t (refresh_tokens w2)
    = Some (RefreshToken.mk id2 t "u1" 604801999 true) /\
  succeeded (fst result) = true /\
  active_rows t (refresh_tokens (snd result))
    = [RefreshToken.mk id1 t "u1" 604801000 true].
Proof. vm_compute. repeat split. Qed.

(** Rotation across seconds.  The refresh at 2500 ms is issued a different token (a
    later second); the old token is then refused at 3000 ms. *)
Lemma refresh_single_use_witness :
  let t := "refresh:u1.iat=1.expiresIn=7d.key=" in
  let w1 := snd (run scenario_deps (at_time 1000 "id1")
                   (login scenario_deps (at_time 1000 "id1") alice_login)
                   world_alice) in
  let w2 := snd (run scenario_deps (at_time 2500 "id2")
                   (refreshTokens scenario_deps (at_time 2500 "id2") t) w1) in
  let again := run scenario_deps (at_time 3000 "id3")
                 (refreshTokens scenario_deps (at_time 3000 "id3") t) w2 in
  (length (active_rows t (refresh_tokens w1)) <= 1)%nat /\
  succeeded (fst again) = false /\
  snd again = w2 /\
  again = (Throw invalid_refresh_token, w2).
Proof.
  cbv zeta.
  assert (H1 : (length (active_rows "refresh:u1.iat=1.expiresIn=7d.key="
                  (refresh_tokens
                     (snd (run scenario_deps (at_time 1000 "id1")
                             (login scenario_deps (at_time 1000 "id1")
                                alice_login) world_alice)))) <= 1)%nat)
    by (vm_compute; lia).
  split; [exact H1|].
  destruct (refresh_single_use scenario_deps
              (at_time 2500 "id2") (at_time 3000 "id3")
              "refresh:u1.iat=1.expiresIn=7d.key="
              (snd (run scenario_deps (at_time 1000 "id1")
                      (login scenario_deps (at_time 1000 "id1") alice_login)
                      world_alice))
              (mkAuthResponseDto
                 "access:u1:alice@example.com:user:0.iat=2.expiresIn=15m.key="
                 "refresh:u1.iat=2.expiresIn=7d.key="
                 (mkUserSummary "u1" "alice@example.com" "Alice" "user"))
              _ H1 ltac:(vm_compute; reflexivity) ltac:(vm_compute; discriminate))
    as (_ & A & B & C).
  split; [exact A|]. split; [exact B|].
  apply C. intros n. reflexivity.
Defined.

(** A race.  Two requests present ["old-token"], whose single
    row is active and unexpired.  Both look it up before either commits;
    both succeed, and the table ends with the old row inactive and two
    active replacements. *)
Lemma both_racing_requests_succeed :
  let enva := at_time 5000 "ra" in
  let envb := at_time 6000 "rb" in
  let final :=
    interleave scenario_deps enva envb racing_schedule
      (start (refreshTokens scenario_deps enva "old-token"))
      (start (refreshTokens scenario_deps envb "old-token"))
      world_old_token in
  active_rows "old-token" (refresh_tokens world_old_token) = [old_row] /\
  option_map succeeded (outcome (fst (fst final))) = Some true /\
  option_map succeeded (outcome (snd (fst final))) = Some true /\
  refresh_tokens (snd final) =
    [RefreshToken.mk "r0" "old-token" "u1" 1000000000 false;
     RefreshToken.mk "ra" "refresh:u1.iat=5.expiresIn=7d.key=" "u1"
                     604805000 true;
     RefreshToken.mk "rb" "refresh:u1.iat=6.expiresIn=7d.key=" "u1"
                     604806000 true].
Proof. vm_compute. repeat split. Qed.

(** The same two requests.  When both look the token up before either
    commits, both replacement rows and the deactivated old row are in the
    table at the end; when one request runs to its end before the other
    starts, the other is refused and the table is the one the first
    request committed. *)
Lemma concurrent_rotation_witness :
  let enva := at_time 5000 "ra" in
  let envb := at_time 6000 "rb" in
  let race :=
    interleave scenario_deps enva envb racing_schedule
      (start (refreshTokens scenario_deps enva "old-token"))
      (start (refreshTokens scenario_deps envb "old-token"))
      world_old_token in
  let serial :=
    interleave scenario_deps enva envb serial_schedule
      (start (refreshTokens scenario_deps enva "old-token"))
      (start (refreshTokens scenario_deps envb "old-token"))
      world_old_token in
  (In (RefreshToken.mk "ra" "refresh:u1.iat=5.expiresIn=7d.key=" "u1"
                       604805000 true) (refresh_tokens (snd race)) /\
   In (RefreshToken.mk "rb" "refresh:u1.iat=6.expiresIn=7d.key=" "u1"
                       604806000 true) (refresh_tokens (snd race)) /\
   In (RefreshToken.mk "r0" "old-token" "u1" 1000000000 false)
      (refresh_tokens (snd race))) /\
  (outcome (snd (fst serial)) = Some (Throw invalid_refresh_token) /\
   refresh_tokens (snd serial) =
     [RefreshToken.mk "r0" "old-token" "u1" 1000000000 false;
      RefreshToken.mk "ra" "refresh:u1.iat=5.expiresIn=7d.key=" "u1"
                      604805000 true]).
Proof.
  cbv zeta. split.
  - set (race := interleave scenario_deps (at_time 5000 "ra")
                   (at_time 6000 "rb") racing_schedule _ _ _).
    assert (Ha : outcome (fst (fst race)) =
                 Some (Ok (mkAuthResponseDto
                   "access:u1:alice@example.com:user:0.iat=5.expiresIn=15m.key="
                   "refresh:u1.iat=5.expiresIn=7d.key="
                   (mkUserSummary "u1" "alice@example.com" "Alice" "user"))))
      by (vm_compute; reflexivity).
    assert (Hb : outcome (snd (fst race)) =
                 Some (Ok (mkAuthResponseDto
                   "access:u1:alice@example.com:user:0.iat=6.expiresIn=15m.key="
                   "refresh:u1.iat=6.expiresIn=7d.key="
                   (mkUserSummary "u1" "alice@example.com" "Alice" "user"))))
      by (vm_compute; reflexivity).
    assert (Hrun : race = (fst (fst race), snd (fst race), snd race))
      by (destruct race as [[a b] w]; reflexivity).
    destruct (proj1 (concurrent_rotation scenario_deps
                (at_time 5000 "ra") (at_time 6000 "rb") "old-token"
                world_old_token old_row alice racing_schedule
                (fst (fst race)) (snd (fst race)) (snd race) _ _
                ltac:(intros n; reflexivity) ltac:(intros n; reflexivity)
                ltac:(vm_compute; reflexivity) ltac:(vm_compute; lia)
                ltac:(vm_compute; reflexivity)
                ltac:(vm_compute; discriminate)
                ltac:(vm_compute; discriminate)
                ltac:(vm_compute; reflexivity) ltac:(vm_compute; reflexivity)
                ltac:(vm_compute; discriminate)
                ltac:(vm_compute; discriminate)
                Hrun Ha Hb)
              [true; true; true; false; false; false]
              [true; true; true; true; true; true; true;
               false; false; false; false; false; false; false]
              eq_refl ltac:(cbn; lia))
      as (_ & _ & Hrows).
    exact (Hrows ltac:(discriminate) ltac:(discriminate) ltac:(discriminate)).
  - set (serial := interleave scenario_deps (at_time 5000 "ra")
                     (at_time 6000 "rb") serial_schedule _ _ _).
    assert (Ha : outcome (fst (fst serial)) =
                 Some (Ok (mkAuthResponseDto
                   "access:u1:alice@example.com:user:0.iat=5.expiresIn=15m.key="
                   "refresh:u1.iat=5.expiresIn=7d.key="
                   (mkUserSummary "u1" "alice@example.com" "Alice" "user"))))
      by (vm_compute; reflexivity).
    assert (Hb : exists rb, outcome (snd (fst serial)) = Some rb)
      by (eexists; vm_compute; reflexivity).
    destruct Hb as [rb Hb].
    assert (Hrun : serial = (fst (fst serial), snd (fst serial), snd serial))
      by (destruct serial as [[a b] w]; reflexivity).
    destruct (proj1 (proj2 (concurrent_rotation scenario_deps
                (at_time 5000 "ra") (at_time 6000 "rb") "old-token"
                world_old_token old_row alice serial_schedule
                (fst (fst serial)) (snd (fst serial)) (snd serial) _ rb
                ltac:(intros n; reflexivity) ltac:(intros n; reflexivity)
                ltac:(vm_compute; reflexivity) ltac:(vm_compute; lia)
                ltac:(vm_compute; reflexivity)
                ltac:(vm_compute; discriminate)
                ltac:(vm_compute; discriminate)
                ltac:(vm_compute; reflexivity) ltac:(vm_compute; reflexivity)
                ltac:(vm_compute; discriminate)
                ltac:(vm_compute; discriminate)
                Hrun Ha Hb))
              [true; true; true; true; true; true; true; true; true; true]
              [false; false; false; false; false]
              eq_refl ltac:(cbn; lia))
      as (_ & Hrb & Htable).
    split; [rewrite Hb, Hrb; reflexivity|].
    rewrite Htable. reflexivity.
Defined.

(** Failures spaced out.  Five logins with a wrong password, each 1000
    seconds after the previous one, all refused; the sixth, with the right
    password, succeeds and no lockout flag is set. *)
Lemma spaced_failures_do_not_lock :
  let attempt k w :=
    run scenario_deps (at_time (k * 1000000) "x")
      (login scenario_deps (at_time (k * 1000000) "x")
         (mkLoginDto "alice@example.com" "wrong")) w in
  let r1 := attempt 1 world_alice in
  let r2 := attempt 2 (snd r1) in
  let r3 := attempt 3 (snd r2) in
  let r4 := attempt 4 (snd r3) in
  let r5 := attempt 5 (snd r4) in
  let r6 := run scenario_deps (at_time 6000000 "id6")
              (login scenario_deps (at_time 6000000 "id6") alice_login)
              (snd r5) in
  map fst [r1; r2; r3; r4; r5]
    = repeat (Throw invalid_credentials) 5 /\
  cache (snd r5) !! "lockout:alice@example.com" = None /\
  succeeded (fst r6) = true /\
  fst r6 <> Throw account_locked.
Proof. vm_compute. repeat split; discriminate. Qed.

(** Five wrong passwords for Alice, one second apart, the last at
    4000 ms: the flag is set until 904000 ms.  A login with the right
    password at that very instant is still refused as locked; one
    millisecond later the flag no longer reads. *)
Lemma lockout_after_max_attempts_witness :
  let attempts :=
    [(at_time 1000 "x", "wrong"); (at_time 2000 "x", "wrong");
     (at_time 3000 "x", "wrong"); (at_time 4000 "x", "wrong")] in
  let locked :=
    run_logins scenario_deps "alice@example.com"
      ((at_time 0 "x", "wrong") :: attempts) world_alice in
  within_window 0 attempts /\
  cache locked !! "lockout:alice@example.com"
    = Some (mkCacheEntry (JsBool true) 904000) /\
  run scenario_deps (at_time 904000 "id")
      (login scenario_deps (at_time 904000 "id") alice_login) locked
    = (Throw account_locked, locked) /\
  cache_get (cache locked) 904001 "lockout:alice@example.com" = None.
Proof.
  cbv zeta.
  assert (Hw : within_window 0
                 [(at_time 1000 "x", "wrong"); (at_time 2000 "x", "wrong");
                  (at_time 3000 "x", "wrong"); (at_time 4000 "x", "wrong")])
    by (cbn; unfold LOCKOUT_DURATION; lia).
  split; [exact Hw|].
  destruct (lockout_after_max_attempts scenario_deps "alice@example.com"
              (at_time 0 "x", "wrong")
              [(at_time 1000 "x", "wrong"); (at_time 2000 "x", "wrong");
               (at_time 3000 "x", "wrong"); (at_time 4000 "x", "wrong")]
              world_alice)
    as (A & _ & C & D).
  - reflexivity.
  - repeat constructor.
  - exact Hw.
  - reflexivity.
  - reflexivity.
  - split; [exact A|]. split.
    + apply C; [reflexivity|]. cbn. unfold LOCKOUT_DURATION. lia.
    + apply (D 904001). cbn. unfold LOCKOUT_DURATION. lia.
Defined.

(** The blacklisted case stands out.  A token whose row is active and unexpired but
    whose key is blacklisted is refused with a message of its own, unlike a
    token that has no row. *)
Lemma blacklisted_refusal_differs :
  let env := at_time 5000 "id" in
  let blacklisted :=
    fst (run scenario_deps env
           (refreshTokens scenario_deps env "old-token") world_blacklisted) in
  let missing :=
    fst (run scenario_deps env
           (refreshTokens scenario_deps env "no-such-token")
           world_blacklisted) in
  blacklisted = Throw (UnauthorizedException "Token has been revoked") /\
  missing = Throw (UnauthorizedException "Invalid refresh token") /\
  blacklisted <> missing.
Proof. vm_compute. repeat split; discriminate. Qed.

(** The refusals of a token without a row and of a blacklisted token. *)
Lemma refreshTokens_failures_witness :
  let env := at_time 5000 "id" in
  findOne "old-token" (refresh_tokens world_blacklisted) = Some old_row /\
  run scenario_deps env
      (refreshTokens scenario_deps env "no-such-token") world_blacklisted
    = (Throw invalid_refresh_token, world_blacklisted) /\
  run scenario_deps env
      (refreshTokens scenario_deps env "old-token") world_blacklisted
    = (Throw (UnauthorizedException "Token has been revoked"),
       world_blacklisted).
Proof.
  cbv zeta.
  assert (Hf : findOne "old-token" (refresh_tokens world_blacklisted)
               = Some old_row) by reflexivity.
  split; [exact Hf|].
  destruct (refreshTokens_failures scenario_deps (at_time 5000 "id")
              "no-such-token" world_blacklisted (fun _ => eq_refl))
    as (A & _).
  destruct (refreshTokens_failures scenario_deps (at_time 5000 "id")
              "old-token" world_blacklisted (fun _ => eq_refl))
    as (_ & _ & _ & D).
  split.
  - apply A. intros r [<-|[]]. discriminate.
  - apply (D old_row Hf); [cbn; lia | reflexivity].
Defined.

(** Unknown and known email: bob@example.com is unknown, alice@example.com is known;
    the same wrong password for both. *)
Lemma login_anti_enumeration_witness :
  let env := at_time 1000 "id" in
  let absent :=
    run scenario_deps env
      (login scenario_deps env (mkLoginDto "bob@example.com" "wrong"))
      world_alice in
  let mismatch :=
    run scenario_deps env
      (login scenario_deps env (mkLoginDto "alice@example.com" "wrong"))
      world_alice in
  find_user_by_email "bob@example.com" (users world_alice) = None /\
  find_user_by_email "alice@example.com" (users world_alice) = Some alice /\
  fst absent = Throw invalid_credentials /\
  fst mismatch = Throw invalid_credentials /\
  cache (snd absent) !! "attempts:bob@example.com"
    = Some (mkCacheEntry (JsNumber 1) 901000) /\
  cache (snd mismatch) !! "attempts:alice@example.com"
    = Some (mkCacheEntry (JsNumber 1) 901000).
Proof.
  cbv zeta.
  destruct (login_anti_enumeration scenario_deps (at_time 1000 "id")
              "bob@example.com" "alice@example.com" "wrong"
              world_alice world_alice alice eq_refl eq_refl eq_refl)
    as (A & _).
  destruct A as (A1 & A2 & A3 & A4);
    [intros n; reflexivity | reflexivity | reflexivity |].
  split; [reflexivity|]. split; [reflexivity|].
  split; [exact A1|]. split; [exact A2|].
  rewrite A3, A4. split; vm_compute; reflexivity.
Defined.

(** Logout at 1000.5 s of a token that expires at 2000 s. *)
Lemma logout_postcondition_witness :
  let env := at_time 1000500 "id" in
  let after :=
    snd (run scenario_deps env
           (logout scenario_deps env "access-token" "u1") world_old_token) in
  cache_get (cache after) 1999999 "blacklist:access-token"
    = Some (JsBool true) /\
  run scenario_deps (at_time 1000600 "id2")
      (refreshTokens scenario_deps (at_time 1000600 "id2") "old-token") after
    = (Throw invalid_refresh_token, after).
Proof.
  cbv zeta.
  destruct (logout_postcondition scenario_deps (at_time 1000500 "id")
              "access-token" "u1" 2000 world_old_token
              (snd (run scenario_deps (at_time 1000500 "id")
                      (logout scenario_deps (at_time 1000500 "id")
                         "access-token" "u1") world_old_token)))
    as (_ & B & _ & D).
  - reflexivity.
  - vm_compute. discriminate.
  - vm_compute. reflexivity.
  - reflexivity.
  - split.
    + apply B. lia.
    + apply (D (at_time 1000600 "id2") "old-token").
      * intros r [<-|[]] _. reflexivity.
      * intros n. reflexivity.
Defined.

(** Clearing the counter: Alice logs in while a counter and another key are
    cached. *)
Lemma login_clears_only_counter_witness :
  let env := at_time 1000 "id1" in
  let before :=
    mkWorld [alice] []
      (cache_set (cache_set ∅ 0 "attempts:alice@example.com" (JsNumber 2) 900000)
                 0 "user:u1" (JsUser alice) 300000) in
  let result := run scenario_deps env (login scenario_deps env alice_login)
                  before in
  succeeded (fst result) = true /\
  cache (snd result) !! "attempts:alice@example.com" = None /\
  cache (snd result) !! "user:u1" = cache before !! "user:u1".
Proof.
  cbv zeta.
  set (before := mkWorld [alice] [] _).
  destruct (login_clears_only_counter scenario_deps (at_time 1000 "id1")
              alice_login before
              (mkAuthResponseDto
                 "access:u1:alice@example.com:user:0.iat=1.expiresIn=15m.key="
                 "refresh:u1.iat=1.expiresIn=7d.key="
                 (mkUserSummary "u1" "alice@example.com" "Alice" "user"))
              (snd (run scenario_deps (at_time 1000 "id1")
                      (login scenario_deps (at_time 1000 "id1") alice_login)
                      before)))
    as (_ & B & _ & D).
  - vm_compute. reflexivity.
  - split; [vm_compute; reflexivity|]. split; [exact B|].
    apply D. discriminate.
Defined.

(** Cached lookup with nothing cached for the user. *)
Lemma validateUser_never_populates_witness :
  let env := at_time 1000 "id" in
  run scenario_deps env (validateUser "u1") world_alice
    = (Ok None, world_alice) /\
  run scenario_deps env (validateUserRoles "u1" ["admin"; "user"]) world_alice
    = (Ok false, world_alice).
Proof.
  cbv zeta.
  destruct (validateUser_never_populates scenario_deps (at_time 1000 "id")
              "u1" world_alice) as (A & B & C).
  destruct (C eq_refl eq_refl) as [C1 C2].
  specialize (B ["admin"; "user"]). specialize (C2 ["admin"; "user"]).
  split.
  - destruct (run scenario_deps _ (validateUser "u1") world_alice) as [r w].
    cbn [fst snd] in A, C1. subst. reflexivity.
  - destruct (run scenario_deps _ (validateUserRoles "u1" _) world_alice)
      as [r w].
    cbn [fst snd] in B, C2. subst. reflexivity.
Defined.

(** The record stored by Alice's login at 1000 ms. *)
Lemma stored_refresh_token_expiry_witness :
  let env := at_time 1000 "id1" in
  let result := run scenario_deps env (login scenario_deps env alice_login)
                  world_alice in
  succeeded (fst result) = true /\
  In (RefreshToken.mk "id1" "refresh:u1.iat=1.expiresIn=7d.key=" "u1"
                      604801000 true)
     (refresh_tokens (snd result)).
Proof.
  cbv zeta. split; [vm_compute; reflexivity|].
  refine (proj1 (stored_refresh_token_expiry scenario_deps (at_time 1000 "id1")
                   world_alice
                   (mkAuthResponseDto
                      "access:u1:alice@example.com:user:0.iat=1.expiresIn=15m.key="
                      "refresh:u1.iat=1.expiresIn=7d.key="
                      (mkUserSummary "u1" "alice@example.com" "Alice" "user"))
                   _ _)).
  left. exists alice_login. vm_compute. reflexivity.
Defined.

(** ** Worked scenarios for the further properties *)

(** The access token expires at second 2000 and the clock reads
    2000000 ms: no lifetime is left, nothing is blacklisted, the row of
    the user is deactivated. *)
Lemma logout_without_lifetime_witness :
  let env := at_time 2000000 "r9" in
  run scenario_deps env (logout scenario_deps env "access-token" "u1")
      world_old_token
  = (Ok tt, mkWorld [alice] [RefreshToken.deactivate old_row] ∅).
Proof.
  cbv zeta.
  rewrite (logout_without_lifetime scenario_deps (at_time 2000000 "r9")
             "access-token" "u1" world_old_token
             ltac:(vm_compute; reflexivity)).
  reflexivity.
Defined.

(** The update of the table is rejected after the cache write has gone
    through: the access token is blacklisted, the row stays active. *)
Lemma logout_not_atomic_witness :
  let env := mkEnv 1000 "r9" "u2" (fail_at 1 (InternalError "connection lost")) in
  let result :=
    run scenario_deps env (logout scenario_deps env "access-token" "u1")
        world_old_token in
  fst result = Throw (InternalError "connection lost") /\
  refresh_tokens (snd result) = [old_row] /\
  cache_get (cache (snd result)) 1000 "blacklist:access-token"
  = Some (JsBool true).
Proof.
  cbv zeta.
  destruct (logout_not_atomic scenario_deps
              (mkEnv 1000 "r9" "u2"
                 (fail_at 1 (InternalError "connection lost")))
              "access-token" "u1" 2000 world_old_token
              eq_refl ltac:(discriminate) ltac:(vm_compute; reflexivity))
    as [_ H].
  destruct (H (InternalError "connection lost") eq_refl eq_refl)
    as (A & _ & B & C).
  split; [exact A|]. split; [exact B|]. rewrite C. reflexivity.
Defined.

(** A logout with another access token leaves the blacklist entry of
    ["old-token"] as it was. *)
Lemma blacklist_written_only_by_logout_witness :
  cache (world_after scenario_deps (at_time 1000 "r9")
           (call_logout "access-token" "u1") world_blacklisted)
    !! "blacklist:old-token"
  = Some (mkCacheEntry (JsBool true) 1000000000).
Proof.
  etransitivity;
    [exact (blacklist_written_only_by_logout scenario_deps
              (at_time 1000 "r9") (call_logout "access-token" "u1")
              world_blacklisted "old-token"
              ltac:(intros userId; discriminate))|].
  reflexivity.
Defined.

(** Carol, whose stored token version is 7, logs in: the access token
    carries version 0. *)
Lemma login_success_witness :
  let env := at_time 1000 "id1" in
  fst (run scenario_deps env
         (login scenario_deps env (mkLoginDto "carol@example.com" "pw"))
         world_two_users)
  = Ok (mkAuthResponseDto
          "access:u3:carol@example.com:admin:0.iat=1.expiresIn=15m.key="
          "refresh:u3.iat=1.expiresIn=7d.key="
          (mkUserSummary "u3" "carol@example.com" "Carol" "admin")).
Proof.
  cbv zeta.
  destruct (login_success scenario_deps (at_time 1000 "id1")
              (mkLoginDto "carol@example.com" "pw") world_two_users carol
              ltac:(intros n; reflexivity) ltac:(vm_compute; reflexivity)
              ltac:(vm_compute; reflexivity) ltac:(vm_compute; reflexivity))
    as (H & _ & _).
  rewrite H. vm_compute. reflexivity.
Defined.

(** The save of the refresh token is rejected after Alice's valid
    credentials have cleared her counter of three failed attempts. *)
Lemma login_failure_keeps_counter_cleared_witness :
  let env := mkEnv 1000 "id1" "u2" (fail_at 8 (QueryFailedError "deadlock")) in
  snd (run scenario_deps env (login scenario_deps env alice_login)
         (world_attempts 3))
  = world_alice.
Proof.
  cbv zeta.
  destruct (login_failure_keeps_counter_cleared scenario_deps
              (mkEnv 1000 "id1" "u2" (fail_at 8 (QueryFailedError "deadlock")))
              alice_login
              (world_attempts 3)
              alice (QueryFailedError "deadlock")
              ltac:(intros n Hn; do 6 (destruct n; [reflexivity|]); lia)
              ltac:(vm_compute; reflexivity) ltac:(vm_compute; reflexivity)
              ltac:(vm_compute; reflexivity) ltac:(vm_compute; reflexivity))
    as [H _].
  rewrite H. vm_compute. reflexivity.
Defined.

(** Carol's token is presented at the very instant of its [expiresAt]: it
    is accepted, and the access token carries her stored version 7. *)
Lemma refreshTokens_success_witness :
  let env := at_time 1000000000 "id9" in
  fst (run scenario_deps env (refreshTokens scenario_deps env "carol-token")
         world_two_users)
  = Ok (mkAuthResponseDto
          "access:u3:carol@example.com:admin:7.iat=1000000.expiresIn=15m.key="
          "refresh:u3.iat=1000000.expiresIn=7d.key="
          (mkUserSummary "u3" "carol@example.com" "Carol" "admin")).
Proof.
  cbv zeta.
  destruct (refreshTokens_success scenario_deps (at_time 1000000000 "id9")
              "carol-token" world_two_users ltac:(intros n; reflexivity))
    as [_ H].
  rewrite (H carol_row carol ltac:(vm_compute; reflexivity)
             ltac:(vm_compute; discriminate)
             ltac:(vm_compute; reflexivity) ltac:(vm_compute; reflexivity)).
  vm_compute. reflexivity.
Defined.

(** Bob registers: he is appended to the directory with the hashed
    password and the default role, and is found by his email. *)
Lemma register_success_witness :
  let env := at_time 1000 "id1" in
  let w' := snd (run scenario_deps env
                   (register scenario_deps env bob_registration)
                   world_alice) in
  users w' = [alice; bob] /\
  find_user_by_email "bob@example.com" (users w') = Some bob.
Proof.
  cbv zeta.
  destruct (register_success scenario_deps (at_time 1000 "id1")
              bob_registration world_alice
              ltac:(intros n; reflexivity) ltac:(vm_compute; reflexivity))
    as (H & F & _).
  split; [rewrite H; reflexivity | exact F].
Defined.

(** Bob registers a second time. *)
Lemma register_existing_email_witness :
  let env := at_time 2000 "id2" in
  run scenario_deps env (register scenario_deps env bob_registration)
      world_registered
  = (Throw (BadRequestException "User with this email already exists"),
     world_registered).
Proof.
  cbv zeta.
  destruct (register_existing_email scenario_deps (at_time 2000 "id2")
              bob_registration world_registered bob
              ltac:(vm_compute; reflexivity))
    as (_ & _ & H).
  apply H. intros n. reflexivity.
Defined.

(** The save of Bob's refresh token is rejected: Bob stays in the
    directory without a token, and cannot register again. *)
Lemma register_not_atomic_witness :
  let env := mkEnv 1000 "id1" "u2" (fail_at 8 (QueryFailedError "deadlock")) in
  let w' := snd (run scenario_deps env
                   (register scenario_deps env bob_registration)
                   world_alice) in
  w' = world_registered /\
  fst (run scenario_deps (at_time 2000 "id2")
         (register scenario_deps (at_time 2000 "id2") bob_registration) w')
  = Throw (BadRequestException "User with this email already exists").
Proof.
  cbv zeta.
  destruct (register_not_atomic scenario_deps
              (mkEnv 1000 "id1" "u2" (fail_at 8 (QueryFailedError "deadlock")))
              bob_registration world_alice (QueryFailedError "deadlock")
              ltac:(intros n Hn; do 6 (destruct n; [reflexivity|]); lia)
              ltac:(vm_compute; reflexivity) ltac:(vm_compute; reflexivity))
    as (H & _ & R).
  split; [rewrite H; reflexivity|].
  destruct (R (at_time 2000 "id2")) as (_ & _ & R3).
  apply R3. intros n. reflexivity.
Defined.

(** Carol is cached under [user:u3] with the role ["admin"]. *)
Lemma validateUserRoles_characterization_witness :
  fst (run scenario_deps (at_time 1000 "id1")
         (validateUserRoles "u3" ["user"; "admin"]) world_carol_cached)
  = Ok true /\
  fst (run scenario_deps (at_time 1000 "id1")
         (validateUserRoles "u3" []) world_carol_cached) = Ok false.
Proof.
  cbv zeta. split.
  - destruct (validateUserRoles_characterization scenario_deps
                (at_time 1000 "id1") "u3" ["user"; "admin"]
                world_carol_cached
                eq_refl) as (_ & [_ H] & _).
    apply H. exists carol. split; [vm_compute; reflexivity|].
    right. left. reflexivity.
  - destruct (validateUserRoles_characterization scenario_deps
                (at_time 1000 "id1") "u3" []
                world_carol_cached
                eq_refl) as (_ & _ & H).
    apply H. reflexivity.
Defined.

(** The fifth failure in a row: the flag is set and the counter, which
    read 4, is deleted. *)
Lemma recordFailedAttempt_counter_below_threshold_witness :
  let env := at_time 1000 "id1" in
  let w' := snd (run scenario_deps env
                   (recordFailedAttempt "alice@example.com")
                   (world_attempts 4)) in
  cache w' !! "attempts:alice@example.com" = None /\
  cache w' !! "lockout:alice@example.com"
  = Some (mkCacheEntry (JsBool true) 901000).
Proof.
  cbv zeta.
  destruct (recordFailedAttempt_counter_below_threshold scenario_deps
              (at_time 1000 "id1") "alice@example.com"
              (world_attempts 4)
              ltac:(vm_compute; reflexivity) ltac:(vm_compute; reflexivity))
    as (_ & _ & _ & [H|(k & Hk & Hk' & _)]).
  - exact H.
  - exfalso. vm_compute in Hk'. subst k. discriminate Hk.
Defined.

(** Alice logs out; Carol's token is rotated afterwards as it would have
    been before. *)
Lemma logout_leaves_other_users_witness :
  let env := at_time 1000 "r9" in
  let env2 := at_time 5000 "id2" in
  succeeded
    (fst (run scenario_deps env2
            (refreshTokens scenario_deps env2 "carol-token")
            (snd (run scenario_deps env
                    (logout scenario_deps env "access-token" "u1")
                    world_two_users)))) = true.
Proof.
  cbv zeta.
  rewrite (logout_leaves_other_users scenario_deps (at_time 1000 "r9")
             "access-token" "u1" world_two_users (at_time 5000 "id2")
             "carol-token"
             ltac:(intros r [<-|[<-|[<-|[]]]]; vm_compute; intros; discriminate)
             ltac:(discriminate)).
  vm_compute. reflexivity.
Defined.

(** Alice logs in at 1000 ms and presents the refresh token at
    604801000 ms, the instant its row expires: it is accepted. *)
Lemma login_then_refreshTokens_witness :
  let env1 := at_time 1000 "id1" in
  let env2 := at_time 604801000 "id2" in
  succeeded
    (fst (run scenario_deps env2
            (refreshTokens scenario_deps env2
               "refresh:u1.iat=1.expiresIn=7d.key=")
            (snd (run scenario_deps env1
                    (login scenario_deps env1 alice_login) world_alice))))
  = true.
Proof.
  cbv zeta.
  destruct (login_then_refreshTokens scenario_deps (at_time 1000 "id1")
              (at_time 604801000 "id2") alice_login world_alice alice
              ltac:(intros n; reflexivity) ltac:(intros n; reflexivity)
              ltac:(vm_compute; reflexivity) ltac:(vm_compute; reflexivity)
              ltac:(vm_compute; reflexivity) ltac:(vm_compute; reflexivity)
              ltac:(vm_compute; reflexivity) ltac:(vm_compute; reflexivity))
    as (_ & H & _).
  change (refreshToken_for scenario_deps alice (now (at_time 1000 "id1")))
    with "refresh:u1.iat=1.expiresIn=7d.key=" in H.
  rewrite H; [reflexivity | vm_compute; discriminate].
Defined.

(** Bob registers at 1000 ms and logs in at 2000 ms. *)
Lemma register_then_login_witness :
  let env1 := at_time 1000 "id1" in
  let env2 := at_time 2000 "id2" in
  let w1 := snd (run scenario_deps env1
                   (register scenario_deps env1 bob_registration)
                   world_alice) in
  succeeded
    (fst (run scenario_deps env2
            (login scenario_deps env2
               (mkLoginDto "bob@example.com" "S3cret!pass")) w1)) = true /\
  fst (run scenario_deps env2
         (login scenario_deps env2 (mkLoginDto "bob@example.com" "guess")) w1)
  = Throw (invalid_credentials).
Proof.
  cbv zeta.
  destruct (register_then_login scenario_deps (at_time 1000 "id1")
              (at_time 2000 "id2") bob_registration world_alice
              ltac:(intros n; reflexivity) ltac:(intros n; reflexivity)
              ltac:(vm_compute; reflexivity) ltac:(vm_compute; reflexivity)
              ltac:(vm_compute; reflexivity))
    as [H1 H2].
  split.
  - change (dto_email bob_registration) with "bob@example.com" in H1.
    change (dto_password bob_registration) with "S3cret!pass" in H1.
    rewrite H1. reflexivity.
  - apply (H2 "guess"). vm_compute. reflexivity.
Defined.

(** A wrong password for Alice, in a directory that has her and in one
    that is empty. *)
Lemma refused_logins_await_alike_witness :
  let env := at_time 1000 "id1" in
  let dto := mkLoginDto "alice@example.com" "guess" in
  calls scenario_deps env (login scenario_deps env dto)
        world_empty None 0
  = calls scenario_deps env (login scenario_deps env dto) world_alice None 0.
Proof.
  cbv zeta.
  destruct (refused_logins_await_alike scenario_deps (at_time 1000 "id1")
              "alice@example.com" "guess" world_empty world_alice alice
              ltac:(vm_compute; reflexivity) ltac:(vm_compute; reflexivity)
              ltac:(vm_compute; reflexivity) eq_refl)
    as [H _].
  exact H.
Defined.


(** Carol's token is rotated at 1000 ms; the replacement is rotated in
    turn at 604801000 ms, the instant its row expires. *)
Lemma refreshTokens_then_refreshTokens_witness :
  let env1 := at_time 1000 "id1" in
  let env2 := at_time 604801000 "id2" in
  option_map summary_id
    (match fst (run scenario_deps env2
                  (refreshTokens scenario_deps env2
                     "refresh:u3.iat=1.expiresIn=7d.key=")
                  (snd (run scenario_deps env1
                          (refreshTokens scenario_deps env1 "carol-token")
                          world_two_users))) with
     | Ok resp' => Some (user resp')
     | Throw _ => None
     end) = Some "u3".
Proof.
  cbv zeta.
  destruct (refreshTokens_then_refreshTokens scenario_deps
              (at_time 1000 "id1") (at_time 604801000 "id2") "carol-token"
              world_two_users
              (mkAuthResponseDto
                 "access:u3:carol@example.com:admin:7.iat=1.expiresIn=15m.key="
                 "refresh:u3.iat=1.expiresIn=7d.key="
                 (mkUserSummary "u3" "carol@example.com" "Carol" "admin"))
              ltac:(vm_compute; reflexivity) ltac:(intros n; reflexivity)
              ltac:(vm_compute; reflexivity) ltac:(vm_compute; reflexivity)
              ltac:(vm_compute; discriminate))
    as (resp' & H & Hu).
  cbn [refreshToken] in H. rewrite H, Hu. reflexivity.
Defined.

(** Alice logs out, then revokes all her refresh tokens. *)
Lemma revocation_after_logout_witness :
  let env := at_time 1000 "r9" in
  let w' := snd (run scenario_deps env
                   (logout scenario_deps env "access-token" "u1")
                   world_two_users) in
  snd (run scenario_deps (at_time 2000 "r9")
         (revokeAllRefreshTokens "u1") w') = w'.
Proof.
  cbv zeta.
  exact (revocation_after_logout scenario_deps (at_time 1000 "r9")
           (at_time 2000 "r9") "access-token" "u1" world_two_users
           ltac:(vm_compute; reflexivity)).
Defined.
